(** * Series cache of the metric exporter (package [export])

    A shallow embedding of the series cache: the sample interval tracker,
    the counter reset adjuster, the label/resource extractor, metadata
    lookup and [populate]/[get].  Two further modules embed the option
    defaulting and the secret and config map selectors of the operator
    ([Operator]) and the series sets and the querier of the rule evaluator
    ([RuleEvaluator]).

    Conventions.
    - [int64] values are [Z]; the only [int64] arithmetic of the file
      ([t - 1]) is written with its two's-complement wrap-around.
    - [uint64] series references and hashes are [N]; they are only used
      as map keys.
    - [float64] values are the primitive binary64 floats of the kernel.
    - Go maps are [gmap]s.  The cache stores [*seriesCacheEntry]
      pointers; every pointer is stored under exactly one reference, so the
      pointee is modelled as the value of the [entries] map at that key
      and a mutation through the pointer as an update of the map.
    - Every method body runs under the cache mutex (or touches a single
      entry); the model is the sequential behaviour of one call. *)

From Stdlib Require Import ZArith Floats DecimalString.
From stdpp Require Import gmap strings list sorting.

Local Open Scope Z_scope.

(** ** Machine integers *)

Module Int64.

Definition min_int : Z := - 2 ^ 63.
Definition max_int : Z := 2 ^ 63 - 1.

Definition in_range (z : Z) : Prop := min_int <= z <= max_int.

(** Two's-complement wrap-around of a mathematical integer. *)
Definition wrap (z : Z) : Z := (z + 2 ^ 63) mod 2 ^ 64 - 2 ^ 63.

(** Go's [a - b] on [int64]. *)
Definition sub (a b : Z) : Z := wrap (a - b).

End Int64.

(** [time.Time] readings are nanoseconds since the Unix epoch and
    [time.Duration]s are nanoseconds. *)
Definition Unix (t : Z) : Z := t / 1000000000.

Definition minute : Z := 60 * 1000000000.
Definition refreshInterval : Z := 10 * minute.
Definition refreshJitter : Z := 10 * minute.

(** ** Sample intervals *)

(** [type sampleInterval struct { start, end int64 }] *)
Record sampleInterval : Type := SampleInterval {
  si_start : Z;
  si_end : Z;
}.

(** [func (si *sampleInterval) accepts(start, end int64) bool] *)
Definition accepts (si : sampleInterval) (start end_ : Z) : bool :=
  ((start =? si_start si) && (end_ >? si_end si))
  || ((start >? si_start si) && (start >=? si_end si)).

(** The acceptance predicate in the words of the data-model section:
    extend the current end, or start at or after the current end. *)
Definition spec_accepts (si : sampleInterval) (start end_ : Z) : bool :=
  ((start =? si_start si) && (end_ >? si_end si))
  || (start >=? si_end si).

(** ** Label sets (package [labels] of the scrape library) *)

Record Label : Type := mkLabel {
  Name : string;
  Value : string;
}.

Abbreviation Labels := (list Label).

Definition names (ls : Labels) : list string := Name <$> ls.

(** [func (ls Labels) Has(name string) bool] *)
Fixpoint Has (ls : Labels) (name : string) : bool :=
  match ls with
  | [] => false
  | l :: ls' => if String.eqb (Name l) name then true else Has ls' name
  end.

(** [func (ls Labels) Get(name string) string]: the empty string when the
    name is absent. *)
Fixpoint Get (ls : Labels) (name : string) : string :=
  match ls with
  | [] => EmptyString
  | l :: ls' => if String.eqb (Name l) name then Value l else Get ls' name
  end.

(** [func (ls Labels) Map() map[string]string] *)
Definition Map (ls : Labels) : gmap string string :=
  foldl (fun m l => <[Name l := Value l]> m) ∅ ls.

(** [sort.Sort] on [Labels] orders by [Name].  Names of a label set are
    pairwise distinct, so the result does not depend on the algorithm; the
    proofs below only use that it is a permutation. *)
Definition label_le (a b : Label) : Prop := String.leb (Name a) (Name b) = true.

#[global] Instance label_le_dec a b : Decision (label_le a b).
Proof. unfold label_le. apply _. Defined.

Definition sortLabels (ls : Labels) : Labels := merge_sort label_le ls.

(** [func FromMap(m map[string]string) Labels] *)
Definition FromMap (m : gmap string string) : Labels :=
  sortLabels ((fun kv => mkLabel kv.1 kv.2) <$> map_to_list m).

(** [labels.Builder]: a base label set, names to delete and labels to add. *)
Record Builder : Type := mkBuilder {
  b_base : Labels;
  b_del : list string;
  b_add : Labels;
}.

(** [NewBuilder]/[Reset]: base labels with an empty value are scheduled
    for deletion. *)
Definition NewBuilder (base : Labels) : Builder :=
  {| b_base := base;
     b_del := names (filter (fun l => Value l = EmptyString) base);
     b_add := [] |}.

(** [func (b *Builder) Del(ns ...string)] for one name.  [b.add] never
    holds a name twice, so dropping the entries named [n] is what the
    in-place loop does. *)
Definition Del (b : Builder) (n : string) : Builder :=
  {| b_base := b_base b;
     b_del := b_del b ++ [n];
     b_add := filter (fun a => Name a ≠ n) (b_add b) |}.

(** The loop of [Set] over [b.add]: overwrite the value of the first
    entry named [n], or append a new label. *)
Fixpoint setAdd (add : Labels) (n v : string) : Labels :=
  match add with
  | [] => [mkLabel n v]
  | a :: add' =>
      if String.eqb (Name a) n then mkLabel (Name a) v :: add'
      else a :: setAdd add' n v
  end.

(** [func (b *Builder) Set(n, v string)] *)
Definition Set_ (b : Builder) (n v : string) : Builder :=
  if String.eqb v EmptyString then Del b n
  else {| b_base := b_base b; b_del := b_del b; b_add := setAdd (b_add b) n v |}.

Definition elemb (n : string) (ns : list string) : bool :=
  existsb (String.eqb n) ns.

(** [func (b *Builder) Labels() Labels] *)
Definition BuilderLabels (b : Builder) : Labels :=
  match b_del b, b_add b with
  | [], [] => b_base b
  | _, _ =>
      sortLabels
        (filter (fun l => elemb (Name l) (b_del b) = false
                          ∧ Has (b_add b) (Name l) = false) (b_base b)
         ++ b_add b)
  end.

(** Removal of the first label with a given name, as the two
    [append(ls[:i], ls[i+1:]...); break] loops of [populate] do. *)
Fixpoint removeFirst (name : string) (ls : Labels) : Labels :=
  match ls with
  | [] => []
  | l :: ls' => if String.eqb (Name l) name then ls' else l :: removeFirst name ls'
  end.

(** ** Metadata and export records *)

(** [textparse.MetricType] is a string type of the scrape library. *)
Abbreviation MetricType := string.

Definition MetricTypeCounter : MetricType := "counter".
Definition MetricTypeGauge : MetricType := "gauge".
Definition MetricTypeHistogram : MetricType := "histogram".
Definition MetricTypeGaugeHistogram : MetricType := "gaugehistogram".
Definition MetricTypeSummary : MetricType := "summary".
Definition MetricTypeStateset : MetricType := "stateset".
Definition MetricTypeUnknown : MetricType := "unknown".

(** [scrape.MetricMetadata], with the fields the cache sets and reads. *)
Record MetricMetadata : Type := mkMetadata {
  Metric : string;
  Type_ : MetricType;
  Help : string;
}.

(** The zero value Go returns next to [ok = false]. *)
Definition zeroMetadata : MetricMetadata :=
  {| Metric := EmptyString; Type_ := EmptyString; Help := EmptyString |}.

(** [*scrape.Target], seen through its [Metadata(metric)] method. *)
Abbreviation Target := (string -> option MetricMetadata).

Definition targetMetadata (target : Target) (metric : string) : MetricMetadata * bool :=
  match target metric with
  | Some md => (md, true)
  | None => (zeroMetadata, false)
  end.

(** [monitoredres_pb.MonitoredResource] *)
Record MonitoredResource : Type := mkResource {
  res_Type : string;
  res_Labels : gmap string string;
}.

(** [metric_pb.Metric] *)
Record Metric_pb : Type := mkMetric {
  met_Type : string;
  met_Labels : gmap string string;
}.

Inductive MetricKind : Type :=
  | METRIC_KIND_UNSPECIFIED | GAUGE | DELTA | CUMULATIVE.

Inductive ValueType : Type :=
  | VALUE_TYPE_UNSPECIFIED | BOOL | INT64 | DOUBLE | STRING | DISTRIBUTION | MONEY.

(** [monitoring_pb.TimeSeries], with the fields [populate] fills in. *)
Record TimeSeries : Type := mkTimeSeries {
  ts_Metric : Metric_pb;
  ts_Resource : MonitoredResource;
  ts_MetricKind : MetricKind;
  ts_ValueType : ValueType;
}.

(** Modelled from the spec: the [metricSuffix] string type and its
    constants are declared outside the cache file; the spec names the
    suffixes [_sum], [_count] and none. *)
Abbreviation metricSuffix := string.

Definition metricSuffixNone : metricSuffix := EmptyString.
Definition metricSuffixSum : metricSuffix := "_sum".
Definition metricSuffixCount : metricSuffix := "_count".

(** Modelled from the spec: the resource label keys are declared outside
    the cache file; the spec names the monitored-resource identity as
    location, cluster, namespace, job, instance. *)
Definition keyLocation : string := "location".
Definition keyCluster : string := "cluster".
Definition keyNamespace : string := "namespace".
Definition keyJob : string := "job".
Definition keyInstance : string := "instance".

Inductive error : Type :=
  | ErrSeriesReferenceInvalid
  | ErrUnexpectedSuffix (suffix : metricSuffix)
  | ErrUnexpectedType (ty : MetricType).

(** ** The cache *)

(** [type seriesCacheEntry struct]; [proto = None] is the nil pointer. *)
Record seriesCacheEntry : Type := mkEntry {
  lset : Labels;
  metadata : MetricMetadata;
  proto : option TimeSeries;
  suffix : metricSuffix;
  hash : N;
  nextRefresh : Z;
  hasReset : bool;
  resetValue : float;
  resetTimestamp : Z;
}.

(** [&seriesCacheEntry{lset: lset}] *)
Definition newEntry (ls : Labels) : seriesCacheEntry :=
  {| lset := ls; metadata := zeroMetadata; proto := None; suffix := EmptyString;
     hash := 0%N; nextRefresh := 0; hasReset := false;
     resetValue := 0%float; resetTimestamp := 0 |}.

(** [type seriesCache struct], without the logger and the mutex.
    [getLabelsByRef] answers [None] for Go's nil label set. *)
Record seriesCache : Type := mkCache {
  metricsPrefix : string;
  entries : gmap N seriesCacheEntry;
  intervals : gmap N sampleInterval;
  getLabelsByRef : N -> option Labels;
  getExternalLabels : Labels;
}.

Definition with_entries (c : seriesCache) (es : gmap N seriesCacheEntry) : seriesCache :=
  {| metricsPrefix := metricsPrefix c; entries := es; intervals := intervals c;
     getLabelsByRef := getLabelsByRef c; getExternalLabels := getExternalLabels c |}.

Definition with_intervals (c : seriesCache) (ivs : gmap N sampleInterval) : seriesCache :=
  {| metricsPrefix := metricsPrefix c; entries := entries c; intervals := ivs;
     getLabelsByRef := getLabelsByRef c; getExternalLabels := getExternalLabels c |}.

(** [func (e *seriesCacheEntry) valid() bool] *)
Definition valid (e : seriesCacheEntry) : bool :=
  match proto e with Some _ => true | None => false end.

(** [func (e *seriesCacheEntry) shouldRefresh() bool]; [now] is the reading
    of [time.Now()]. *)
Definition shouldRefresh (now : Z) (e : seriesCacheEntry) : bool :=
  Unix now >? nextRefresh e.

(** [func (e *seriesCacheEntry) setNextRefresh()]; [now] is the reading of
    [time.Now()] and [jitter] the duration drawn from the random source,
    [time.Duration((rand.Float64() - 0.5) * float64(refreshJitter))]. *)
Definition setNextRefresh (now jitter : Z) (e : seriesCacheEntry) : seriesCacheEntry :=
  {| lset := lset e; metadata := metadata e; proto := proto e; suffix := suffix e;
     hash := hash e; nextRefresh := Unix (now + refreshInterval + jitter);
     hasReset := hasReset e; resetValue := resetValue e;
     resetTimestamp := resetTimestamp e |}.

(** [e.nextRefresh = 0] *)
Definition invalidate (e : seriesCacheEntry) : seriesCacheEntry :=
  {| lset := lset e; metadata := metadata e; proto := proto e; suffix := suffix e;
     hash := hash e; nextRefresh := 0;
     hasReset := hasReset e; resetValue := resetValue e;
     resetTimestamp := resetTimestamp e |}.

(** [func (c *seriesCache) invalidateAll()] *)
Definition invalidateAll (c : seriesCache) : seriesCache :=
  with_entries c (invalidate <$> entries c).

(** [func (c *seriesCache) garbageCollect() error]: a debug log line and
    [return nil]. *)
Definition garbageCollect (c : seriesCache) : seriesCache * option error :=
  (c, None).

(** What the [select] of [run] can receive. *)
Inductive runEvent : Type := CtxDone | Tick.

(** [func (c *seriesCache) run(ctx)]: the loop over the events that
    arrive; returns the cache and the errors it logged. *)
Fixpoint run (evs : list runEvent) (c : seriesCache) : seriesCache * list error :=
  match evs with
  | [] => (c, [])
  | CtxDone :: _ => (c, [])
  | Tick :: evs' =>
      let '(c1, err) := garbageCollect c in
      let '(c2, logged) := run evs' c1 in
      match err with
      | Some e => (c2, e :: logged)
      | None => (c2, logged)
      end
  end.

(** [func (c *seriesCache) updateSampleInterval(hash uint64, start, end int64) bool] *)
Definition updateSampleInterval (c : seriesCache) (h : N) (start end_ : Z)
  : seriesCache * bool :=
  match intervals c !! h with
  | Some iv =>
      if accepts iv start end_
      then (with_intervals c (<[h := SampleInterval start end_]> (intervals c)), true)
      else (c, false)
  | None => (with_intervals c (<[h := SampleInterval start end_]> (intervals c)), true)
  end.

(** The writes of [getResetAdjusted] through the entry pointer. *)
Definition setReset (hr : bool) (rv : float) (rt : Z) (e : seriesCacheEntry)
  : seriesCacheEntry :=
  {| lset := lset e; metadata := metadata e; proto := proto e; suffix := suffix e;
     hash := hash e; nextRefresh := nextRefresh e;
     hasReset := hr; resetValue := rv; resetTimestamp := rt |}.

(** [func (c *seriesCache) getResetAdjusted(ref uint64, t int64, v float64)
    (int64, float64, bool)] *)
Definition getResetAdjusted (c : seriesCache) (ref : N) (t : Z) (v : float)
  : seriesCache * (Z * float * bool) :=
  match entries c !! ref with
  | None => (c, (0, 0%float, false))
  | Some e =>
      let hasReset0 := hasReset e in
      let e := setReset true (resetValue e) (resetTimestamp e) e in
      if negb hasReset0 then
        let e := setReset (hasReset e) v t e in
        (with_entries c (<[ref := e]> (entries c)), (0, 0%float, false))
      else
        let e :=
          if (v <? resetValue e)%float
          then setReset (hasReset e) 0%float (Int64.sub t 1) e
          else e in
        (with_entries c (<[ref := e]> (entries c)),
         (resetTimestamp e, (v - resetValue e)%float, true))
  end.

(** [var internalMetrics]: metrics written at scrape time for which no
    metadata is exposed. *)
Definition internalMetrics : gmap string MetricMetadata :=
  list_to_map [
    ("up",
     {| Metric := "up"; Type_ := MetricTypeGauge;
        Help := "Up indicates whether the last target scrape was successful." |});
    ("scrape_samples_scraped",
     {| Metric := "scrape_samples_scraped"; Type_ := MetricTypeGauge;
        Help := "How many samples were scraped during the last successful scrape." |});
    ("scrape_duration_seconds",
     {| Metric := "scrape_duration_seconds"; Type_ := MetricTypeGauge;
        Help := "Duration of the last scrape." |});
    ("scrape_samples_post_metric_relabeling",
     {| Metric := "scrape_samples_post_metric_relabeling"; Type_ := MetricTypeGauge;
        Help := "How many samples were ingested after relabeling." |});
    ("scrape_series_added",
     {| Metric := "scrape_series_added"; Type_ := MetricTypeGauge;
        Help := "Number of new series added in the last scrape." |})
  ].

(** [func getMetadata(target *scrape.Target, metric string)
    (scrape.MetricMetadata, bool)] *)
Definition getMetadata (target : Target) (metric : string) : MetricMetadata * bool :=
  match targetMetadata target metric with
  | (md, true) => (md, true)
  | (_, false) =>
      match internalMetrics !! metric with
      | Some md => (md, true)
      | None => (zeroMetadata, false)
      end
  end.

(** The same lookup with the two sources in the order the overview of
    [get] words it: the synthetic table first, the target after. *)
Definition spec_getMetadata (target : Target) (metric : string) : MetricMetadata * bool :=
  match internalMetrics !! metric with
  | Some md => (md, true)
  | None => targetMetadata target metric
  end.

(** The loop of [extractResource] over the external labels. *)
Definition mergeExternal (ls : Labels) (ext : Labels) (b : Builder) : Builder :=
  foldl (fun b l => if Has ls (Name l) then b else Set_ b (Name l) (Value l)) b ext.

(** The label set [extractResource] reads the resource labels from:
    [lset = builder.Labels()] after the merge. *)
Definition mergedLabels (c : seriesCache) (ls : Labels) : Labels :=
  BuilderLabels (mergeExternal ls (getExternalLabels c) (NewBuilder ls)).

(** [func (c *seriesCache) extractResource(lset labels.Labels)], returning
    the monitored resource, the metric labels and [ok]; [None] is nil. *)
Definition extractResource (c : seriesCache) (ls : Labels)
  : option MonitoredResource * option Labels * bool :=
  if negb (Has ls keyJob) then (None, None, false)
  else if negb (Has ls keyInstance) then (None, None, false)
  else
    let builder := mergeExternal ls (getExternalLabels c) (NewBuilder ls) in
    let ls' := BuilderLabels builder in
    let mres :=
      {| res_Type := "prometheus_target";
         res_Labels := list_to_map [
           (keyLocation, Get ls' keyLocation);
           (keyCluster, Get ls' keyCluster);
           (keyNamespace, Get ls' keyNamespace);
           (keyJob, Get ls' keyJob);
           (keyInstance, Get ls' keyInstance) ] |} in
    let builder := Del builder keyLocation in
    let builder := Del builder keyCluster in
    let builder := Del builder keyNamespace in
    let builder := Del builder keyJob in
    let builder := Del builder keyInstance in
    (Some mres, Some (BuilderLabels builder), true).

Section SeriesCache.

(** Declared outside the cache file: the label cap, the suffix splitter,
    the metric type name and the hash primitives. *)
Variable maxLabelCount : nat.
Variable splitComplexMetricSuffix : string -> string * metricSuffix * bool.
Variable getMetricType : string -> string -> string.
Variable hashNew : N.
Variable hashAdd : N -> string -> N.
Variable hashAddByte : N -> Byte.byte -> N.

Definition hashLabels (h : N) (ls : Labels) : N :=
  foldl (fun h l =>
           let h := hashAddByte h Byte.xff in
           let h := hashAdd h (Name l) in
           let h := hashAddByte h Byte.xff in
           hashAdd h (Value l)) h ls.

(** [func hashSeries(s *monitoring_pb.TimeSeries) uint64] *)
Definition hashSeries (s : TimeSeries) : N :=
  let h := hashNew in
  let h := hashAdd h (res_Type (ts_Resource s)) in
  let h := hashAddByte h Byte.xff in
  let h := hashAdd h (met_Type (ts_Metric s)) in
  let h := hashLabels h (FromMap (res_Labels (ts_Resource s))) in
  let h := hashAddByte h Byte.xff in
  hashLabels h (FromMap (met_Labels (ts_Metric s))).

(** The metadata lookup of [populate]: the full name first, then the name
    without its well-known suffix.  [None] is the [return nil] after
    "metadata not found". *)
Definition resolveMetadata (target : Target) (metricName : string)
  : option (MetricMetadata * string * metricSuffix) :=
  let '(md, ok) := getMetadata target metricName in
  if ok then Some (md, EmptyString, metricSuffixNone)
  else
    let '(baseMetricName, sfx, ok1) := splitComplexMetricSuffix metricName in
    let '(md, ok2) :=
      if ok1 then getMetadata target baseMetricName else (md, false) in
    if ok2 then Some (md, baseMetricName, sfx) else None.

Definition setKind (k : MetricKind) (v : ValueType) (ts : TimeSeries) : TimeSeries :=
  {| ts_Metric := ts_Metric ts; ts_Resource := ts_Resource ts;
     ts_MetricKind := k; ts_ValueType := v |}.

Definition setMetricType (ty : string) (ts : TimeSeries) : TimeSeries :=
  {| ts_Metric := {| met_Type := ty; met_Labels := met_Labels (ts_Metric ts) |};
     ts_Resource := ts_Resource ts;
     ts_MetricKind := ts_MetricKind ts; ts_ValueType := ts_ValueType ts |}.

(** The [switch metadata.Type] of [populate]. *)
Definition convert (prefix : string) (md : MetricMetadata) (baseMetricName : string)
    (sfx : metricSuffix) (ts : TimeSeries) : TimeSeries + error :=
  if String.eqb (Type_ md) MetricTypeCounter then
    inl (setKind CUMULATIVE DOUBLE ts)
  else if String.eqb (Type_ md) MetricTypeGauge
          || String.eqb (Type_ md) MetricTypeUnknown then
    inl (setKind GAUGE DOUBLE ts)
  else if String.eqb (Type_ md) MetricTypeSummary then
    if String.eqb sfx metricSuffixSum then inl (setKind CUMULATIVE DOUBLE ts)
    else if String.eqb sfx metricSuffixCount then inl (setKind CUMULATIVE INT64 ts)
    else if String.eqb sfx metricSuffixNone then inl (setKind GAUGE DOUBLE ts)
    else inr (ErrUnexpectedSuffix sfx)
  else if String.eqb (Type_ md) MetricTypeHistogram then
    inl (setKind CUMULATIVE DISTRIBUTION
           (setMetricType (getMetricType prefix baseMetricName) ts))
  else inr (ErrUnexpectedType (Type_ md)).

(** [func (c *seriesCache) populate(entry *seriesCacheEntry,
    target *scrape.Target) error]; the entry returned is the pointee after
    the call. *)
Definition populate (c : seriesCache) (entry : seriesCacheEntry) (target : Target)
  : seriesCacheEntry * option error :=
  match extractResource c (lset entry) with
  | (Some resource, Some metricLabels, true) =>
      let metricLabels := removeFirst "__name__" metricLabels in
      if (maxLabelCount <? length metricLabels)%nat then (entry, None)
      else
        let metricName := Get (lset entry) "__name__" in
        match resolveMetadata target metricName with
        | None => (entry, None)
        | Some (md, baseMetricName, sfx) =>
            let metricLabels :=
              if String.eqb (Type_ md) MetricTypeHistogram
              then removeFirst "le" metricLabels else metricLabels in
            let ts :=
              {| ts_Metric :=
                   {| met_Type := getMetricType (metricsPrefix c) metricName;
                      met_Labels := Map metricLabels |};
                 ts_Resource := resource;
                 ts_MetricKind := METRIC_KIND_UNSPECIFIED;
                 ts_ValueType := VALUE_TYPE_UNSPECIFIED |} in
            match convert (metricsPrefix c) md baseMetricName sfx ts with
            | inr err => (entry, Some err)
            | inl ts =>
                ({| lset := lset entry; metadata := md; proto := Some ts;
                    suffix := sfx; hash := hashSeries ts;
                    nextRefresh := nextRefresh entry;
                    hasReset := hasReset entry; resetValue := resetValue entry;
                    resetTimestamp := resetTimestamp entry |}, None)
            end
        end
  | _ => (entry, None)
  end.

(** The cache-miss branch of [get]: [None] when [getLabelsByRef] yields
    nil, otherwise the cache with the fresh entry stored. *)
Definition lookupOrCreate (c : seriesCache) (ref : N)
  : option (seriesCache * seriesCacheEntry) :=
  match entries c !! ref with
  | Some e => Some (c, e)
  | None =>
      match getLabelsByRef c ref with
      | None => None
      | Some ls =>
          let e := newEntry ls in
          Some (with_entries c (<[ref := e]> (entries c)), e)
      end
  end.

(** [func (c *seriesCache) get(ref uint64, target *scrape.Target)],
    returning the entry, its validity and the error.  [nowCheck] and
    [nowSet] are the readings of [time.Now()] in [shouldRefresh] and
    [setNextRefresh], [jitter] the random offset drawn in
    [setNextRefresh]. *)
Definition get (c : seriesCache) (ref : N) (target : Target)
    (nowCheck nowSet jitter : Z)
  : seriesCache * (option seriesCacheEntry * bool * option error) :=
  match lookupOrCreate c ref with
  | None => (c, (None, false, Some ErrSeriesReferenceInvalid))
  | Some (c, e) =>
      if shouldRefresh nowCheck e then
        match populate c e target with
        | (e, Some err) =>
            (with_entries c (<[ref := e]> (entries c)), (None, false, Some err))
        | (e, None) =>
            let e := setNextRefresh nowSet jitter e in
            (with_entries c (<[ref := e]> (entries c)), (Some e, valid e, None))
        end
      else (c, (Some e, valid e, None))
  end.

(** The export record [populate] starts from, before the switch. *)
Definition protoTemplate (c : seriesCache) (entry : seriesCacheEntry)
    (md : MetricMetadata) (mres : MonitoredResource) (ml : Labels) : TimeSeries :=
  {| ts_Metric :=
       {| met_Type := getMetricType (metricsPrefix c) (Get (lset entry) "__name__");
          met_Labels :=
            Map (if String.eqb (Type_ md) MetricTypeHistogram
                 then removeFirst "le" (removeFirst "__name__" ml)
                 else removeFirst "__name__" ml) |};
     ts_Resource := mres;
     ts_MetricKind := METRIC_KIND_UNSPECIFIED;
     ts_ValueType := VALUE_TYPE_UNSPECIFIED |}.

(** The entry after a successful [populate]. *)
Definition populatedEntry (entry : seriesCacheEntry) (md : MetricMetadata)
    (sfx : metricSuffix) (ts : TimeSeries) : seriesCacheEntry :=
  {| lset := lset entry; metadata := md; proto := Some ts;
     suffix := sfx; hash := hashSeries ts;
     nextRefresh := nextRefresh entry;
     hasReset := hasReset entry; resetValue := resetValue entry;
     resetTimestamp := resetTimestamp entry |}.

End SeriesCache.

(** * The operator (package [operator]) *)

Module Operator.

Definition DefaultOperatorNamespace : string := "gmp-system".
Definition DefaultPublicNamespace : string := "gmp-public".

(** The official images; the option fields of the same names may
    overwrite them. *)
Definition CanonicalImageCollector : string :=
  "gke.gcr.io/prometheus-engine/prometheus:v2.35.0-gmp.2-gke.0".
Definition CanonicalImageConfigReloader : string :=
  "gke.gcr.io/prometheus-engine/config-reloader:v0.4.2-gke.0".
Definition CanonicalImageRuleEvaluator : string :=
  "gke.gcr.io/prometheus-engine/rule-evaluator:v0.4.2-gke.0".

(** [type Options struct]; [CollectorPort] is an [int32], the resources
    and limits are [int64]. *)
Record Options : Type := mkOptions {
  ProjectID : string;
  Location : string;
  Cluster : string;
  DisableExport : bool;
  OperatorNamespace : string;
  PublicNamespace : string;
  CollectorPort : Z;
  ImageCollector : string;
  ImageConfigReloader : string;
  ImageRuleEvaluator : string;
  HostNetwork : bool;
  PriorityClass : string;
  TLSCert : string;
  TLSKey : string;
  CACert : string;
  CloudMonitoringEndpoint : string;
  ListenAddr : string;
  CollectorMemoryResource : Z;
  CollectorCPUResource : Z;
  CollectorCPULimit : Z;
  CollectorMemoryLimit : Z;
  EvaluatorMemoryResource : Z;
  EvaluatorCPUResource : Z;
  EvaluatorMemoryLimit : Z;
  EvaluatorCPULimit : Z;
  Mode : string;
}.

Inductive optionsError : Type :=
  | ErrProjectIDUnset
  | ErrClusterUnset
  | ErrMode.

(** The notices [defaultAndValidate] logs about images that are not the
    canonical ones. *)
Inductive notice : Type :=
  | NotCanonicalCollector
  | NotCanonicalConfigReloader
  | NotCanonicalRuleEvaluator.

(** [if field == "" { field = value }] *)
Definition orDefault (field value : string) : string :=
  if String.eqb field EmptyString then value else field.

(** Go's [a * b] on [int64]. *)
Definition mul64 (a b : Z) : Z := Int64.wrap (a * b).

(** The first block of [defaultAndValidate]: namespaces, port and images. *)
Definition defaultNames (o : Options) : Options :=
  {| ProjectID := ProjectID o; Location := Location o; Cluster := Cluster o;
     DisableExport := DisableExport o;
     OperatorNamespace := orDefault (OperatorNamespace o) DefaultOperatorNamespace;
     PublicNamespace := orDefault (PublicNamespace o) DefaultOperatorNamespace;
     CollectorPort := (if CollectorPort o =? 0 then 19090 else CollectorPort o);
     ImageCollector := orDefault (ImageCollector o) CanonicalImageCollector;
     ImageConfigReloader := orDefault (ImageConfigReloader o) CanonicalImageConfigReloader;
     ImageRuleEvaluator := orDefault (ImageRuleEvaluator o) CanonicalImageRuleEvaluator;
     HostNetwork := HostNetwork o; PriorityClass := PriorityClass o;
     TLSCert := TLSCert o; TLSKey := TLSKey o; CACert := CACert o;
     CloudMonitoringEndpoint := CloudMonitoringEndpoint o;
     ListenAddr := ListenAddr o;
     CollectorMemoryResource := CollectorMemoryResource o;
     CollectorCPUResource := CollectorCPUResource o;
     CollectorCPULimit := CollectorCPULimit o;
     CollectorMemoryLimit := CollectorMemoryLimit o;
     EvaluatorMemoryResource := EvaluatorMemoryResource o;
     EvaluatorCPUResource := EvaluatorCPUResource o;
     EvaluatorMemoryLimit := EvaluatorMemoryLimit o;
     EvaluatorCPULimit := EvaluatorCPULimit o; Mode := Mode o |}.

(** The block after the two checks: resources and memory limits.  The
    collector limit is assigned twice in the source; the second
    assignment is the one that stays. *)
Definition defaultResources (o : Options) : Options :=
  let collectorCPU :=
    if CollectorCPUResource o <=? 0 then 100 else CollectorCPUResource o in
  let collectorMemory :=
    if CollectorMemoryResource o <=? 0 then 200 else CollectorMemoryResource o in
  let collectorLimit :=
    if CollectorMemoryLimit o <=? collectorMemory then
      let limit :=
        if mul64 collectorMemory 2 <? 3000 then 3000
        else mul64 collectorMemory 2 in
      let limit := mul64 collectorMemory 15 in
      limit
    else CollectorMemoryLimit o in
  let evaluatorCPU :=
    if EvaluatorCPUResource o <=? 0 then 100 else EvaluatorCPUResource o in
  let evaluatorMemory :=
    if EvaluatorMemoryResource o <=? 0 then 200 else EvaluatorMemoryResource o in
  let evaluatorLimit :=
    if EvaluatorMemoryLimit o <=? evaluatorMemory
    then mul64 evaluatorMemory 15 else EvaluatorMemoryLimit o in
  {| ProjectID := ProjectID o; Location := Location o; Cluster := Cluster o;
     DisableExport := DisableExport o;
     OperatorNamespace := OperatorNamespace o;
     PublicNamespace := PublicNamespace o; CollectorPort := CollectorPort o;
     ImageCollector := ImageCollector o;
     ImageConfigReloader := ImageConfigReloader o;
     ImageRuleEvaluator := ImageRuleEvaluator o;
     HostNetwork := HostNetwork o; PriorityClass := PriorityClass o;
     TLSCert := TLSCert o; TLSKey := TLSKey o; CACert := CACert o;
     CloudMonitoringEndpoint := CloudMonitoringEndpoint o;
     ListenAddr := ListenAddr o; CollectorMemoryResource := collectorMemory;
     CollectorCPUResource := collectorCPU;
     CollectorCPULimit := CollectorCPULimit o;
     CollectorMemoryLimit := collectorLimit;
     EvaluatorMemoryResource := evaluatorMemory;
     EvaluatorCPUResource := evaluatorCPU;
     EvaluatorMemoryLimit := evaluatorLimit;
     EvaluatorCPULimit := EvaluatorCPULimit o; Mode := Mode o |}.

Definition imageNotices (o : Options) : list notice :=
  (if String.eqb (ImageCollector o) CanonicalImageCollector
   then [] else [NotCanonicalCollector])
  ++ (if String.eqb (ImageConfigReloader o) CanonicalImageConfigReloader
      then [] else [NotCanonicalConfigReloader])
  ++ (if String.eqb (ImageRuleEvaluator o) CanonicalImageRuleEvaluator
      then [] else [NotCanonicalRuleEvaluator]).

Definition modes : list string :=
  ["kubectl"; "gke"; "gke-auto"; "on-prem"; "baremetal"].

(** [func (o *Options) defaultAndValidate(logger logr.Logger) error]: the
    options after the call, the notices logged and the error. *)
Definition defaultAndValidate (o : Options)
  : Options * list notice * option optionsError :=
  let o := defaultNames o in
  if String.eqb (ProjectID o) EmptyString then (o, [], Some ErrProjectIDUnset)
  else if String.eqb (Cluster o) EmptyString then (o, [], Some ErrClusterUnset)
  else
    let logged := imageNotices o in
    let o := defaultResources o in
    if existsb (String.eqb (Mode o)) modes then (o, logged, None)
    else (o, logged, Some ErrMode).

(** The selectors of [monitoringv1.SecretOrConfigMap], with the fields
    the operator reads. *)
Record KeySelector : Type := mkKeySelector {
  selName : string;
  selKey : string;
}.

Record SecretOrConfigMap : Type := mkSecretOrConfigMap {
  scmSecret : option KeySelector;
  scmConfigMap : option KeySelector;
}.

(** [fmt.Sprintf] with the format of four strings joined by underscores. *)
Definition sprintf4 (a b c d : string) : string :=
  (a ++ "_" ++ b ++ "_" ++ c ++ "_" ++ d)%string.

(** [func pathForSelector(namespace string, scm *monitoringv1.SecretOrConfigMap)
    string]; [None] is the nil pointer. *)
Definition pathForSelector (namespace : string) (scm : option SecretOrConfigMap)
  : string :=
  match scm with
  | None => EmptyString
  | Some scm =>
      match scmConfigMap scm with
      | Some cm => sprintf4 "configmap" namespace (selName cm) (selKey cm)
      | None =>
          match scmSecret scm with
          | Some secret => sprintf4 "secret" namespace (selName secret) (selKey secret)
          | None => EmptyString
          end
      end
  end.

(** What the operator reads of a [corev1.Secret] and a
    [corev1.ConfigMap]. *)
Record Secret : Type := mkSecret {
  secretData : gmap string (list Byte.byte);
}.

Record ConfigMap : Type := mkConfigMap {
  cmData : gmap string string;
  cmBinaryData : gmap string (list Byte.byte);
}.

Inductive lookupError : Type :=
  | ErrGetSecret (name : string)
  | ErrSecretKeyNotFound (key name : string)
  | ErrGetConfigMap (name : string)
  | ErrConfigMapKeyNotFound (key name : string).

(** [client.Reader], seen through the two kinds of object the operator
    fetches by namespace and name; [None] is a failed [Get]. *)
Record Reader : Type := mkReader {
  readSecret : string -> string -> option Secret;
  readConfigMap : string -> string -> option ConfigMap;
}.

(** [func getSecretKeyBytes]; a nil byte slice is the empty list. *)
Definition getSecretKeyBytes (kClient : Reader) (namespace : string)
    (sel : KeySelector) : list Byte.byte * option lookupError :=
  match readSecret kClient namespace (selName sel) with
  | None => ([], Some (ErrGetSecret (selName sel)))
  | Some secret =>
      match secretData secret !! selKey sel with
      | None => ([], Some (ErrSecretKeyNotFound (selKey sel) (selName sel)))
      | Some bytes => (bytes, None)
      end
  end.

(** [func getConfigMapKeyBytes]: [data] first, then [binaryData]. *)
Definition getConfigMapKeyBytes (kClient : Reader) (namespace : string)
    (sel : KeySelector) : list Byte.byte * option lookupError :=
  match readConfigMap kClient namespace (selName sel) with
  | None => ([], Some (ErrGetConfigMap (selName sel)))
  | Some cm =>
      match cmData cm !! selKey sel with
      | Some s => (String.list_byte_of_string s, None)
      | None =>
          match cmBinaryData cm !! selKey sel with
          | Some b => (b, None)
          | None => ([], Some (ErrConfigMapKeyNotFound (selKey sel) (selName sel)))
          end
      end
  end.

(** [func getSecretOrConfigMapBytes] *)
Definition getSecretOrConfigMapBytes (kClient : Reader) (namespace : string)
    (scm : SecretOrConfigMap) : list Byte.byte * option lookupError :=
  match scmSecret scm with
  | Some secret => getSecretKeyBytes kClient namespace secret
  | None =>
      match scmConfigMap scm with
      | Some cm => getConfigMapKeyBytes kClient namespace cm
      | None => ([], None)
      end
  end.

End Operator.

(** * The rule evaluator (command [rule-evaluator]) *)

Module RuleEvaluator.

(** [promql.FPoint] and [promql.Series], with the fields the evaluator
    fills in and reads. *)
Record FPoint : Type := mkFPoint {
  pT : Z;
  pF : float;
}.

Record Series : Type := mkSeries {
  sMetric : Labels;
  sFloats : list FPoint;
}.

(** [parser.Value], the result of a query, with the name [Type()] gives
    each kind. *)
Inductive Value : Type :=
  | VMatrix (m : list Series)
  | VVector (v : list (Labels * FPoint))
  | VScalar (p : FPoint)
  | VString (t : Z) (s : string).

Definition valueType (v : Value) : string :=
  match v with
  | VMatrix _ => "matrix"
  | VVector _ => "vector"
  | VScalar _ => "scalar"
  | VString _ _ => "string"
  end.

(** The errors of the query path: [errors.New]/[fmt.Errorf] with a fixed
    text, and the type mismatch with the type it names. *)
Inductive queryError : Type :=
  | ErrText (msg : string)
  | ErrNotMatrix (actual : string).

(** [func convertV1WarningsToStorageWarnings(w v1.Warnings) storage.Warnings] *)
Definition convertV1WarningsToStorageWarnings (w : list string) : list queryError :=
  ErrText <$> w.

(** [type listSeriesSet struct]; [idx] is a Go [int]. *)
Record listSeriesSet : Type := mkListSeriesSet {
  ssM : list Series;
  ssIdx : Z;
  ssErr : option queryError;
  ssWarnings : list queryError;
}.

(** [func (ss *listSeriesSet) Next() bool]: the set after [ss.idx++] and
    the result. *)
Definition Next (ss : listSeriesSet) : listSeriesSet * bool :=
  let idx := Int64.wrap (ssIdx ss + 1) in
  ({| ssM := ssM ss; ssIdx := idx; ssErr := ssErr ss; ssWarnings := ssWarnings ss |},
   idx <? Z.of_nat (length (ssM ss))).

(** [func (ss *listSeriesSet) At() storage.Series]: the series that
    [promql.NewStorageSeries] wraps; [None] is the index-out-of-range
    panic. *)
Definition At (ss : listSeriesSet) : option Series :=
  if ssIdx ss <? 0 then None else ssM ss !! Z.to_nat (ssIdx ss).

(** [func (ss *listSeriesSet) Err() error] *)
Definition Err (ss : listSeriesSet) : option queryError := ssErr ss.

(** [func (ss *listSeriesSet) Warnings() storage.Warnings] *)
Definition Warnings (ss : listSeriesSet) : list queryError := ssWarnings ss.

(** [func newListSeriesSet(v promql.Matrix, err error, w v1.Warnings)
    *listSeriesSet] *)
Definition newListSeriesSet (v : list Series) (err : option queryError)
    (w : list string) : listSeriesSet :=
  {| ssM := v; ssIdx := -1; ssErr := err;
     ssWarnings := convertV1WarningsToStorageWarnings w |}.

(** [labels.Matcher], with the name the evaluator reads; its text form
    [String()] is the library's. *)
Record Matcher : Type := mkMatcher {
  mName : string;
  mText : string;
}.

(** [fmt.Sprintf] with the format of the query expression: the selector
    in braces and the range in seconds. *)
Definition sprintfQuery (selector : string) (d : Z) : string :=
  ("{" ++ selector ++ "}[" ++ NilZero.string_of_int (Z.to_int d) ++ "s]")%string.

(** [func convertMatchersToPromQL(matchers []*labels.Matcher, d int64)
    (string, []string)] *)
Definition convertMatchersToPromQL (matchers : list Matcher) (d : Z)
  : string * list string :=
  let metricLabels := mText <$> matchers in
  let filteredMatchers := mName <$> matchers in
  (sprintfQuery (String.concat ", " metricLabels) d, filteredMatchers).

(** [func (ls Labels) MatchLabels(on bool, names ...string) Labels] of the
    label library, for [on = true]: the labels whose name is listed. *)
Definition MatchLabels (ls : Labels) (names : list string) : Labels :=
  filter (fun l => Name l ∈ names) ls.

(** [type queryAccess struct]: the range in seconds and the query
    function, which is given the expression and the evaluation time. *)
Record queryAccess : Type := mkQueryAccess {
  qMint : Z;
  qMaxt : Z;
  qQuery : string -> Z -> Value * list string * option queryError;
}.

(** [func (s *queryStorage) Querier(ctx, mint, maxt int64)]: the bounds
    in milliseconds become seconds by Go's truncating division. *)
Definition Querier (query : string -> Z -> Value * list string * option queryError)
    (mint maxt : Z) : queryAccess :=
  {| qMint := Z.quot mint 1000; qMaxt := Z.quot maxt 1000; qQuery := query |}.

(** [*storage.SelectHints]; only whether it is nil matters here. *)
Record SelectHints : Type := mkSelectHints {
  hStart : Z;
  hEnd : Z;
}.

(** [func (db *queryAccess) Select(sort bool, hints *storage.SelectHints,
    matchers ...*labels.Matcher) storage.SeriesSet] *)
Definition Select (db : queryAccess) (sort : bool) (hints : option SelectHints)
    (matchers : list Matcher) : listSeriesSet :=
  if sort || match hints with Some _ => true | None => false end then
    newListSeriesSet []
      (Some (ErrText "sorting series and select hints are not supported")) []
  else
    let duration := Int64.sub (qMaxt db) (qMint db) in
    if duration <=? 0 then newListSeriesSet [] None []
    else
      let '(queryExpression, filteredMatchers) :=
        convertMatchersToPromQL matchers duration in
      let '(v, warnings, err) := qQuery db queryExpression (qMaxt db) in
      match err with
      | Some e => newListSeriesSet [] (Some e) warnings
      | None =>
          match v with
          | VMatrix m =>
              newListSeriesSet
                ((fun sample =>
                    {| sMetric := MatchLabels (sMetric sample) filteredMatchers;
                       sFloats := sFloats sample |}) <$> m)
                None warnings
          | _ => newListSeriesSet [] (Some (ErrNotMatrix (valueType v))) []
          end
      end.

End RuleEvaluator.

(** ** Vocabulary of the statements *)

(** The names of [internalMetrics]. *)
Definition wellKnownInternal : list string :=
  ["up"; "scrape_samples_scraped"; "scrape_duration_seconds";
   "scrape_samples_post_metric_relabeling"; "scrape_series_added"].

(** The label names that make up the monitored resource. *)
Definition resourceKeys : list string :=
  [keyLocation; keyCluster; keyNamespace; keyJob; keyInstance].

(** The monitored resource [extractResource] builds from the merged
    label set. *)
Definition resourceOf (ls' : Labels) : MonitoredResource :=
  {| res_Type := "prometheus_target";
     res_Labels := list_to_map [
       (keyLocation, Get ls' keyLocation);
       (keyCluster, Get ls' keyCluster);
       (keyNamespace, Get ls' keyNamespace);
       (keyJob, Get ls' keyJob);
       (keyInstance, Get ls' keyInstance) ] |}.

(** The builder of [extractResource] after its five [Del] calls. *)
Definition withoutResourceKeys (b : Builder) : Builder :=
  Del (Del (Del (Del (Del b keyLocation) keyCluster) keyNamespace) keyJob) keyInstance.

(** The test of [Builder.Labels] on a base label: neither deleted nor
    overridden by an added label. *)
Definition keeps (b : Builder) (n : string) : Prop :=
  elemb n (b_del b) = false /\ Has (b_add b) n = false.

#[global] Instance keeps_dec b n : Decision (keeps b n).
Proof. unfold keeps. apply _. Defined.

(** One round of the loop over the external labels. *)
Definition mergeStep (ls : Labels) (b : Builder) (l : Label) : Builder :=
  if Has ls (Name l) then b else Set_ b (Name l) (Value l).

(** The invariant of the merge loop: the base is the original label set,
    added names are new and distinct, deleted names are absent from the
    original set or carry an empty value there. *)
Definition merge_inv (ls : Labels) (b : Builder) : Prop :=
  b_base b = ls
  /\ NoDup (names (b_add b))
  /\ (forall n, Has (b_add b) n = true -> Has ls n = false)
  /\ (forall n, elemb n (b_del b) = true ->
                Has ls n = false \/ Get ls n = EmptyString).

(** The metric types the switch of [populate] has a case for. *)
Definition convertibleTypes : list MetricType :=
  [MetricTypeCounter; MetricTypeGauge; MetricTypeUnknown;
   MetricTypeSummary; MetricTypeHistogram].

(** [r] is a successful [populate] whose export record has the given
    kind, value type and metric labels. *)
Definition describes (r : seriesCacheEntry * option error)
    (k : MetricKind) (v : ValueType) (ml : Labels) : Prop :=
  exists e ts,
    r = (e, None) /\ proto e = Some ts
    /\ ts_MetricKind ts = k /\ ts_ValueType ts = v
    /\ met_Labels (ts_Metric ts) = Map ml.

(** No entry of the cache holds an export record for a series whose
    metric labels exceed the cap. *)
Definition withinCap (cap : nat) (c : seriesCache) : Prop :=
  forall ref e mres ml,
    entries c !! ref = Some e ->
    extractResource c (lset e) = (Some mres, Some ml, true) ->
    (cap < length (removeFirst "__name__" ml))%nat ->
    proto e = None.

(** A run of [updateSampleInterval] calls, each given as hash, start and
    end; the results of the calls are dropped. *)
Definition updateSamples (c : seriesCache) (calls : list (N * Z * Z)) : seriesCache :=
  foldl (fun c call => fst (updateSampleInterval c call.1.1 call.1.2 call.2)) c calls.

(** What a consumer of a series set reads: [Next] until it answers false,
    [At] after every [Next] that answered true. *)
Fixpoint drain (fuel : nat) (ss : RuleEvaluator.listSeriesSet)
  : list (option RuleEvaluator.Series) :=
  match fuel with
  | O => []
  | S fuel =>
      let '(ss, more) := RuleEvaluator.Next ss in
      if more then RuleEvaluator.At ss :: drain fuel ss else []
  end.

(** ** Concrete caches, series and targets *)

(** [newSeriesCache] with no external labels and no series. *)
Definition emptyCache : seriesCache :=
  {| metricsPrefix := "prometheus.googleapis.com";
     entries := ∅; intervals := ∅;
     getLabelsByRef := fun _ => None;
     getExternalLabels := [] |}.

(** The series of the counter scenario. *)
Definition scenarioLabels : Labels :=
  [mkLabel "__name__" "http_requests_total";
   mkLabel "instance" "1:9090"; mkLabel "job" "a"].

(** A cache whose entry 1 has seen the sample (100, 5). *)
Definition cacheSeen : seriesCache :=
  with_entries emptyCache
    {[ 1%N := setReset true 5%float 100 (newEntry scenarioLabels) ]}.

(** External labels carrying a cluster, a colliding [job] and a location. *)
Definition cacheExternal : seriesCache :=
  {| metricsPrefix := "prometheus.googleapis.com";
     entries := ∅; intervals := ∅;
     getLabelsByRef := fun ref => if (ref =? 1)%N then Some scenarioLabels else None;
     getExternalLabels :=
       [mkLabel "cluster" "c1"; mkLabel "job" "other"; mkLabel "location" "us"] |}.

(** A target that exposes its own metadata for [up]. *)
Definition targetWithUp : Target :=
  fun metric =>
    if String.eqb metric "up"
    then Some {| Metric := "up"; Type_ := MetricTypeCounter; Help := "custom" |}
    else None.

(** Stand-ins for the declarations outside the cache file. *)
Definition sampleSplit (name : string) : string * metricSuffix * bool :=
  (name, metricSuffixNone, false).
Definition sampleMetricType (prefix name : string) : string :=
  (prefix ++ "/" ++ name)%string.
Definition sampleHashAdd (h : N) (s : string) : N :=
  (h * 31 + N.of_nat (String.length s))%N.
Definition sampleHashAddByte (h : N) (b : Byte.byte) : N :=
  (h * 31 + Byte.to_N b)%N.

Definition samplePopulate (cap : nat) :=
  populate cap sampleSplit sampleMetricType 0%N sampleHashAdd sampleHashAddByte.
Definition sampleGet (cap : nat) :=
  get cap sampleSplit sampleMetricType 0%N sampleHashAdd sampleHashAddByte.

(** A target that knows the counter of the scenario and a histogram. *)
Definition sampleTarget : Target :=
  fun metric =>
    if String.eqb metric "http_requests_total"
    then Some {| Metric := metric; Type_ := MetricTypeCounter; Help := "requests" |}
    else if String.eqb metric "latency"
    then Some {| Metric := metric; Type_ := MetricTypeHistogram; Help := "latency" |}
    else None.

(** A histogram bucket series. *)
Definition histogramLabels : Labels :=
  [mkLabel "__name__" "latency"; mkLabel "instance" "1:9090";
   mkLabel "job" "a"; mkLabel "le" "0.5"].

Definition histogramMetricLabels : Labels :=
  BuilderLabels
    (withoutResourceKeys
       (mergeExternal histogramLabels (getExternalLabels cacheExternal)
          (NewBuilder histogramLabels))).

(** A series with three metric labels, against a cap of two. *)
Definition wideLabels : Labels :=
  [mkLabel "__name__" "wide"; mkLabel "a" "1"; mkLabel "b" "2"; mkLabel "c" "3";
   mkLabel "instance" "1:9090"; mkLabel "job" "a"].

(** A cache that resolves reference 1 to the wide series. *)
Definition cacheWide : seriesCache :=
  {| metricsPrefix := "prometheus.googleapis.com";
     entries := ∅; intervals := ∅;
     getLabelsByRef := fun ref => if (ref =? 1)%N then Some wideLabels else None;
     getExternalLabels := [] |}.

(** The first [get] of the scenario series, one thousand seconds after the
    epoch. *)
Definition firstGet :=
  sampleGet 10 cacheExternal 1%N sampleTarget 1000000000000 1000000000000 0.

Definition firstCache : seriesCache := fst firstGet.
Definition firstEntry : seriesCacheEntry :=
  default (newEntry []) (fst (fst (snd firstGet))).

(** A recording-rule series: no [instance] label. *)
Definition ruleLabels : Labels :=
  [mkLabel "__name__" "job:up:sum"; mkLabel "job" "a"].

Definition cacheRule : seriesCache :=
  {| metricsPrefix := "prometheus.googleapis.com";
     entries := ∅; intervals := ∅;
     getLabelsByRef := fun ref => if (ref =? 1)%N then Some ruleLabels else None;
     getExternalLabels := [] |}.

(** A target without any metadata, and one that declares the scenario
    counter with the type [info]. *)
Definition silentTarget : Target := fun _ => None.


(** The [up] series of a target. *)
Definition upLabels : Labels :=
  [mkLabel "__name__" "up"; mkLabel "instance" "1:9090"; mkLabel "job" "a"].

Definition upMetricLabels : Labels :=
  BuilderLabels
    (withoutResourceKeys
       (mergeExternal upLabels (getExternalLabels cacheExternal)
          (NewBuilder upLabels))).

(** The first [populate] of the scenario series and the record it builds. *)
Definition firstPopulate : seriesCacheEntry * option error :=
  samplePopulate 10 cacheExternal (newEntry scenarioLabels) sampleTarget.

Definition emptyRecord : TimeSeries :=
  {| ts_Metric := {| met_Type := EmptyString; met_Labels := ∅ |};
     ts_Resource := {| res_Type := EmptyString; res_Labels := ∅ |};
     ts_MetricKind := METRIC_KIND_UNSPECIFIED;
     ts_ValueType := VALUE_TYPE_UNSPECIFIED |}.

Definition firstRecord : TimeSeries :=
  default emptyRecord (proto (fst firstPopulate)).

(** The cache once [getExternalLabels] answers with other labels, as it
    does after the configuration was reloaded. *)
Definition with_externalLabels (c : seriesCache) (ext : Labels) : seriesCache :=
  {| metricsPrefix := metricsPrefix c; entries := entries c;
     intervals := intervals c; getLabelsByRef := getLabelsByRef c;
     getExternalLabels := ext |}.

(** The scenario counter with two metric labels of its own: exactly at a
    cap of two. *)
Definition fullLabels : Labels :=
  [mkLabel "__name__" "http_requests_total"; mkLabel "a" "1"; mkLabel "b" "2";
   mkLabel "instance" "1:9090"; mkLabel "job" "a"].

Definition cacheFull : seriesCache :=
  {| metricsPrefix := "prometheus.googleapis.com";
     entries := ∅; intervals := ∅;
     getLabelsByRef := fun ref => if (ref =? 1)%N then Some fullLabels else None;
     getExternalLabels := [] |}.

(** The first [get] of that series under a cap of two, one thousand
    seconds after the epoch. *)
Definition fullGet :=
  sampleGet 2 cacheFull 1%N sampleTarget 1000000000000 1000000000000 0.

(** The external labels gain [env], and [invalidateAll] is called. *)
Definition cacheReloaded : seriesCache :=
  invalidateAll (with_externalLabels (fst fullGet) [mkLabel "env" "prod"]).

(** The next [get] of the series, a thousand seconds later. *)
Definition reloadedGet :=
  sampleGet 2 cacheReloaded 1%N sampleTarget 2000000000000 2000000000000 0.

(** Options as a caller who sets the project, the cluster, the mode, its
    own collector image and a collector memory resource would pass them. *)
Definition sampleOptions : Operator.Options :=
  {| Operator.ProjectID := "my-project"; Operator.Location := "us-central1";
     Operator.Cluster := "my-cluster"; Operator.DisableExport := false;
     Operator.OperatorNamespace := EmptyString;
     Operator.PublicNamespace := EmptyString;
     Operator.CollectorPort := 0;
     Operator.ImageCollector := "example.com/prometheus:test";
     Operator.ImageConfigReloader := EmptyString;
     Operator.ImageRuleEvaluator := EmptyString;
     Operator.HostNetwork := false; Operator.PriorityClass := EmptyString;
     Operator.TLSCert := EmptyString; Operator.TLSKey := EmptyString;
     Operator.CACert := EmptyString;
     Operator.CloudMonitoringEndpoint := EmptyString;
     Operator.ListenAddr := EmptyString;
     Operator.CollectorMemoryResource := 100;
     Operator.CollectorCPUResource := 0;
     Operator.CollectorCPULimit := 0;
     Operator.CollectorMemoryLimit := 0;
     Operator.EvaluatorMemoryResource := 0;
     Operator.EvaluatorCPUResource := 0;
     Operator.EvaluatorMemoryLimit := 4000;
     Operator.EvaluatorCPULimit := 0;
     Operator.Mode := "gke" |}.

Definition sampleOptionsChecked : Operator.Options :=
  fst (fst (Operator.defaultAndValidate sampleOptions)).

Definition sampleNotices : list Operator.notice :=
  snd (fst (Operator.defaultAndValidate sampleOptions)).

(** A selector with both a secret and a config map, and a reader with one
    secret and one config map. *)
Definition bothSelectors : Operator.SecretOrConfigMap :=
  {| Operator.scmSecret := Some (Operator.mkKeySelector "tls" "ca.crt");
     Operator.scmConfigMap := Some (Operator.mkKeySelector "certs" "ca.crt") |}.

Definition sampleReader : Operator.Reader :=
  {| Operator.readSecret := fun ns name =>
       if String.eqb ns "gmp-public" && String.eqb name "tls"
       then Some {| Operator.secretData := {[ "ca.crt" := [Byte.x01; Byte.x02] ]} |}
       else None;
     Operator.readConfigMap := fun ns name =>
       if String.eqb ns "gmp-public" && String.eqb name "certs"
       then Some {| Operator.cmData := {[ "ca.crt" := "pem" ]};
                    Operator.cmBinaryData := {[ "ca.crt" := [Byte.x03] ]} |}
       else None |}.

(** A query function that answers every expression with one series
    carrying three labels, and a selection by two matchers. *)
Definition sampleSeries : RuleEvaluator.Series :=
  {| RuleEvaluator.sMetric :=
       [mkLabel "__name__" "up"; mkLabel "job" "a"; mkLabel "zone" "z1"];
     RuleEvaluator.sFloats := [RuleEvaluator.mkFPoint 1000 1%float] |}.

Definition sampleQuery (expr : string) (t : Z)
  : RuleEvaluator.Value * list string * option RuleEvaluator.queryError :=
  (RuleEvaluator.VMatrix [sampleSeries], ["partial data"], None).

Definition failingQuery (expr : string) (t : Z)
  : RuleEvaluator.Value * list string * option RuleEvaluator.queryError :=
  (RuleEvaluator.VMatrix [], [], Some (RuleEvaluator.ErrText "unavailable")).

Definition quoted (s : string) : string :=
  let q := String (Ascii.ascii_of_nat 34) EmptyString in (q ++ s ++ q)%string.

Definition sampleMatchers : list RuleEvaluator.Matcher :=
  [RuleEvaluator.mkMatcher "__name__" ("__name__=" ++ quoted "up")%string;
   RuleEvaluator.mkMatcher "job" ("job=" ++ quoted "a")%string].

(** * Properties *)

(** ** Machine integers *)

Lemma wrap_in_range z : Int64.in_range z -> Int64.wrap z = z.
Proof.
  unfold Int64.in_range, Int64.min_int, Int64.max_int, Int64.wrap. intros Hz.
  rewrite Z.mod_small; lia.
Qed.

Lemma wrap_range z : Int64.in_range (Int64.wrap z).
Proof.
  unfold Int64.in_range, Int64.min_int, Int64.max_int, Int64.wrap.
  pose proof (Z.mod_pos_bound (z + 2 ^ 63) (2 ^ 64) ltac:(lia)). lia.
Qed.

Lemma sub_one_exact t :
  Int64.in_range t -> Int64.min_int < t -> Int64.sub t 1 = t - 1.
Proof.
  unfold Int64.sub. intros Ht Hm. apply wrap_in_range.
  unfold Int64.in_range, Int64.min_int, Int64.max_int in *. lia.
Qed.

(** ** Sample interval tracker *)

Lemma accepts_iff si start end_ :
  accepts si start end_ = true <->
  (start = si_start si /\ end_ > si_end si)
  \/ (start > si_start si /\ start >= si_end si).
Proof. unfold accepts. lia. Qed.

Lemma spec_accepts_iff si start end_ :
  spec_accepts si start end_ = true <->
  (start = si_start si /\ end_ > si_end si) \/ start >= si_end si.
Proof. unfold spec_accepts. lia. Qed.

(** On a stored interval that is not empty the two predicates agree. *)
Lemma accepts_spec_agree si start end_ :
  si_start si < si_end si -> accepts si start end_ = spec_accepts si start end_.
Proof.
  intros Hlt. apply eq_true_iff_eq.
  rewrite accepts_iff, spec_accepts_iff. lia.
Qed.

Lemma updateSampleInterval_fresh c h start end_ :
  intervals c !! h = None ->
  updateSampleInterval c h start end_ =
    (with_intervals c (<[h := SampleInterval start end_]> (intervals c)), true).
Proof. intros Hn. unfold updateSampleInterval. by rewrite Hn. Qed.

Lemma updateSampleInterval_stored c h iv start end_ :
  intervals c !! h = Some iv ->
  updateSampleInterval c h start end_ =
    if accepts iv start end_
    then (with_intervals c (<[h := SampleInterval start end_]> (intervals c)), true)
    else (c, false).
Proof. intros Hs. unfold updateSampleInterval. by rewrite Hs. Qed.

(** C1, as stated, fails: with the interval (5, 5) stored for a hash (the
    first update of a hash stores any candidate) the candidate (5, 5)
    satisfies [start >= e0] and is rejected. *)
Lemma updateSampleInterval_spec_counterexample :
  let c := fst (updateSampleInterval emptyCache 7%N 5 5) in
  intervals c !! 7%N = Some (SampleInterval 5 5)
  /\ ~ (snd (updateSampleInterval c 7%N 5 5) = true
        <-> (5 = 5 /\ 5 > 5) \/ 5 >= 5).
Proof.
  split; [reflexivity |].
  intros [_ Hc]. specialize (Hc ltac:(lia)). discriminate Hc.
Qed.

(** C1 (amended): for a hash with stored interval (s0, e0),
    [updateSampleInterval] returns true exactly when
    [(start = s0 /\ end > e0) \/ (start > s0 /\ start >= e0)], and then the
    candidate is the stored interval; for a hash with no stored interval
    every candidate is accepted and stored. *)
Theorem updateSampleInterval_accepts c h start end_ :
  let r := updateSampleInterval c h start end_ in
  match intervals c !! h with
  | Some (SampleInterval s0 e0) =>
      (snd r = true <->
         (start = s0 /\ end_ > e0) \/ (start > s0 /\ start >= e0))
      /\ (snd r = true -> intervals (fst r) !! h = Some (SampleInterval start end_))
  | None =>
      snd r = true /\ intervals (fst r) !! h = Some (SampleInterval start end_)
  end.
Proof.
  intros r. subst r. destruct (intervals c !! h) as [[s0 e0]|] eqn:Hl.
  - rewrite (updateSampleInterval_stored _ _ _ _ _ Hl).
    pose proof (accepts_iff (SampleInterval s0 e0) start end_) as Hacc.
    destruct (accepts _ _ _); simpl in *.
    + split; [tauto |]. intros _. apply lookup_insert_eq.
    + split; [| discriminate]. split; [discriminate |].
      intros H. apply Hacc in H. discriminate.
  - rewrite (updateSampleInterval_fresh _ _ _ _ Hl). simpl.
    split; [done |]. apply lookup_insert_eq.
Qed.

Lemma updateSampleInterval_accepts_witness :
  let c := fst (updateSampleInterval emptyCache 7%N 0 10) in
  snd (updateSampleInterval c 7%N 0 20) = true
  /\ intervals (fst (updateSampleInterval c 7%N 0 20)) !! 7%N
     = Some (SampleInterval 0 20).
Proof.
  intros c.
  assert (H : (snd (updateSampleInterval c 7%N 0 20) = true <->
                 (0 = 0 /\ 20 > 10) \/ (0 > 0 /\ 0 >= 10))
              /\ (snd (updateSampleInterval c 7%N 0 20) = true ->
                  intervals (fst (updateSampleInterval c 7%N 0 20)) !! 7%N
                  = Some (SampleInterval 0 20)))
    by exact (updateSampleInterval_accepts c 7%N 0 20).
  destruct H as [Hiff Hstored].
  assert (Hok : snd (updateSampleInterval c 7%N 0 20) = true)
    by (apply Hiff; left; lia).
  split; [exact Hok | exact (Hstored Hok)].
Defined.

(** C8: a rejected update leaves the whole cache, hence the interval of
    every hash, as it was. *)
Theorem updateSampleInterval_reject_unchanged c h start end_ :
  snd (updateSampleInterval c h start end_) = false ->
  fst (updateSampleInterval c h start end_) = c
  /\ forall h', intervals (fst (updateSampleInterval c h start end_)) !! h'
                = intervals c !! h'.
Proof.
  unfold updateSampleInterval.
  destruct (intervals c !! h) as [iv|]; [| discriminate].
  destruct (accepts iv start end_); [discriminate |]. simpl. done.
Qed.

Lemma updateSampleInterval_reject_unchanged_witness :
  let c := fst (updateSampleInterval emptyCache 7%N 0 10) in
  fst (updateSampleInterval c 7%N 5 15) = c
  /\ forall h', intervals (fst (updateSampleInterval c 7%N 5 15)) !! h'
                = intervals c !! h'.
Proof.
  apply (updateSampleInterval_reject_unchanged
           (fst (updateSampleInterval emptyCache 7%N 0 10)) 7%N 5 15).
  reflexivity.
Defined.

(** The scenario of the interval tracker: extend, overlap, touch. *)
Example updateSampleInterval_scenario :
  let '(c1, r1) := updateSampleInterval emptyCache 7%N 0 10 in
  let '(c2, r2) := updateSampleInterval c1 7%N 0 20 in
  let '(c3, r3) := updateSampleInterval c2 7%N 5 15 in
  let '(c4, r4) := updateSampleInterval c3 7%N 20 30 in
  (r1, r2, r3, r4) = (true, true, false, true)
  /\ intervals c4 !! 7%N = Some (SampleInterval 20 30).
Proof. vm_compute. done. Qed.

(** ** Garbage collection *)

(** However many ticks [run] receives, the cache is the one it started
    with and no error is logged. *)
Lemma run_noop evs c : run evs c = (c, []).
Proof.
  induction evs as [|ev evs IH]; [done |].
  destruct ev; simpl; [done |]. by rewrite IH.
Qed.

(** C10: [garbageCollect] returns a nil error and changes neither the
    entries nor the intervals, whatever the cache holds; the loop of [run],
    which calls it on every tick, therefore never prunes an entry either. *)
Theorem garbageCollect_noop c :
  snd (garbageCollect c) = None
  /\ entries (fst (garbageCollect c)) = entries c
  /\ intervals (fst (garbageCollect c)) = intervals c
  /\ forall evs, fst (run evs c) = c.
Proof.
  unfold garbageCollect. cbn [fst snd]. repeat split.
  intros evs. by rewrite run_noop.
Qed.

(** ** Metadata lookup *)

Lemma internalMetrics_known (metric : string) :
  metric ∈ wellKnownInternal ->
  exists help,
    internalMetrics !! metric
    = Some {| Metric := metric; Type_ := MetricTypeGauge; Help := help |}.
Proof.
  unfold wellKnownInternal. rewrite !elem_of_cons, elem_of_nil.
  intros [-> | [-> | [-> | [-> | [-> | []]]]]];
    eexists; vm_compute; reflexivity.
Qed.

Lemma internalMetrics_unknown (metric : string) :
  metric ∉ wellKnownInternal -> internalMetrics !! metric = None.
Proof.
  intros Hn. unfold internalMetrics. apply not_elem_of_list_to_map_1.
  exact Hn.
Qed.

(** C3, as stated, fails: for the well-known name [up] the lookup answers
    with the target's metadata when the target has some, not with the
    synthetic entry. *)
Lemma getMetadata_synthetic_first_counterexample :
  "up" ∈ wellKnownInternal
  /\ internalMetrics !! "up"
     = Some {| Metric := "up"; Type_ := MetricTypeGauge;
               Help := "Up indicates whether the last target scrape was successful." |}
  /\ getMetadata targetWithUp "up"
     = ({| Metric := "up"; Type_ := MetricTypeCounter; Help := "custom" |}, true)
  /\ getMetadata targetWithUp "up" <> spec_getMetadata targetWithUp "up".
Proof.
  split; [apply list_elem_of_here |].
  split; [vm_compute; reflexivity |].
  split; [vm_compute; reflexivity |].
  vm_compute. discriminate.
Qed.

(** C3 (amended): the lookup answers with the target's metadata whenever
    the target has metadata for the name; when it has none, the
    well-known internal scrape metric names get their synthetic gauge
    metadata and every other name is not found. *)
Theorem getMetadata_target_first (target : Target) (metric : string) :
  match target metric with
  | Some md => getMetadata target metric = (md, true)
  | None =>
      if bool_decide (metric ∈ wellKnownInternal)
      then exists help,
          getMetadata target metric
          = ({| Metric := metric; Type_ := MetricTypeGauge; Help := help |}, true)
          /\ internalMetrics !! metric
             = Some {| Metric := metric; Type_ := MetricTypeGauge; Help := help |}
      else getMetadata target metric = (zeroMetadata, false)
  end.
Proof.
  unfold getMetadata, targetMetadata.
  destruct (target metric) as [md|]; [done |].
  case_bool_decide as Hk.
  - destruct (internalMetrics_known metric Hk) as [help Hl].
    exists help. by rewrite Hl.
  - by rewrite (internalMetrics_unknown metric Hk).
Qed.

(** ** Binary64 facts used by the counter reset adjuster *)

Lemma SFcompare_antisym x y c :
  SFcompare x y = Some c -> SFcompare y x = Some (CompOpp c).
Proof.
  destruct x as [sx|sx| |sx mx ex], y as [sy|sy| |sy my ey]; simpl;
    try discriminate;
    try (destruct sx; try destruct sy; intros [= <-]; reflexivity);
    try (destruct sy; intros [= <-]; reflexivity).
  intros [= <-]. f_equal.
  change (Pos.compare_cont Eq mx my) with (Pos.compare mx my).
  change (Pos.compare_cont Eq my mx) with (Pos.compare my mx).
  rewrite (Z.compare_antisym ex ey), (Pos.compare_antisym mx my).
  destruct sx, sy; simpl; try reflexivity;
    destruct (ex ?= ey)%Z; simpl; try reflexivity;
    destruct (mx ?= my)%positive; reflexivity.
Qed.

(** [b <= v] excludes [v < b] (both are false on NaN). *)
Lemma float_leb_not_ltb (b v : float) :
  (b <=? v)%float = true -> (v <? b)%float = false.
Proof.
  rewrite leb_spec, ltb_spec. unfold SFleb, SFltb.
  destruct (SFcompare (Prim2SF b) (Prim2SF v)) as [c|] eqn:Hc; [| discriminate].
  rewrite (SFcompare_antisym _ _ _ Hc).
  destruct c; simpl; done.
Qed.

(** Subtracting positive zero is exact on every binary64 value. *)
Lemma float_sub_zero (v : float) : (v - 0)%float = v.
Proof.
  apply Prim2SF_inj. rewrite sub_spec.
  change (Prim2SF 0%float) with (S754_zero false).
  unfold SF64sub, SFsub.
  destruct (Prim2SF v) as [[]|[]| |]; reflexivity.
Qed.

(** ** Counter reset adjuster *)

Lemma with_entries_id c : with_entries c (entries c) = c.
Proof. by destruct c. Qed.

Lemma with_entries_insert_id c ref e :
  entries c !! ref = Some e -> with_entries c (<[ref := e]> (entries c)) = c.
Proof. intros H. rewrite insert_id by done. apply with_entries_id. Qed.

Lemma setReset_id e :
  setReset (hasReset e) (resetValue e) (resetTimestamp e) e = e.
Proof. by destruct e. Qed.

(** A series reference the cache has no entry for is skipped. *)
Lemma getResetAdjusted_absent c ref t v :
  entries c !! ref = None ->
  getResetAdjusted c ref t v = (c, (0, 0%float, false)).
Proof. intros H. unfold getResetAdjusted. by rewrite H. Qed.

(** The call touches the entry of [ref] only. *)
Lemma getResetAdjusted_frame c ref t v ref' :
  ref <> ref' ->
  entries (fst (getResetAdjusted c ref t v)) !! ref' = entries c !! ref'.
Proof.
  intros Hne. unfold getResetAdjusted.
  destruct (entries c !! ref) as [e|]; [| done].
  destruct (hasReset e); simpl; by rewrite lookup_insert_ne.
Qed.

(** C2: for a cached series reference, the first sample is recorded as the
    baseline and skipped; a later sample with [v >= baseline] keeps the
    baseline and returns its timestamp with [v - baseline]; a later sample
    with [v < baseline] sets the baseline to value 0 at [t - 1] and
    returns [(t - 1, v, true)].  [t - 1] is the [int64] subtraction, which
    is the mathematical one for every [t] but the least [int64]. *)
Theorem getResetAdjusted_cases c ref e t v :
  entries c !! ref = Some e ->
  (hasReset e = false ->
   getResetAdjusted c ref t v =
     (with_entries c (<[ref := setReset true v t e]> (entries c)),
      (0, 0%float, false)))
  /\ (hasReset e = true -> (resetValue e <=? v)%float = true ->
      getResetAdjusted c ref t v =
        (c, (resetTimestamp e, (v - resetValue e)%float, true)))
  /\ (hasReset e = true -> (v <? resetValue e)%float = true ->
      getResetAdjusted c ref t v =
        (with_entries c (<[ref := setReset true 0%float (Int64.sub t 1) e]> (entries c)),
         (Int64.sub t 1, v, true))
      /\ (Int64.in_range t -> Int64.min_int < t -> Int64.sub t 1 = t - 1)).
Proof.
  intros He. unfold getResetAdjusted. rewrite He.
  split; [| split].
  - intros Hr. rewrite Hr. reflexivity.
  - intros Hr Hge. rewrite Hr. simpl.
    rewrite (float_leb_not_ltb _ _ Hge).
    rewrite <- Hr at 1 2. rewrite setReset_id.
    by rewrite (with_entries_insert_id _ _ _ He).
  - intros Hr Hlt. split; [| apply sub_one_exact].
    rewrite Hr. simpl. rewrite Hlt. simpl. by rewrite float_sub_zero.
Qed.

Lemma getResetAdjusted_cases_witness :
  getResetAdjusted cacheSeen 1%N 110 8%float = (cacheSeen, (100, 3%float, true)).
Proof.
  destruct (getResetAdjusted_cases cacheSeen 1%N
              (setReset true 5%float 100 (newEntry scenarioLabels))
              110 8%float ltac:(reflexivity)) as (_ & Hkeep & _).
  apply Hkeep; reflexivity.
Defined.

(** The scenario of the counter adjuster: first sample, growth, reset. *)
Example getResetAdjusted_scenario :
  let c0 := with_entries emptyCache {[ 1%N := newEntry scenarioLabels ]} in
  let '(c1, r1) := getResetAdjusted c0 1%N 100 5%float in
  let '(c2, r2) := getResetAdjusted c1 1%N 110 8%float in
  let '(c3, r3) := getResetAdjusted c2 1%N 120 2%float in
  snd r1 = false
  /\ r2 = (100, 3%float, true)
  /\ r3 = (119, 2%float, true).
Proof. vm_compute. done. Qed.

(** ** Label sets *)

Lemma Has_elem_of ls n : Has ls n = true <-> n ∈ names ls.
Proof.
  unfold names. induction ls as [|l ls IH]; simpl.
  - rewrite elem_of_nil. split; [discriminate | tauto].
  - rewrite elem_of_cons. destruct (String.eqb_spec (Name l) n) as [->|Hne].
    + tauto.
    + rewrite IH. split; [tauto |]. intros [->|]; [congruence | done].
Qed.

Lemma Has_false_not_elem_of ls n : Has ls n = false <-> n ∉ names ls.
Proof. rewrite <- Has_elem_of. destruct (Has ls n); split; congruence. Qed.

Lemma Get_absent ls n : Has ls n = false -> Get ls n = EmptyString.
Proof.
  induction ls as [|l ls IH]; simpl; [done |].
  destruct (String.eqb (Name l) n); [discriminate | exact IH].
Qed.

(** In a label set with distinct names [Get] answers with the value of
    the one label carrying the name. *)
Lemma Get_elem_of ls n v :
  NoDup (names ls) -> mkLabel n v ∈ ls -> Get ls n = v.
Proof.
  unfold names. induction ls as [|l ls IH]; simpl.
  - intros _ H. by apply elem_of_nil in H.
  - rewrite NoDup_cons, elem_of_cons. intros [Hnotin Hnd] [<-|Hin]; simpl.
    + by rewrite String.eqb_refl.
    + destruct (String.eqb_spec (Name l) n) as [Heq|Hne]; [| by apply IH].
      exfalso. apply Hnotin. rewrite Heq.
      apply (list_elem_of_fmap_2 Name) in Hin. exact Hin.
Qed.

Lemma Has_elem_of_label ls n :
  Has ls n = true -> exists v, mkLabel n v ∈ ls /\ Get ls n = v.
Proof.
  induction ls as [|l ls IH]; simpl; [discriminate |].
  destruct (String.eqb_spec (Name l) n) as [<-|Hne].
  - intros _. exists (Value l). split; [| done]. destruct l. apply list_elem_of_here.
  - intros H. destruct (IH H) as (v & Hin & Hg). exists v.
    split; [by apply list_elem_of_further | done].
Qed.

(** [Get] and [Has] do not depend on the order of a label set with
    distinct names. *)
Lemma Has_Permutation ls ls' n : ls ≡ₚ ls' -> Has ls n = Has ls' n.
Proof.
  intros Hp. apply eq_true_iff_eq. rewrite !Has_elem_of. unfold names.
  by rewrite Hp.
Qed.

Lemma Get_Permutation ls ls' n :
  NoDup (names ls) -> ls ≡ₚ ls' -> Get ls n = Get ls' n.
Proof.
  intros Hnd Hp. destruct (Has ls n) eqn:Hh.
  - destruct (Has_elem_of_label _ _ Hh) as (v & Hin & ->).
    symmetry. apply Get_elem_of.
    + unfold names in *. by rewrite <- Hp.
    + by rewrite <- Hp.
  - rewrite (Get_absent _ _ Hh). symmetry. apply Get_absent.
    by rewrite <- (Has_Permutation _ _ _ Hp).
Qed.

Lemma Get_sortLabels ls n : NoDup (names ls) -> Get (sortLabels ls) n = Get ls n.
Proof.
  intros Hnd. symmetry. apply Get_Permutation; [done |].
  unfold sortLabels. symmetry. apply merge_sort_Permutation.
Qed.

Lemma Has_app l1 l2 n : Has (l1 ++ l2) n = Has l1 n || Has l2 n.
Proof.
  induction l1 as [|l l1 IH]; simpl; [done |].
  destruct (String.eqb (Name l) n); [done | exact IH].
Qed.

Lemma Get_app l1 l2 n :
  Get (l1 ++ l2) n = if Has l1 n then Get l1 n else Get l2 n.
Proof.
  induction l1 as [|l l1 IH]; simpl; [done |].
  destruct (String.eqb (Name l) n); [done | exact IH].
Qed.

(** Filtering by a predicate on names. *)
Lemma Has_filter_name (Q : string -> Prop) `{!forall n, Decision (Q n)} ls n :
  Has (filter (fun l => Q (Name l)) ls) n = Has ls n && bool_decide (Q n).
Proof.
  induction ls as [|l ls IH]; simpl; [done |].
  rewrite filter_cons. destruct (decide (Q (Name l))) as [Hq|Hq]; simpl.
  - destruct (String.eqb_spec (Name l) n) as [<-|Hne]; [| exact IH].
    by rewrite bool_decide_eq_true_2.
  - destruct (String.eqb_spec (Name l) n) as [<-|Hne]; [| exact IH].
    rewrite bool_decide_eq_false_2 by done. rewrite IH.
    rewrite bool_decide_eq_false_2 by done. by rewrite andb_false_r.
Qed.

Lemma Get_filter_name (Q : string -> Prop) `{!forall n, Decision (Q n)} ls n :
  Get (filter (fun l => Q (Name l)) ls) n
  = if bool_decide (Q n) then Get ls n else EmptyString.
Proof.
  induction ls as [|l ls IH]; simpl; [by case_bool_decide |].
  rewrite filter_cons. destruct (decide (Q (Name l))) as [Hq|Hq]; simpl.
  - destruct (String.eqb_spec (Name l) n) as [<-|Hne]; [| exact IH].
    by rewrite bool_decide_eq_true_2.
  - destruct (String.eqb_spec (Name l) n) as [<-|Hne]; [| exact IH].
    rewrite IH. by rewrite bool_decide_eq_false_2.
Qed.

Lemma names_filter_subseteq (P : Label -> Prop) `{!forall l, Decision (P l)} ls :
  NoDup (names ls) -> NoDup (names (filter P ls)).
Proof.
  unfold names. induction ls as [|l ls IH]; simpl; [done |].
  rewrite NoDup_cons. intros [Hn Hnd]. rewrite filter_cons.
  destruct (decide (P l)); [| by apply IH]. simpl. rewrite NoDup_cons.
  split; [| by apply IH]. intros Hin. apply Hn.
  apply list_elem_of_fmap in Hin as (l' & -> & Hin).
  apply list_elem_of_filter in Hin as [_ Hin].
  by apply list_elem_of_fmap_2.
Qed.

Lemma elemb_elem_of n ns : elemb n ns = true <-> n ∈ ns.
Proof.
  unfold elemb. induction ns as [|m ns IH]; simpl.
  - rewrite elem_of_nil. split; [discriminate | tauto].
  - rewrite elem_of_cons, orb_true_iff, IH, String.eqb_eq. tauto.
Qed.

Lemma elemb_app n ns ms : elemb n (ns ++ ms) = elemb n ns || elemb n ms.
Proof. unfold elemb. apply existsb_app. Qed.

(** ** The label builder *)

Lemma BuilderLabels_general b :
  (b_del b <> [] \/ b_add b <> []) ->
  BuilderLabels b
  = sortLabels (filter (fun l => keeps b (Name l)) (b_base b) ++ b_add b).
Proof.
  destruct b as [base del add]. unfold BuilderLabels, keeps. simpl.
  destruct del, add; intros [H|H]; done.
Qed.

Lemma NoDup_builder_list b :
  NoDup (names (b_base b)) -> NoDup (names (b_add b)) ->
  NoDup (names (filter (fun l => keeps b (Name l)) (b_base b) ++ b_add b)).
Proof.
  intros Hb Ha. unfold names. rewrite fmap_app. apply NoDup_app.
  split; [by apply names_filter_subseteq |]. split; [| done].
  intros n Hin Hin'.
  apply list_elem_of_fmap in Hin as (l & -> & Hl).
  apply list_elem_of_filter in Hl as [[_ Hk] _].
  apply Has_elem_of in Hin'. congruence.
Qed.

(** What [Get] reads from the label set a builder produces: an added
    label wins, a deleted name is absent, anything else is the base's. *)
Lemma Get_BuilderLabels b n :
  NoDup (names (b_base b)) -> NoDup (names (b_add b)) ->
  Get (BuilderLabels b) n
  = if Has (b_add b) n then Get (b_add b) n
    else if elemb n (b_del b) then EmptyString
    else Get (b_base b) n.
Proof.
  intros Hb Ha.
  destruct (decide (b_del b = [] /\ b_add b = [])) as [[Hd Hadd]|Hne].
  - unfold BuilderLabels. rewrite Hd, Hadd. done.
  - rewrite BuilderLabels_general.
    2:{ destruct (b_del b), (b_add b); naive_solver. }
    rewrite Get_sortLabels by by apply NoDup_builder_list.
    rewrite Get_app, (Has_filter_name (keeps b)), (Get_filter_name (keeps b)).
    case_bool_decide as Hk; unfold keeps in Hk.
    + destruct Hk as [Hdel Hadd]. rewrite Hdel, Hadd, andb_true_r.
      destruct (Has (b_base b) n) eqn:Hbase; [done |].
      rewrite (Get_absent (b_add b)) by done.
      by rewrite (Get_absent (b_base b)).
    + rewrite andb_false_r.
      destruct (Has (b_add b) n) eqn:Hadd; [done |].
      destruct (elemb n (b_del b)) eqn:Hdel; [by apply Get_absent |].
      naive_solver.
Qed.

Lemma Has_setAdd add n v m :
  Has (setAdd add n v) m = Has add m || String.eqb n m.
Proof.
  induction add as [|a add IH]; simpl.
  - by destruct (String.eqb n m).
  - destruct (String.eqb_spec (Name a) n) as [Han|Han]; simpl.
    + rewrite Han. destruct (String.eqb n m); [done |]. by rewrite orb_false_r.
    + rewrite IH. by destruct (String.eqb (Name a) m).
Qed.

Lemma Get_setAdd add n v m :
  Get (setAdd add n v) m = if String.eqb n m then v else Get add m.
Proof.
  induction add as [|a add IH]; simpl.
  - done.
  - destruct (String.eqb_spec (Name a) n) as [Han|Han]; simpl.
    + rewrite Han. by destruct (String.eqb n m).
    + rewrite IH. destruct (String.eqb_spec (Name a) m) as [Ham|Ham]; [| done].
      destruct (String.eqb_spec n m); [congruence | done].
Qed.

Lemma names_setAdd add n v :
  names (setAdd add n v) = if Has add n then names add else names add ++ [n].
Proof.
  unfold names. induction add as [|a add IH]; [done |].
  cbn [setAdd Has]. destruct (String.eqb (Name a) n); [done |].
  rewrite !fmap_cons, IH. by destruct (Has add n).
Qed.

Lemma NoDup_setAdd add n v :
  NoDup (names add) -> NoDup (names (setAdd add n v)).
Proof.
  intros Hnd. rewrite names_setAdd. destruct (Has add n) eqn:Hh; [done |].
  apply NoDup_app. split; [done |]. split; [| apply NoDup_singleton].
  intros m Hm Hm'. apply list_elem_of_singleton in Hm' as ->.
  apply Has_elem_of in Hm. congruence.
Qed.

Lemma Has_Del b n m :
  Has (b_add (Del b n)) m = Has (b_add b) m && negb (String.eqb m n).
Proof.
  unfold Del. cbn [b_add]. induction (b_add b) as [|a add IH]; [done |].
  rewrite filter_cons. destruct (decide (Name a ≠ n)) as [Hne|Heq]; cbn [Has].
  - rewrite IH. destruct (String.eqb_spec (Name a) m) as [<-|]; [| done].
    by destruct (String.eqb_spec (Name a) n).
  - rewrite IH. apply dec_stable in Heq.
    destruct (String.eqb_spec (Name a) m) as [<-|]; [| done].
    destruct (String.eqb_spec (Name a) n); [| done].
    by rewrite andb_false_r.
Qed.

Lemma Get_Del b n m :
  Get (b_add (Del b n)) m
  = if String.eqb m n then EmptyString else Get (b_add b) m.
Proof.
  unfold Del. cbn [b_add]. induction (b_add b) as [|a add IH].
  - by destruct (String.eqb m n).
  - rewrite filter_cons. destruct (decide (Name a ≠ n)) as [Hne|Heq]; cbn [Get].
    + rewrite IH. destruct (String.eqb_spec (Name a) m) as [<-|]; [| done].
      by destruct (String.eqb_spec (Name a) n).
    + rewrite IH. apply dec_stable in Heq.
      destruct (String.eqb_spec (Name a) m) as [<-|]; [| done].
      by destruct (String.eqb_spec (Name a) n).
Qed.

Lemma NoDup_Del b n : NoDup (names (b_add b)) -> NoDup (names (b_add (Del b n))).
Proof. simpl. apply names_filter_subseteq. Qed.

Lemma elemb_Del b n m : elemb m (b_del (Del b n)) = elemb m (b_del b) || String.eqb m n.
Proof. simpl. rewrite elemb_app. simpl. by rewrite orb_false_r. Qed.

Lemma mergeExternal_cons ls l ext b :
  mergeExternal ls (l :: ext) b = mergeExternal ls ext (mergeStep ls b l).
Proof. reflexivity. Qed.

Lemma NewBuilder_inv ls : NoDup (names ls) -> merge_inv ls (NewBuilder ls).
Proof.
  intros Hnd. unfold merge_inv, NewBuilder. simpl.
  split; [done |]. split; [apply NoDup_nil_2 |]. split; [discriminate |].
  intros n Hn. right. apply elemb_elem_of in Hn. unfold names in Hn.
  apply list_elem_of_fmap in Hn as (l & -> & Hl).
  apply list_elem_of_filter in Hl as [Hv Hl].
  destruct l as [k v]. simpl in *. subst v. by apply Get_elem_of.
Qed.

Lemma Del_inv ls b n : Has ls n = false -> merge_inv ls b -> merge_inv ls (Del b n).
Proof.
  intros Hn (Hb & Hnd & Hadd & Hdel). unfold merge_inv.
  split; [done |]. split; [by apply NoDup_Del |]. split.
  - intros m. rewrite Has_Del, andb_true_iff. intros [Hm _]. by apply Hadd.
  - intros m. rewrite elemb_Del, orb_true_iff, String.eqb_eq.
    intros [Hm | ->]; [by apply Hdel | by left].
Qed.

Lemma mergeStep_inv ls b l : merge_inv ls b -> merge_inv ls (mergeStep ls b l).
Proof.
  intros Hinv. unfold mergeStep. destruct (Has ls (Name l)) eqn:Hh; [done |].
  unfold Set_. destruct (String.eqb (Value l) EmptyString); [by apply Del_inv |].
  destruct Hinv as (Hb & Hnd & Hadd & Hdel). unfold merge_inv. simpl.
  split; [done |]. split; [by apply NoDup_setAdd |]. split; [| done].
  intros m. rewrite Has_setAdd, orb_true_iff, String.eqb_eq.
  intros [Hm | <-]; [by apply Hadd | done].
Qed.

Lemma mergeExternal_inv ls ext b :
  merge_inv ls b -> merge_inv ls (mergeExternal ls ext b).
Proof.
  revert b. induction ext as [|l ext IH]; intros b Hinv; [done |].
  rewrite mergeExternal_cons. apply IH. by apply mergeStep_inv.
Qed.

Lemma mergeStep_other ls b l n :
  Name l <> n ->
  Has (b_add (mergeStep ls b l)) n = Has (b_add b) n
  /\ Get (b_add (mergeStep ls b l)) n = Get (b_add b) n
  /\ elemb n (b_del (mergeStep ls b l)) = elemb n (b_del b).
Proof.
  intros Hne. unfold mergeStep. destruct (Has ls (Name l)); [done |].
  unfold Set_. destruct (String.eqb (Value l) EmptyString).
  - rewrite Has_Del, Get_Del, elemb_Del.
    destruct (String.eqb_spec n (Name l)); [congruence |].
    by rewrite andb_true_r, orb_false_r.
  - cbn [b_add b_del]. rewrite Has_setAdd, Get_setAdd.
    destruct (String.eqb_spec (Name l) n); [congruence |].
    by rewrite orb_false_r.
Qed.

Lemma mergeExternal_other ls ext b n :
  n ∉ names ext ->
  Has (b_add (mergeExternal ls ext b)) n = Has (b_add b) n
  /\ Get (b_add (mergeExternal ls ext b)) n = Get (b_add b) n
  /\ elemb n (b_del (mergeExternal ls ext b)) = elemb n (b_del b).
Proof.
  revert b. unfold names. induction ext as [|l ext IH]; intros b Hn; [done |].
  rewrite fmap_cons, not_elem_of_cons in Hn. destruct Hn as [Hne Hn].
  rewrite mergeExternal_cons.
  destruct (IH (mergeStep ls b l) Hn) as (-> & -> & ->).
  by apply mergeStep_other.
Qed.

Lemma mergeStep_added ls b l :
  Has ls (Name l) = false ->
  Get (b_add (mergeStep ls b l)) (Name l) = Value l
  /\ Has (b_add (mergeStep ls b l)) (Name l)
     = negb (String.eqb (Value l) EmptyString).
Proof.
  intros Hh. unfold mergeStep. rewrite Hh. unfold Set_.
  destruct (String.eqb_spec (Value l) EmptyString) as [Hv|Hv].
  - rewrite Get_Del, Has_Del, String.eqb_refl. by rewrite andb_false_r.
  - cbn [b_add]. by rewrite Get_setAdd, Has_setAdd, String.eqb_refl, orb_true_r.
Qed.

(** An external label whose name the original set lacks ends up in the
    builder's additions with its value (or nowhere, when the value is
    empty). *)
Lemma mergeExternal_added ls ext b l :
  NoDup (names ext) -> l ∈ ext -> Has ls (Name l) = false ->
  Get (b_add (mergeExternal ls ext b)) (Name l) = Value l
  /\ Has (b_add (mergeExternal ls ext b)) (Name l)
     = negb (String.eqb (Value l) EmptyString).
Proof.
  revert b. unfold names. induction ext as [|l0 ext IH]; intros b Hnd Hin Hh.
  - by apply elem_of_nil in Hin.
  - rewrite fmap_cons, NoDup_cons in Hnd. destruct Hnd as [Hfresh Hnd].
    rewrite mergeExternal_cons. apply elem_of_cons in Hin as [<-|Hin].
    + destruct (mergeExternal_other ls ext (mergeStep ls b l) (Name l) Hfresh)
        as (-> & -> & _).
      destruct (mergeStep_added ls b l Hh) as [-> ->]. done.
    + by apply IH.
Qed.

(** After the merge, a name of the original label set reads as in the
    original set. *)
Lemma Get_mergedLabels_original c ls n :
  NoDup (names ls) -> Has ls n = true -> Get (mergedLabels c ls) n = Get ls n.
Proof.
  intros Hnd Hh. unfold mergedLabels.
  pose proof (mergeExternal_inv ls (getExternalLabels c) _ (NewBuilder_inv ls Hnd))
    as (Hbase & Hadd_nd & Hadd & Hdel).
  rewrite Get_BuilderLabels; [| by rewrite Hbase | done].
  destruct (Has (b_add _) n) eqn:Ha.
  - apply Hadd in Ha. congruence.
  - destruct (elemb n (b_del _)) eqn:Hd; [| by rewrite Hbase].
    apply Hdel in Hd as [Hd|Hd]; congruence.
Qed.

(** After the merge, an external label whose name the original set lacks
    reads with the external value. *)
Lemma Get_mergedLabels_added c ls l :
  NoDup (names ls) -> NoDup (names (getExternalLabels c)) ->
  l ∈ getExternalLabels c -> Has ls (Name l) = false ->
  Get (mergedLabels c ls) (Name l) = Value l.
Proof.
  intros Hnd Hnde Hin Hh. unfold mergedLabels.
  pose proof (mergeExternal_inv ls (getExternalLabels c) _ (NewBuilder_inv ls Hnd))
    as (Hbase & Hadd_nd & Hadd & Hdel).
  destruct (mergeExternal_added ls _ (NewBuilder ls) l Hnde Hin Hh) as [Hg Hhas].
  rewrite Get_BuilderLabels; [| by rewrite Hbase | done].
  rewrite Hhas, Hg, Hbase.
  destruct (String.eqb_spec (Value l) EmptyString) as [Hv|Hv]; simpl; [| done].
  rewrite (Get_absent ls) by done. by destruct (elemb _ _).
Qed.

(** ** Label/resource extractor *)

Lemma extractResource_ok c ls :
  Has ls keyJob = true -> Has ls keyInstance = true ->
  extractResource c ls
  = (Some (resourceOf (mergedLabels c ls)),
     Some (BuilderLabels
             (withoutResourceKeys
                (mergeExternal ls (getExternalLabels c) (NewBuilder ls)))),
     true).
Proof. intros Hj Hi. unfold extractResource. rewrite Hj, Hi. reflexivity. Qed.

Lemma resourceOf_lookup ls' key :
  key ∈ resourceKeys -> res_Labels (resourceOf ls') !! key = Some (Get ls' key).
Proof.
  unfold resourceKeys. rewrite !elem_of_cons, elem_of_nil.
  unfold resourceOf. cbn [res_Labels list_to_map foldr fst snd].
  intros [-> | [-> | [-> | [-> | [-> | []]]]]];
    repeat (rewrite lookup_insert_ne by done); apply lookup_insert_eq.
Qed.

Lemma Get_withoutResourceKeys b n :
  NoDup (names (b_base b)) -> NoDup (names (b_add b)) ->
  n ∉ resourceKeys ->
  Get (BuilderLabels (withoutResourceKeys b)) n = Get (BuilderLabels b) n.
Proof.
  intros Hb Ha Hn. unfold resourceKeys in Hn.
  rewrite !not_elem_of_cons in Hn. destruct Hn as (H1 & H2 & H3 & H4 & H5 & _).
  unfold withoutResourceKeys.
  rewrite !Get_BuilderLabels; try done; [| by repeat apply NoDup_Del].
  rewrite !Has_Del, !Get_Del, !elemb_Del.
  apply String.eqb_neq in H1, H2, H3, H4, H5.
  rewrite H1, H2, H3, H4, H5. cbn [negb b_base Del].
  by rewrite !andb_true_r, !orb_false_r.
Qed.

(** C7: a label set without [job] or without [instance] yields no
    resource, no metric labels and [ok = false]. *)
Theorem extractResource_missing_identity c ls :
  Has ls keyJob = false \/ Has ls keyInstance = false ->
  extractResource c ls = (None, None, false).
Proof.
  unfold extractResource. intros [H|H]; rewrite H; simpl; [done |].
  by destruct (Has ls keyJob).
Qed.

Lemma extractResource_missing_identity_witness :
  extractResource cacheExternal
    [mkLabel "__name__" "job:up:sum"; mkLabel "job" "a"]
  = (None, None, false).
Proof.
  apply extractResource_missing_identity. right. reflexivity.
Defined.

(** C6: for a label set with [job] and [instance], every external label
    reads, in the merged set and in what [extractResource] returns, with
    the original value when the original set has the name and with the
    external value only when it has not. *)
Theorem extractResource_external_labels c ls l :
  NoDup (names ls) -> NoDup (names (getExternalLabels c)) ->
  Has ls keyJob = true -> Has ls keyInstance = true ->
  l ∈ getExternalLabels c ->
  exists mres ml,
    extractResource c ls = (Some mres, Some ml, true)
    /\ Get (mergedLabels c ls) (Name l)
       = (if Has ls (Name l) then Get ls (Name l) else Value l)
    /\ (forall key, key ∈ resourceKeys ->
          res_Labels mres !! key = Some (Get (mergedLabels c ls) key))
    /\ (forall n, n ∉ resourceKeys -> Get ml n = Get (mergedLabels c ls) n).
Proof.
  intros Hnd Hnde Hj Hi Hin. eexists _, _.
  split; [by apply extractResource_ok |]. split; [| split].
  - destruct (Has ls (Name l)) eqn:Hh.
    + by apply Get_mergedLabels_original.
    + by apply Get_mergedLabels_added.
  - intros key Hkey. by apply resourceOf_lookup.
  - intros n Hn.
    pose proof (mergeExternal_inv ls (getExternalLabels c) _ (NewBuilder_inv ls Hnd))
      as (Hbase & Hadd_nd & _).
    apply Get_withoutResourceKeys; [by rewrite Hbase | done | done].
Qed.

Lemma extractResource_external_labels_witness :
  exists mres ml,
    extractResource cacheExternal scenarioLabels = (Some mres, Some ml, true)
    /\ Get (mergedLabels cacheExternal scenarioLabels) "job" = "a"
    /\ (forall key, key ∈ resourceKeys ->
          res_Labels mres !! key
          = Some (Get (mergedLabels cacheExternal scenarioLabels) key))
    /\ (forall n, n ∉ resourceKeys ->
          Get ml n = Get (mergedLabels cacheExternal scenarioLabels) n).
Proof.
  apply (extractResource_external_labels cacheExternal scenarioLabels
           (mkLabel "job" "other")).
  - refine (bool_decide_unpack _ _); vm_compute; reflexivity.
  - refine (bool_decide_unpack _ _); vm_compute; reflexivity.
  - reflexivity.
  - reflexivity.
  - apply list_elem_of_further, list_elem_of_here.
Defined.

(** The merge on the scenario series: [job] keeps the original value,
    [cluster] and [location] come from the external labels. *)
Example extractResource_scenario :
  match extractResource cacheExternal scenarioLabels with
  | (Some mres, Some ml, ok) =>
      ok = true
      /\ res_Labels mres !! keyJob = Some "a"
      /\ res_Labels mres !! keyInstance = Some "1:9090"
      /\ res_Labels mres !! keyCluster = Some "c1"
      /\ res_Labels mres !! keyLocation = Some "us"
      /\ res_Labels mres !! keyNamespace = Some EmptyString
      /\ ml = [mkLabel "__name__" "http_requests_total"]
  | _ => False
  end.
Proof. vm_compute. done. Qed.

(** ** [populate] and [get] *)

Lemma Map_lookup_None_acc (ls : Labels) (m : gmap string string) (n : string) :
  foldl (fun m l => <[Name l := Value l]> m) m ls !! n = None
  <-> m !! n = None /\ n ∉ names ls.
Proof.
  revert m. unfold names. induction ls as [|l ls IH]; intros m.
  - simpl. rewrite elem_of_nil. tauto.
  - cbn [foldl]. rewrite IH, fmap_cons, not_elem_of_cons, lookup_insert_None.
    intuition congruence.
Qed.

Lemma Map_lookup_None ls n : Map ls !! n = None <-> n ∉ names ls.
Proof.
  unfold Map. rewrite Map_lookup_None_acc, lookup_empty. tauto.
Qed.

Lemma names_removeFirst_subseteq m ls n :
  n ∈ names (removeFirst m ls) -> n ∈ names ls.
Proof.
  unfold names. induction ls as [|l ls IH]; [done |]. cbn [removeFirst].
  destruct (String.eqb (Name l) m).
  - rewrite fmap_cons. apply list_elem_of_further.
  - rewrite !fmap_cons, !elem_of_cons. intros [->|Hin]; [by left | right; by apply IH].
Qed.

Lemma NoDup_removeFirst m ls :
  NoDup (names ls) -> NoDup (names (removeFirst m ls)).
Proof.
  unfold names. induction ls as [|l ls IH]; [done |]. cbn [removeFirst].
  rewrite fmap_cons, NoDup_cons. intros [Hn Hnd].
  destruct (String.eqb (Name l) m); [done |].
  rewrite fmap_cons, NoDup_cons. split; [| by apply IH].
  intros Hin. apply Hn. by apply (names_removeFirst_subseteq m).
Qed.

(** In a label set with distinct names, removing the first label of a
    name removes the name. *)
Lemma removeFirst_not_elem_of m ls :
  NoDup (names ls) -> m ∉ names (removeFirst m ls).
Proof.
  unfold names. induction ls as [|l ls IH]; [intros _; apply not_elem_of_nil |].
  cbn [removeFirst]. rewrite fmap_cons, NoDup_cons. intros [Hn Hnd].
  destruct (String.eqb_spec (Name l) m) as [<-|Hne]; [done |].
  rewrite fmap_cons, not_elem_of_cons. split; [congruence | by apply IH].
Qed.

Lemma NoDup_sortLabels ls : NoDup (names ls) -> NoDup (names (sortLabels ls)).
Proof.
  unfold names, sortLabels. intros H.
  by rewrite (merge_sort_Permutation label_le ls).
Qed.

(** The metric labels [extractResource] returns have distinct names when
    the series' label set has. *)
Lemma extractResource_NoDup c ls mres ml :
  NoDup (names ls) ->
  extractResource c ls = (Some mres, Some ml, true) ->
  NoDup (names ml).
Proof.
  intros Hnd. unfold extractResource.
  destruct (Has ls keyJob); [| discriminate].
  destruct (Has ls keyInstance); [| discriminate].
  cbn [negb]. intros [= _ <-].
  pose proof (mergeExternal_inv ls (getExternalLabels c) _ (NewBuilder_inv ls Hnd))
    as (Hbase & Hadd_nd & _).
  fold (withoutResourceKeys (mergeExternal ls (getExternalLabels c) (NewBuilder ls))).
  rewrite BuilderLabels_general.
  - apply NoDup_sortLabels, NoDup_builder_list.
    + unfold withoutResourceKeys. cbn [b_base Del]. by rewrite Hbase.
    + unfold withoutResourceKeys. by repeat apply NoDup_Del.
  - left. unfold withoutResourceKeys. cbn [b_del Del].
    intros Hnil. apply app_eq_nil in Hnil as [_ Hnil]. discriminate.
Qed.

Section SeriesCacheFacts.

Variable maxLabelCount : nat.
Variable splitComplexMetricSuffix : string -> string * metricSuffix * bool.
Variable getMetricType : string -> string -> string.
Variable hashNew : N.
Variable hashAdd : N -> string -> N.
Variable hashAddByte : N -> Byte.byte -> N.

Local Abbreviation resolveMetadata' := (resolveMetadata splitComplexMetricSuffix).
Local Abbreviation convert' := (convert getMetricType).
Local Abbreviation hashSeries' := (hashSeries hashNew hashAdd hashAddByte).
Local Abbreviation populate' :=
  (populate maxLabelCount splitComplexMetricSuffix getMetricType
     hashNew hashAdd hashAddByte).
Local Abbreviation protoTemplate' := (protoTemplate getMetricType).
Local Abbreviation populatedEntry' :=
  (populatedEntry hashNew hashAdd hashAddByte).
Local Abbreviation get' :=
  (get maxLabelCount splitComplexMetricSuffix getMetricType
     hashNew hashAdd hashAddByte).

Lemma populate_unknown_resource c entry target :
  snd (extractResource c (lset entry)) = false ->
  populate' c entry target = (entry, None).
Proof.
  unfold populate. destruct (extractResource c (lset entry)) as [[[mres|] [ml|]] []];
    simpl; done.
Qed.

Lemma populate_too_many_labels c entry target mres ml :
  extractResource c (lset entry) = (Some mres, Some ml, true) ->
  (maxLabelCount < length (removeFirst "__name__" ml))%nat ->
  populate' c entry target = (entry, None).
Proof.
  intros Hx Hlen. unfold populate. rewrite Hx.
  apply Nat.ltb_lt in Hlen. by rewrite Hlen.
Qed.

Lemma populate_resolved c entry target mres ml md base sfx :
  extractResource c (lset entry) = (Some mres, Some ml, true) ->
  (length (removeFirst "__name__" ml) <= maxLabelCount)%nat ->
  resolveMetadata' target (Get (lset entry) "__name__") = Some (md, base, sfx) ->
  populate' c entry target =
    match convert' (metricsPrefix c) md base sfx (protoTemplate' c entry md mres ml) with
    | inr err => (entry, Some err)
    | inl ts => (populatedEntry' entry md sfx ts, None)
    end.
Proof.
  intros Hx Hlen Hmd. unfold populate. rewrite Hx.
  apply Nat.ltb_ge in Hlen. rewrite Hlen, Hmd. reflexivity.
Qed.

Lemma convert_counter p md base sfx ts :
  Type_ md = MetricTypeCounter ->
  convert' p md base sfx ts = inl (setKind CUMULATIVE DOUBLE ts).
Proof. intros H. unfold convert. by rewrite H. Qed.

Lemma convert_gauge p md base sfx ts :
  Type_ md = MetricTypeGauge \/ Type_ md = MetricTypeUnknown ->
  convert' p md base sfx ts = inl (setKind GAUGE DOUBLE ts).
Proof. intros [H|H]; unfold convert; by rewrite H. Qed.

Lemma convert_summary p md base sfx ts :
  Type_ md = MetricTypeSummary ->
  convert' p md base sfx ts =
    if String.eqb sfx metricSuffixSum then inl (setKind CUMULATIVE DOUBLE ts)
    else if String.eqb sfx metricSuffixCount then inl (setKind CUMULATIVE INT64 ts)
    else if String.eqb sfx metricSuffixNone then inl (setKind GAUGE DOUBLE ts)
    else inr (ErrUnexpectedSuffix sfx).
Proof. intros H. unfold convert. by rewrite H. Qed.

Lemma convert_histogram p md base sfx ts :
  Type_ md = MetricTypeHistogram ->
  convert' p md base sfx ts =
    inl (setKind CUMULATIVE DISTRIBUTION (setMetricType (getMetricType p base) ts)).
Proof. intros H. unfold convert. by rewrite H. Qed.

Lemma convert_other p md base sfx ts :
  Type_ md ∉ convertibleTypes ->
  convert' p md base sfx ts = inr (ErrUnexpectedType (Type_ md)).
Proof.
  unfold convertibleTypes. rewrite !not_elem_of_cons.
  intros (H1 & H2 & H3 & H4 & H5 & _).
  apply String.eqb_neq in H1, H2, H3, H4, H5.
  unfold convert. by rewrite H1, H2, H3, H4, H5.
Qed.

(** C4: with the metadata resolved, [populate] sets CUMULATIVE/DOUBLE for
    a counter, GAUGE/DOUBLE for a gauge or unknown, CUMULATIVE/DISTRIBUTION
    without the [le] label for a histogram, CUMULATIVE/DOUBLE,
    CUMULATIVE/INT64 and GAUGE/DOUBLE for the [_sum], [_count] and
    unsuffixed series of a summary, and returns an error for every other
    metric type. *)
Theorem populate_kinds c entry target mres ml md base sfx :
  extractResource c (lset entry) = (Some mres, Some ml, true) ->
  (length (removeFirst "__name__" ml) <= maxLabelCount)%nat ->
  resolveMetadata' target (Get (lset entry) "__name__") = Some (md, base, sfx) ->
  let r := populate' c entry target in
  let ml' := removeFirst "__name__" ml in
  (Type_ md = MetricTypeCounter -> describes r CUMULATIVE DOUBLE ml')
  /\ (Type_ md = MetricTypeGauge \/ Type_ md = MetricTypeUnknown ->
      describes r GAUGE DOUBLE ml')
  /\ (Type_ md = MetricTypeHistogram ->
      describes r CUMULATIVE DISTRIBUTION (removeFirst "le" ml')
      /\ (NoDup (names (lset entry)) -> Map (removeFirst "le" ml') !! "le" = None))
  /\ (Type_ md = MetricTypeSummary ->
      (sfx = metricSuffixSum -> describes r CUMULATIVE DOUBLE ml')
      /\ (sfx = metricSuffixCount -> describes r CUMULATIVE INT64 ml')
      /\ (sfx = metricSuffixNone -> describes r GAUGE DOUBLE ml'))
  /\ (Type_ md ∉ convertibleTypes ->
      r = (entry, Some (ErrUnexpectedType (Type_ md)))).
Proof.
  intros Hx Hlen Hmd r ml'. subst r.
  rewrite (populate_resolved _ _ _ _ _ _ _ _ Hx Hlen Hmd).
  split; [| split; [| split; [| split]]].
  - intros Hty. rewrite convert_counter by done.
    eexists _, _. unfold protoTemplate. rewrite Hty. by repeat split.
  - intros Hty. rewrite convert_gauge by done.
    eexists _, _. unfold protoTemplate. by destruct Hty as [-> | ->]; repeat split.
  - intros Hty. split.
    + rewrite convert_histogram by done.
      eexists _, _. unfold protoTemplate. rewrite Hty. by repeat split.
    + intros Hnd. apply Map_lookup_None, removeFirst_not_elem_of.
      apply NoDup_removeFirst. by eapply extractResource_NoDup.
  - intros Hty. rewrite convert_summary by done.
    split; [| split]; intros ->; eexists _, _;
      unfold protoTemplate; rewrite Hty; by repeat split.
  - intros Hty. by rewrite convert_other.
Qed.

(** An error of [populate] is what [get] returns, whenever the entry is
    due for a refresh. *)
Lemma get_populate_error c ref e target nowCheck nowSet jitter e' err :
  entries c !! ref = Some e ->
  shouldRefresh nowCheck e = true ->
  populate' c e target = (e', Some err) ->
  snd (get' c ref target nowCheck nowSet jitter) = (None, false, Some err).
Proof.
  intros He Hr Hp. unfold get, lookupOrCreate. by rewrite He, Hr, Hp.
Qed.

(** [get] on an entry that is not due for a refresh: the cache is left as
    it is and the entry is returned. *)
Lemma get_cached c ref e target nowCheck nowSet jitter :
  entries c !! ref = Some e ->
  Unix nowCheck <= nextRefresh e ->
  get' c ref target nowCheck nowSet jitter = (c, (Some e, valid e, None)).
Proof.
  intros He Hr. unfold get, lookupOrCreate, shouldRefresh. rewrite He.
  destruct (Z.gtb_spec (Unix nowCheck) (nextRefresh e)); [lia | done].
Qed.

(** A call of [get] that returns an entry leaves that entry in the cache
    under the reference. *)
Lemma get_ok_stored c ref target nowCheck nowSet jitter c1 e1 v1 :
  get' c ref target nowCheck nowSet jitter = (c1, (Some e1, v1, None)) ->
  entries c1 !! ref = Some e1 /\ v1 = valid e1.
Proof.
  unfold get, lookupOrCreate.
  destruct (entries c !! ref) as [e|] eqn:He.
  - destruct (shouldRefresh nowCheck e).
    + destruct (populate' c e target) as [e' [err|]]; [discriminate |].
      intros [= <- <- <-]. simpl. by rewrite lookup_insert_eq.
    + by intros [= <- <- <-].
  - destruct (getLabelsByRef c ref) as [ls|]; [| discriminate].
    destruct (shouldRefresh nowCheck (newEntry ls)).
    + destruct (populate' _ (newEntry ls) target) as [e' [err|]]; [discriminate |].
      intros [= <- <- <-]. simpl. by rewrite lookup_insert_eq.
    + intros [= <- <- <-]. simpl. by rewrite lookup_insert_eq.
Qed.

(** C9: after a call of [get] that returned an entry, a second call for
    the same reference before that entry's refresh deadline changes
    nothing in the cache (no re-population) and returns the same entry. *)
Theorem get_twice_same c ref target nowCheck nowSet jitter c1 e1 v1
    target2 nowCheck2 nowSet2 jitter2 :
  get' c ref target nowCheck nowSet jitter = (c1, (Some e1, v1, None)) ->
  Unix nowCheck2 <= nextRefresh e1 ->
  get' c1 ref target2 nowCheck2 nowSet2 jitter2 = (c1, (Some e1, v1, None)).
Proof.
  intros Hfirst Hdeadline.
  destruct (get_ok_stored _ _ _ _ _ _ _ _ _ Hfirst) as [He1 ->].
  by apply get_cached.
Qed.

(** [get] on a reference the cache has no entry for, resolved to a series
    over the cap: the fresh entry is stored without an export record. *)
Lemma get_over_cap_miss c ref target nowCheck nowSet jitter ls mres ml :
  entries c !! ref = None ->
  getLabelsByRef c ref = Some ls ->
  extractResource c ls = (Some mres, Some ml, true) ->
  (maxLabelCount < length (removeFirst "__name__" ml))%nat ->
  exists c' e',
    get' c ref target nowCheck nowSet jitter = (c', (Some e', false, None))
    /\ proto e' = None
    /\ entries c' !! ref = Some e'.
Proof.
  intros Hnone Hls Hx Hlen. unfold get, lookupOrCreate. rewrite Hnone, Hls.
  rewrite (populate_too_many_labels _ (newEntry ls) target mres ml);
    [| exact Hx | done].
  destruct (shouldRefresh nowCheck (newEntry ls));
    (eexists _, _; split; [reflexivity |]; split; [done |];
     apply lookup_insert_eq).
Qed.

(** [get] on an entry over the cap that holds no export record: whether
    or not the refresh is due, the entry stays without one. *)
Lemma get_over_cap_entry c ref target nowCheck nowSet jitter e mres ml :
  entries c !! ref = Some e ->
  proto e = None ->
  extractResource c (lset e) = (Some mres, Some ml, true) ->
  (maxLabelCount < length (removeFirst "__name__" ml))%nat ->
  exists c' e',
    get' c ref target nowCheck nowSet jitter = (c', (Some e', false, None))
    /\ proto e' = None
    /\ entries c' !! ref = Some e'.
Proof.
  intros He Hproto Hx Hlen. unfold get, lookupOrCreate. rewrite He.
  rewrite (populate_too_many_labels _ e target mres ml Hx Hlen).
  destruct (shouldRefresh nowCheck e).
  - eexists _, _. unfold valid. simpl. rewrite Hproto.
    split; [reflexivity |]. split; [done |]. apply lookup_insert_eq.
  - eexists _, _. unfold valid. rewrite Hproto.
    split; [reflexivity |]. done.
Qed.

(** [get] on an entry over the cap that holds an export record: whether
    or not the refresh is due, the record stays and the entry is reported
    as valid. [populate] returns at the label cap without touching the
    entry, and nothing else resets the record. *)
Lemma get_over_cap_record c ref target nowCheck nowSet jitter e p mres ml :
  entries c !! ref = Some e ->
  proto e = Some p ->
  extractResource c (lset e) = (Some mres, Some ml, true) ->
  (maxLabelCount < length (removeFirst "__name__" ml))%nat ->
  exists c' e',
    get' c ref target nowCheck nowSet jitter = (c', (Some e', true, None))
    /\ proto e' = Some p
    /\ entries c' !! ref = Some e'.
Proof.
  intros He Hproto Hx Hlen. unfold get, lookupOrCreate. rewrite He.
  rewrite (populate_too_many_labels _ e target mres ml Hx Hlen).
  destruct (shouldRefresh nowCheck e).
  - eexists _, _. unfold valid. simpl. rewrite Hproto.
    split; [reflexivity |]. split; [done |]. apply lookup_insert_eq.
  - eexists _, _. unfold valid. rewrite Hproto.
    split; [reflexivity |]. done.
Qed.

(** A series whose metric labels, after resource extraction and without
    [__name__], exceed the cap, and whose entry is new or has no export
    record yet, is reported by [get] as not valid with a nil error, and
    its export record stays unset. *)
Lemma get_too_many_labels c ref target nowCheck nowSet jitter ls mres ml :
  (entries c !! ref = None /\ getLabelsByRef c ref = Some ls)
  \/ (exists e, entries c !! ref = Some e /\ lset e = ls /\ proto e = None) ->
  extractResource c ls = (Some mres, Some ml, true) ->
  (maxLabelCount < length (removeFirst "__name__" ml))%nat ->
  exists c' e',
    get' c ref target nowCheck nowSet jitter = (c', (Some e', false, None))
    /\ proto e' = None
    /\ entries c' !! ref = Some e'.
Proof.
  intros [[Hnone Hls] | (e & He & <- & Hproto)] Hx Hlen.
  - by eapply get_over_cap_miss.
  - by eapply get_over_cap_entry.
Qed.

(** [populate] keeps the label set of the entry, and never leaves an
    export record on an entry over the cap that had none. *)
Lemma populate_over_cap c e target mres ml :
  extractResource c (lset e) = (Some mres, Some ml, true) ->
  (maxLabelCount < length (removeFirst "__name__" ml))%nat ->
  proto e = None ->
  proto (fst (populate' c e target)) = None.
Proof.
  intros Hx Hlen Hp. by rewrite (populate_too_many_labels _ _ _ _ _ Hx Hlen).
Qed.

Lemma populate_lset c e target : lset (fst (populate' c e target)) = lset e.
Proof.
  unfold populate.
  destruct (extractResource c (lset e)) as [[[mres|] [ml|]] []]; try done.
  destruct (maxLabelCount <? _)%nat; [done |].
  destruct (resolveMetadata' _ _) as [[[md base] sfx]|]; [| done].
  by destruct (convert' _ _ _ _ _).
Qed.

Lemma withinCap_insert c ref e :
  withinCap maxLabelCount c ->
  (forall mres ml,
      extractResource c (lset e) = (Some mres, Some ml, true) ->
      (maxLabelCount < length (removeFirst "__name__" ml))%nat ->
      proto e = None) ->
  withinCap maxLabelCount (with_entries c (<[ref := e]> (entries c))).
Proof.
  intros Hc He ref' e' mres ml. cbn [entries with_entries].
  destruct (decide (ref = ref')) as [<-|Hne].
  - rewrite lookup_insert_eq. intros [= <-]. apply He.
  - rewrite lookup_insert_ne by done. apply Hc.
Qed.

(** [get] keeps the cache within the cap (for the external labels the
    cache is configured with). *)
Lemma get_withinCap c ref target nowCheck nowSet jitter :
  withinCap maxLabelCount c ->
  withinCap maxLabelCount (fst (get' c ref target nowCheck nowSet jitter)).
Proof.
  intros Hc. unfold get, lookupOrCreate.
  assert (Hrefresh : forall c0 e0,
             withinCap maxLabelCount c0 ->
             (forall mres ml,
                 extractResource c0 (lset e0) = (Some mres, Some ml, true) ->
                 (maxLabelCount < length (removeFirst "__name__" ml))%nat ->
                 proto e0 = None) ->
             forall mres ml,
               extractResource c0 (lset (fst (populate' c0 e0 target)))
               = (Some mres, Some ml, true) ->
               (maxLabelCount < length (removeFirst "__name__" ml))%nat ->
               proto (fst (populate' c0 e0 target)) = None).
  { intros c0 e0 _ He0 mres ml. rewrite populate_lset. intros Hx Hlen.
    eapply populate_over_cap; eauto. }
  destruct (entries c !! ref) as [e|] eqn:He.
  - assert (He0 : forall mres ml,
               extractResource c (lset e) = (Some mres, Some ml, true) ->
               (maxLabelCount < length (removeFirst "__name__" ml))%nat ->
               proto e = None) by (intros; by eapply Hc).
    destruct (shouldRefresh nowCheck e); [| done].
    pose proof (Hrefresh c e Hc He0) as Hp.
    destruct (populate' c e target) as [e' [err|]]; cbn [fst] in *;
      by apply withinCap_insert.
  - destruct (getLabelsByRef c ref) as [ls|]; [| done].
    assert (Hc1 : withinCap maxLabelCount
                    (with_entries c (<[ref := newEntry ls]> (entries c))))
      by (by apply withinCap_insert).
    destruct (shouldRefresh nowCheck (newEntry ls)); [| done].
    pose proof (Hrefresh _ (newEntry ls) Hc1 ltac:(done)) as Hp.
    destruct (populate' _ (newEntry ls) target) as [e' [err|]]; cbn [fst] in *.
    + apply (withinCap_insert _ ref e') in Hc1; [| exact Hp].
      cbn [with_entries entries] in *. by rewrite insert_insert_eq in Hc1 |- *.
    + apply (withinCap_insert _ ref (setNextRefresh nowSet jitter e')) in Hc1;
        [| exact Hp].
      cbn [with_entries entries] in *. by rewrite insert_insert_eq in Hc1 |- *.
Qed.

Lemma withinCap_no_entries c : entries c = ∅ -> withinCap maxLabelCount c.
Proof. intros Hc ref e mres ml. by rewrite Hc, lookup_empty. Qed.

(** In a cache within the cap, hence in every cache that [get] built up
    from an empty one under fixed external labels, every series over the
    cap is reported as not valid. *)
Lemma get_over_cap_withinCap c ref target nowCheck nowSet jitter e mres ml :
  withinCap maxLabelCount c ->
  entries c !! ref = Some e ->
  extractResource c (lset e) = (Some mres, Some ml, true) ->
  (maxLabelCount < length (removeFirst "__name__" ml))%nat ->
  exists c' e',
    get' c ref target nowCheck nowSet jitter = (c', (Some e', false, None))
    /\ proto e' = None
    /\ entries c' !! ref = Some e'.
Proof.
  intros Hc He Hx Hlen. eapply get_over_cap_entry; eauto.
Qed.

End SeriesCacheFacts.

(** ** The cache on concrete series *)

Lemma populate_kinds_witness :
  describes (samplePopulate 10 cacheExternal (newEntry histogramLabels) sampleTarget)
    CUMULATIVE DISTRIBUTION
    (removeFirst "le" (removeFirst "__name__" histogramMetricLabels))
  /\ Map (removeFirst "le" (removeFirst "__name__" histogramMetricLabels)) !! "le"
     = None.
Proof.
  destruct (populate_kinds 10 sampleSplit sampleMetricType 0%N
              sampleHashAdd sampleHashAddByte
              cacheExternal (newEntry histogramLabels) sampleTarget
              (resourceOf (mergedLabels cacheExternal histogramLabels))
              histogramMetricLabels
              {| Metric := "latency"; Type_ := MetricTypeHistogram; Help := "latency" |}
              EmptyString metricSuffixNone)
    as (_ & _ & Hhistogram & _).
  - apply extractResource_ok; reflexivity.
  - vm_compute. lia.
  - vm_compute. reflexivity.
  - destruct (Hhistogram eq_refl) as [Hdescribes Hle].
    split; [exact Hdescribes |]. apply Hle.
    refine (bool_decide_unpack _ _); vm_compute; reflexivity.
Defined.

Lemma get_too_many_labels_witness :
  exists c' e',
    sampleGet 2 cacheWide 1%N sampleTarget 1000000000000 1000000000000 0
    = (c', (Some e', false, None))
    /\ proto e' = None
    /\ entries c' !! 1%N = Some e'.
Proof.
  apply (get_too_many_labels 2 sampleSplit sampleMetricType 0%N
           sampleHashAdd sampleHashAddByte
           cacheWide 1%N sampleTarget 1000000000000 1000000000000 0 wideLabels
           (resourceOf (mergedLabels cacheWide wideLabels))
           (BuilderLabels
              (withoutResourceKeys
                 (mergeExternal wideLabels (getExternalLabels cacheWide)
                    (NewBuilder wideLabels))))).
  - left. split; reflexivity.
  - apply extractResource_ok; reflexivity.
  - vm_compute. lia.
Defined.

(** C5, on a series that was exported before it came over the cap: the
    counter with the labels [a] and [b] is within a cap of two, and its
    first [get] stores an export record and reports it valid. Then the
    external labels gain [env] and [invalidateAll] is called. The metric
    labels of the series are now [a], [b] and [env], one more than the
    cap; the next [get] refreshes the entry, [populate] returns at the
    label cap, and [get] still answers valid with a nil error: the entry
    keeps the record that was built without [env], and is not refreshed
    again for ten minutes. *)
Theorem get_too_many_labels_stale_record :
  exists e1 p mres ml e2,
    snd fullGet = (Some e1, true, None)
    /\ proto e1 = Some p
    /\ entries cacheReloaded !! 1%N = Some (invalidate e1)
    /\ shouldRefresh 2000000000000 (invalidate e1) = true
    /\ extractResource cacheReloaded (lset e1) = (Some mres, Some ml, true)
    /\ (2 < length (removeFirst "__name__" ml))%nat
    /\ snd reloadedGet = (Some e2, true, None)
    /\ lset e2 = fullLabels
    /\ proto e2 = Some p
    /\ met_Labels (ts_Metric p) !! "env" = None
    /\ nextRefresh e2 = 2600
    /\ entries (fst reloadedGet) !! 1%N = Some e2.
Proof.
  eexists _, _, _, _, _.
  split; [vm_compute; reflexivity |].
  split; [vm_compute; reflexivity |].
  split; [vm_compute; reflexivity |].
  split; [vm_compute; reflexivity |].
  split; [vm_compute; reflexivity |].
  split; [vm_compute; lia |].
  split; [vm_compute; reflexivity |].
  split; [vm_compute; reflexivity |].
  split; [vm_compute; reflexivity |].
  split; [vm_compute; reflexivity |].
  split; [vm_compute; reflexivity |].
  vm_compute; reflexivity.
Qed.

Lemma get_twice_same_witness :
  sampleGet 10 firstCache 1%N sampleTarget 1200000000000 1200000000000 7
  = (firstCache, (Some firstEntry, true, None)).
Proof.
  apply (get_twice_same 10 sampleSplit sampleMetricType 0%N
           sampleHashAdd sampleHashAddByte
           cacheExternal 1%N sampleTarget 1000000000000 1000000000000 0).
  - vm_compute. reflexivity.
  - vm_compute. discriminate.
Defined.

(** The first [get] of the scenario populates a cumulative double series
    and schedules the refresh ten minutes later. *)
Example get_scenario :
  nextRefresh firstEntry = 1600
  /\ (ts_MetricKind <$> proto firstEntry) = Some CUMULATIVE
  /\ (ts_ValueType <$> proto firstEntry) = Some DOUBLE
  /\ (met_Type <$> (ts_Metric <$> proto firstEntry))
     = Some "prometheus.googleapis.com/http_requests_total".
Proof. vm_compute. done. Qed.

(** * Further properties of the series cache *)

(** ** Sample interval tracker *)

(** Sending the same interval for the same hash a second time is always
    rejected, and the rejected call leaves the cache as the first call
    left it. *)
Theorem updateSampleInterval_duplicate_rejected c h start end_ :
  updateSampleInterval (fst (updateSampleInterval c h start end_)) h start end_
  = (fst (updateSampleInterval c h start end_), false).
Proof.
  assert (Hself : accepts (SampleInterval start end_) start end_ = false).
  { apply not_true_is_false. rewrite accepts_iff. simpl.
    intros [[_ H] | [H _]]; lia. }
  destruct (intervals c !! h) as [iv|] eqn:Hl.
  - rewrite (updateSampleInterval_stored c h iv start end_ Hl).
    destruct (accepts iv start end_) eqn:Hacc; cbn [fst].
    + erewrite updateSampleInterval_stored; [| apply lookup_insert_eq].
      by rewrite Hself.
    + rewrite (updateSampleInterval_stored c h iv start end_ Hl). by rewrite Hacc.
  - rewrite (updateSampleInterval_fresh c h start end_ Hl). cbn [fst].
    erewrite updateSampleInterval_stored; [| apply lookup_insert_eq].
    by rewrite Hself.
Qed.

(** Whatever its result, a call touches the interval of its own hash
    only: the intervals of other hashes and all cache entries stay. *)
Lemma updateSampleInterval_frame c h start end_ h' :
  h <> h' ->
  intervals (fst (updateSampleInterval c h start end_)) !! h' = intervals c !! h'
  /\ entries (fst (updateSampleInterval c h start end_)) = entries c.
Proof.
  intros Hne. unfold updateSampleInterval.
  destruct (intervals c !! h) as [iv|]; [destruct (accepts iv start end_) |];
    cbn [fst intervals entries with_intervals];
    by rewrite ?lookup_insert_ne.
Qed.

(** An accepted interval never starts before the stored one; it either
    extends the stored interval from the same start or begins at or after
    its end; and when its own start is not after its end, it does not end
    before the stored one. *)
Theorem updateSampleInterval_forward c h s0 e0 start end_ :
  intervals c !! h = Some (SampleInterval s0 e0) ->
  snd (updateSampleInterval c h start end_) = true ->
  s0 <= start
  /\ ((start = s0 /\ e0 < end_) \/ e0 <= start)
  /\ (start <= end_ -> e0 <= end_).
Proof.
  intros Hl. rewrite (updateSampleInterval_stored c h _ start end_ Hl).
  destruct (accepts (SampleInterval s0 e0) start end_) eqn:Hacc; [| discriminate].
  intros _. apply accepts_iff in Hacc. simpl in Hacc. lia.
Qed.

Lemma updateSampleInterval_forward_witness :
  0 <= 20 /\ ((20 = 0 /\ 10 < 30) \/ 10 <= 20) /\ (20 <= 30 -> 10 <= 30).
Proof.
  apply (updateSampleInterval_forward
           (fst (updateSampleInterval emptyCache 7%N 0 10)) 7%N 0 10 20 30);
    reflexivity.
Defined.

Lemma updateSamples_snoc c calls call :
  updateSamples c (calls ++ [call])
  = fst (updateSampleInterval (updateSamples c calls) call.1.1 call.1.2 call.2).
Proof. unfold updateSamples. by rewrite foldl_snoc. Qed.

(** What a call stores for its own hash depends on the cache only
    through the interval stored for that hash. *)
Lemma updateSampleInterval_own c1 c2 h start end_ :
  intervals c1 !! h = intervals c2 !! h ->
  intervals (fst (updateSampleInterval c1 h start end_)) !! h
  = intervals (fst (updateSampleInterval c2 h start end_)) !! h.
Proof.
  intros Heq. unfold updateSampleInterval. rewrite <- Heq.
  destruct (intervals c1 !! h) as [iv|] eqn:Hl;
    [destruct (accepts iv start end_) |];
    cbn [fst intervals with_intervals];
    rewrite ?lookup_insert_eq; congruence.
Qed.

(** Along a run of calls, the interval of a hash is the one that the
    calls for this hash alone would have left. *)
Lemma updateSamples_own c calls h :
  intervals (updateSamples c calls) !! h
  = intervals (updateSamples c (filter (fun call : N * Z * Z => call.1.1 = h) calls)) !! h.
Proof.
  induction calls as [|call calls IH] using rev_ind; [done |].
  rewrite filter_app, updateSamples_snoc.
  destruct call as [[h' start] end_]. cbn [fst snd].
  destruct (decide (h' = h)) as [->|Hne].
  - rewrite filter_cons_True, filter_nil by done.
    rewrite updateSamples_snoc. cbn [fst snd].
    by apply updateSampleInterval_own.
  - rewrite filter_cons_False, filter_nil, app_nil_r by done.
    destruct (updateSampleInterval_frame (updateSamples c calls) h' start end_ h Hne)
      as [-> _].
    exact IH.
Qed.

(** A run of calls never touches the cache entries. *)
Lemma updateSamples_entries c calls :
  entries (updateSamples c calls) = entries c.
Proof.
  induction calls as [|call calls IH] using rev_ind; [done |].
  rewrite updateSamples_snoc. unfold updateSampleInterval.
  destruct (intervals (updateSamples c calls) !! call.1.1) as [iv|];
    [destruct (accepts iv call.1.2 call.2) |];
    cbn [fst entries with_intervals]; exact IH.
Qed.

(** Along any run of calls whose candidates have [start <= end], the
    interval stored for a hash stays stored and neither its start nor its
    end ever moves backwards; and calls for other hashes do not affect
    it: the interval of the hash after the run is the one that the calls
    for this hash alone leave, so that a run without a call for the hash
    leaves the very interval that was stored. *)
Theorem updateSamples_forward c calls h iv :
  Forall (fun call : N * Z * Z => call.1.2 <= call.2) calls ->
  intervals c !! h = Some iv ->
  (exists iv',
      intervals (updateSamples c calls) !! h = Some iv'
      /\ si_start iv <= si_start iv' /\ si_end iv <= si_end iv')
  /\ intervals (updateSamples c calls) !! h
     = intervals
         (updateSamples c (filter (fun call : N * Z * Z => call.1.1 = h) calls)) !! h
  /\ (Forall (fun call : N * Z * Z => call.1.1 <> h) calls ->
      intervals (updateSamples c calls) !! h = Some iv).
Proof.
  intros Hwf Hl. split; [| split].
  - induction calls as [|call calls IH] using rev_ind.
    + exists iv. split; [done |]. lia.
    + apply Forall_app in Hwf as [Hwf Hcall].
      rewrite Forall_singleton in Hcall.
      destruct (IH Hwf) as (iv1 & Hl1 & Hs & He).
      rewrite updateSamples_snoc.
      destruct call as [[h' start] end_]. simpl in *.
      destruct (decide (h' = h)) as [->|Hne].
      * rewrite (updateSampleInterval_stored _ h iv1 start end_ Hl1).
        destruct (accepts iv1 start end_) eqn:Hacc; cbn [fst].
        -- exists (SampleInterval start end_). cbn [intervals with_intervals].
           split; [apply lookup_insert_eq |].
           apply accepts_iff in Hacc. simpl. lia.
        -- exists iv1. done.
      * exists iv1. split; [| done].
        destruct (updateSampleInterval_frame (updateSamples c calls) h' start end_ h Hne)
          as [-> _].
        exact Hl1.
  - apply updateSamples_own.
  - intros Hother. rewrite updateSamples_own.
    replace (filter (fun call : N * Z * Z => call.1.1 = h) calls)
      with (@nil (N * Z * Z)); [exact Hl |].
    symmetry. clear Hwf. induction Hother as [|call calls Hne _ IH]; [done |].
    by rewrite filter_cons_False.
Qed.

Lemma updateSamples_forward_witness :
  (exists iv',
      intervals (updateSamples (fst (updateSampleInterval emptyCache 7%N 0 10))
                   [(7%N, 0, 20); (7%N, 5, 15); (8%N, 1, 2); (7%N, 20, 30)]) !! 7%N
      = Some iv'
      /\ 0 <= si_start iv' /\ 10 <= si_end iv')
  /\ intervals (updateSamples (fst (updateSampleInterval emptyCache 7%N 0 10))
                  [(7%N, 0, 20); (7%N, 5, 15); (8%N, 1, 2); (7%N, 20, 30)]) !! 7%N
     = intervals (updateSamples (fst (updateSampleInterval emptyCache 7%N 0 10))
                    (filter (fun call : N * Z * Z => call.1.1 = 7%N)
                       [(7%N, 0, 20); (7%N, 5, 15); (8%N, 1, 2); (7%N, 20, 30)])) !! 7%N
  /\ (Forall (fun call : N * Z * Z => call.1.1 <> 7%N)
        [(7%N, 0, 20); (7%N, 5, 15); (8%N, 1, 2); (7%N, 20, 30)] ->
      intervals (updateSamples (fst (updateSampleInterval emptyCache 7%N 0 10))
                   [(7%N, 0, 20); (7%N, 5, 15); (8%N, 1, 2); (7%N, 20, 30)]) !! 7%N
      = Some (SampleInterval 0 10)).
Proof.
  apply (updateSamples_forward
           (fst (updateSampleInterval emptyCache 7%N 0 10))
           [(7%N, 0, 20); (7%N, 5, 15); (8%N, 1, 2); (7%N, 20, 30)]
           7%N (SampleInterval 0 10)).
  - repeat constructor; simpl; lia.
  - reflexivity.
Defined.

(** A run of calls for another hash, whatever their bounds, leaves the
    interval of the scenario hash as it was. *)
Example updateSamples_other_hash :
  intervals (updateSamples (fst (updateSampleInterval emptyCache 7%N 0 10))
               [(8%N, 1, 2); (9%N, 0, 100); (8%N, 2, 50)]) !! 7%N
  = Some (SampleInterval 0 10).
Proof. reflexivity. Qed.

(** ** Counter reset adjuster *)

(** A sample that is not below the baseline leaves the cache as it is. *)
Lemma getResetAdjusted_keep c ref e t v :
  entries c !! ref = Some e ->
  hasReset e = true ->
  (v <? resetValue e)%float = false ->
  getResetAdjusted c ref t v
  = (c, (resetTimestamp e, (v - resetValue e)%float, true)).
Proof.
  intros He Hr Hlt. unfold getResetAdjusted. rewrite He, Hr. simpl.
  rewrite Hlt. rewrite <- Hr at 1 2. rewrite setReset_id.
  by rewrite (with_entries_insert_id _ _ _ He).
Qed.

(** The entry a call leaves under the reference: marked as seen, and
    equal to the old one in everything but the reset state. *)
Lemma getResetAdjusted_entry c ref e t v :
  entries c !! ref = Some e ->
  exists rv rt,
    entries (fst (getResetAdjusted c ref t v)) !! ref = Some (setReset true rv rt e).
Proof.
  intros He. unfold getResetAdjusted. rewrite He.
  destruct (hasReset e); simpl.
  - destruct (v <? resetValue e)%float; simpl;
      eexists _, _; apply lookup_insert_eq.
  - eexists _, _. apply lookup_insert_eq.
Qed.

(** Only the first sample of a cached series is skipped: whatever the
    first call was given, the next call for the reference returns
    [ok = true]. *)
Theorem getResetAdjusted_second_ok c ref e t v t' v' :
  entries c !! ref = Some e ->
  snd (snd (getResetAdjusted (fst (getResetAdjusted c ref t v)) ref t' v')) = true.
Proof.
  intros He. destruct (getResetAdjusted_entry c ref e t v He) as (rv & rt & He1).
  unfold getResetAdjusted at 1. rewrite He1. reflexivity.
Qed.

Lemma getResetAdjusted_second_ok_witness :
  snd (snd (getResetAdjusted
              (fst (getResetAdjusted
                      (with_entries emptyCache {[ 1%N := newEntry scenarioLabels ]})
                      1%N 100 5%float))
              1%N 110 8%float)) = true.
Proof.
  apply (getResetAdjusted_second_ok _ 1%N (newEntry scenarioLabels)).
  reflexivity.
Defined.

(** A call changes nothing but the reset state of the entry of its
    reference: the label set, the metadata, the export record, the suffix,
    the hash and the refresh deadline of that entry, every other entry and
    all intervals are kept. *)
Theorem getResetAdjusted_keeps_export_state c ref e t v :
  entries c !! ref = Some e ->
  let c' := fst (getResetAdjusted c ref t v) in
  intervals c' = intervals c
  /\ (forall ref', ref <> ref' -> entries c' !! ref' = entries c !! ref')
  /\ exists e',
      entries c' !! ref = Some e'
      /\ lset e' = lset e /\ metadata e' = metadata e /\ proto e' = proto e
      /\ suffix e' = suffix e /\ hash e' = hash e
      /\ nextRefresh e' = nextRefresh e.
Proof.
  intros He c'. subst c'. split; [| split].
  - unfold getResetAdjusted. rewrite He.
    destruct (hasReset e); [destruct (v <? resetValue e)%float |]; reflexivity.
  - intros ref' Hne. by apply getResetAdjusted_frame.
  - destruct (getResetAdjusted_entry c ref e t v He) as (rv & rt & He1).
    eexists. split; [exact He1 |]. by repeat split.
Qed.

Lemma getResetAdjusted_keeps_export_state_witness :
  let c' := fst (getResetAdjusted firstCache 1%N 100 5%float) in
  intervals c' = intervals firstCache
  /\ (forall ref', 1%N <> ref' -> entries c' !! ref' = entries firstCache !! ref')
  /\ exists e',
      entries c' !! 1%N = Some e'
      /\ lset e' = lset firstEntry /\ metadata e' = metadata firstEntry
      /\ proto e' = proto firstEntry
      /\ suffix e' = suffix firstEntry /\ hash e' = hash firstEntry
      /\ nextRefresh e' = nextRefresh firstEntry.
Proof.
  apply (getResetAdjusted_keeps_export_state firstCache 1%N firstEntry 100 5%float).
  vm_compute. reflexivity.
Defined.

(** After a counter reset was detected at [t], a sample that is not
    negative is returned unadjusted with the reset timestamp [t - 1], and
    the cache stays as the reset left it. *)
Theorem getResetAdjusted_after_reset c ref e t v t' v' :
  entries c !! ref = Some e ->
  hasReset e = true ->
  (v <? resetValue e)%float = true ->
  (0 <=? v')%float = true ->
  let c1 := fst (getResetAdjusted c ref t v) in
  getResetAdjusted c1 ref t' v' = (c1, (Int64.sub t 1, v', true)).
Proof.
  intros He Hr Hlt Hpos c1.
  assert (He1 : entries c1 !! ref
                = Some (setReset true 0%float (Int64.sub t 1) e)).
  { subst c1. unfold getResetAdjusted. rewrite He, Hr. simpl. rewrite Hlt.
    apply lookup_insert_eq. }
  rewrite (getResetAdjusted_keep c1 ref _ t' v' He1); [| done |].
  - simpl. by rewrite float_sub_zero.
  - simpl. by apply float_leb_not_ltb.
Qed.

Lemma getResetAdjusted_after_reset_witness :
  let c1 := fst (getResetAdjusted cacheSeen 1%N 120 2%float) in
  getResetAdjusted c1 1%N 130 4%float = (c1, (119, 4%float, true)).
Proof.
  apply (getResetAdjusted_after_reset cacheSeen 1%N
           (setReset true 5%float 100 (newEntry scenarioLabels))
           120 2%float 130 4%float); reflexivity.
Defined.

(** ** Label/resource extractor *)

Lemma Has_sortLabels ls n : Has (sortLabels ls) n = Has ls n.
Proof. apply Has_Permutation. unfold sortLabels. apply merge_sort_Permutation. Qed.

(** Which names the label set of a builder carries. *)
Lemma Has_BuilderLabels b n :
  Has (BuilderLabels b) n
  = Has (b_add b) n || (Has (b_base b) n && negb (elemb n (b_del b))).
Proof.
  destruct (decide (b_del b = [] /\ b_add b = [])) as [[Hd Hadd]|Hne].
  - unfold BuilderLabels. rewrite Hd, Hadd. simpl. by rewrite andb_true_r.
  - rewrite BuilderLabels_general.
    2:{ destruct (b_del b), (b_add b); naive_solver. }
    rewrite Has_sortLabels, Has_app, (Has_filter_name (keeps b)).
    case_bool_decide as Hk; unfold keeps in Hk.
    + destruct Hk as [-> ->]. simpl. by rewrite orb_false_r.
    + rewrite andb_false_r. simpl.
      destruct (Has (b_add b) n) eqn:Hadd; [done |].
      destruct (elemb n (b_del b)) eqn:Hdel; [by rewrite andb_false_r |].
      naive_solver.
Qed.

Lemma elemb_withoutResourceKeys b n :
  elemb n (b_del (withoutResourceKeys b))
  = elemb n (b_del b) || bool_decide (n ∈ resourceKeys).
Proof.
  unfold withoutResourceKeys. rewrite !elemb_Del, <- !orb_assoc. f_equal.
  unfold resourceKeys. apply eq_true_iff_eq.
  rewrite bool_decide_eq_true, !elem_of_cons, elem_of_nil, !orb_true_iff,
    !String.eqb_eq. tauto.
Qed.

Lemma Has_withoutResourceKeys b n :
  Has (b_add (withoutResourceKeys b)) n
  = Has (b_add b) n && negb (bool_decide (n ∈ resourceKeys)).
Proof.
  unfold withoutResourceKeys. rewrite !Has_Del, <- !andb_assoc. f_equal.
  unfold resourceKeys. rewrite <- !negb_orb. f_equal. apply eq_true_iff_eq.
  rewrite bool_decide_eq_true, !elem_of_cons, elem_of_nil, !orb_true_iff,
    !String.eqb_eq. tauto.
Qed.

Lemma extractResource_inv c ls mres ml :
  extractResource c ls = (Some mres, Some ml, true) ->
  Has ls keyJob = true /\ Has ls keyInstance = true
  /\ mres = resourceOf (mergedLabels c ls)
  /\ ml = BuilderLabels
            (withoutResourceKeys
               (mergeExternal ls (getExternalLabels c) (NewBuilder ls))).
Proof.
  unfold extractResource.
  destruct (Has ls keyJob); [| discriminate].
  destruct (Has ls keyInstance); [| discriminate].
  cbn [negb]. by intros [= <- <-].
Qed.

(** Without [job] or [instance] the extraction fails, whatever the
    external labels are. *)
Lemma extractResource_missing_identity_aux ls :
  Has ls keyJob = false \/ Has ls keyInstance = false ->
  forall c, snd (extractResource c ls) = false /\ fst (extractResource c ls) = (None, None).
Proof.
  intros Hid c. unfold extractResource.
  destruct Hid as [-> | Hi]; [done |]. rewrite Hi. by destruct (Has ls keyJob).
Qed.

(** The resource of a successful extraction, and the resource label
    names among its metric labels. *)
Lemma extractResource_resource c ls mres ml :
  extractResource c ls = (Some mres, Some ml, true) ->
  res_Type mres = "prometheus_target"
  /\ dom (res_Labels mres) = list_to_set resourceKeys
  /\ forall key, key ∈ resourceKeys -> Has ml key = false.
Proof.
  intros Hx. apply extractResource_inv in Hx as (_ & _ & -> & ->).
  split; [done |]. split.
  - unfold resourceOf. cbn [res_Labels]. by rewrite dom_list_to_map_L.
  - intros key Hkey.
    rewrite Has_BuilderLabels, Has_withoutResourceKeys, elemb_withoutResourceKeys.
    rewrite (bool_decide_eq_true_2 _ Hkey). simpl.
    by rewrite orb_true_r, !andb_false_r.
Qed.

(** Whenever the extraction succeeds, the series carries [job] and
    [instance], the resource has the type [prometheus_target] and exactly
    the five resource labels, and none of the five names is left among the
    metric labels. *)
Theorem extractResource_shape c ls mres ml :
  extractResource c ls = (Some mres, Some ml, true) ->
  Has ls keyJob = true /\ Has ls keyInstance = true
  /\ res_Type mres = "prometheus_target"
  /\ dom (res_Labels mres) = list_to_set resourceKeys
  /\ forall key, key ∈ resourceKeys -> Has ml key = false.
Proof.
  intros Hx.
  destruct (extractResource_resource c ls mres ml Hx) as (Hty & Hdom & Hkeys).
  apply extractResource_inv in Hx as (Hjob & Hinstance & _).
  by repeat split.
Qed.

Lemma extractResource_shape_witness :
  Has scenarioLabels keyJob = true /\ Has scenarioLabels keyInstance = true
  /\ res_Type (resourceOf (mergedLabels cacheExternal scenarioLabels))
  = "prometheus_target"
  /\ dom (res_Labels (resourceOf (mergedLabels cacheExternal scenarioLabels)))
     = list_to_set resourceKeys
  /\ forall key, key ∈ resourceKeys ->
       Has (BuilderLabels
              (withoutResourceKeys
                 (mergeExternal scenarioLabels (getExternalLabels cacheExternal)
                    (NewBuilder scenarioLabels)))) key = false.
Proof.
  apply (extractResource_shape cacheExternal scenarioLabels).
  apply extractResource_ok; reflexivity.
Defined.

(** The names [NewBuilder] schedules for deletion are those the label set
    carries with an empty value. *)
Lemma elemb_NewBuilder ls n :
  NoDup (names ls) ->
  elemb n (b_del (NewBuilder ls)) = true
  <-> Has ls n = true /\ Get ls n = EmptyString.
Proof.
  intros Hnd. unfold NewBuilder. cbn [b_del]. rewrite elemb_elem_of. split.
  - intros Hn. unfold names in Hn.
    apply list_elem_of_fmap in Hn as (l & -> & Hl).
    apply list_elem_of_filter in Hl as [Hv Hl].
    split.
    + apply Has_elem_of. by apply (list_elem_of_fmap_2 Name).
    + destruct l as [k v]. simpl in *. subst v. by apply Get_elem_of.
  - intros [Hh Hg]. destruct (Has_elem_of_label _ _ Hh) as (v & Hin & Hv).
    rewrite Hg in Hv. subst v.
    apply (list_elem_of_fmap_2' Name _ (mkLabel n EmptyString)); [| done].
    by apply list_elem_of_filter.
Qed.

(** A label of the series that is neither externally configured nor a
    resource label passes into the metric labels with its value, unless
    the value is empty, in which case it is dropped; a resource label that
    is not externally configured is read from the series, as the empty
    string when the series lacks it. *)
Theorem extractResource_own_labels c ls mres ml n :
  NoDup (names ls) ->
  extractResource c ls = (Some mres, Some ml, true) ->
  n ∉ names (getExternalLabels c) ->
  (n ∈ resourceKeys -> res_Labels mres !! n = Some (Get ls n))
  /\ (n ∉ resourceKeys ->
      Get ml n = Get ls n
      /\ (Has ml n = true <-> Get ls n <> EmptyString)).
Proof.
  intros Hnd Hx Hext. apply extractResource_inv in Hx as (_ & _ & -> & ->).
  pose proof (mergeExternal_inv ls (getExternalLabels c) _ (NewBuilder_inv ls Hnd))
    as (Hbase & Hadd_nd & _).
  destruct (mergeExternal_other ls (getExternalLabels c) (NewBuilder ls) n Hext)
    as (Hhas & Hget & Hdel).
  cbn [b_add NewBuilder Has Get] in Hhas, Hget.
  assert (Hmerged : Get (mergedLabels c ls) n = Get ls n).
  { unfold mergedLabels. rewrite Get_BuilderLabels; [| by rewrite Hbase | done].
    rewrite Hhas, Hdel, Hbase.
    destruct (elemb n (b_del (NewBuilder ls))) eqn:Hd; [| done].
    apply (elemb_NewBuilder ls n Hnd) in Hd as [_ ->]. done. }
  split.
  - intros Hkey. by rewrite resourceOf_lookup, Hmerged.
  - intros Hkey. split.
    + rewrite Get_withoutResourceKeys; [exact Hmerged | by rewrite Hbase | done | done].
    + rewrite Has_BuilderLabels, Has_withoutResourceKeys, elemb_withoutResourceKeys.
      rewrite Hhas, Hdel. rewrite (bool_decide_eq_false_2 _ Hkey).
      cbn [withoutResourceKeys Del b_base]. rewrite Hbase.
      cbn [negb andb orb]. rewrite orb_false_r, andb_true_iff, negb_true_iff.
      pose proof (elemb_NewBuilder ls n Hnd) as Hnb.
      destruct (elemb n (b_del (NewBuilder ls))) eqn:Hd.
      * destruct (proj1 Hnb eq_refl) as [_ Hg]. rewrite Hg. split; [| done].
        intros [_ Hf]. discriminate.
      * split.
        -- intros [Hh _] Hg. assert (false = true); [| discriminate].
           by apply Hnb.
        -- intros Hg. split; [| done].
           destruct (Has ls n) eqn:Hh; [done |].
           by rewrite (Get_absent ls n Hh) in Hg.
Qed.

Lemma extractResource_own_labels_witness :
  Get (BuilderLabels
         (withoutResourceKeys
            (mergeExternal histogramLabels (getExternalLabels cacheExternal)
               (NewBuilder histogramLabels)))) "le" = "0.5".
Proof.
  destruct (extractResource_own_labels cacheExternal histogramLabels
              (resourceOf (mergedLabels cacheExternal histogramLabels))
              histogramMetricLabels "le") as [_ Hmetric].
  - refine (bool_decide_unpack _ _); vm_compute; reflexivity.
  - apply extractResource_ok; reflexivity.
  - refine (bool_decide_unpack _ _); vm_compute; reflexivity.
  - destruct Hmetric as [Hget _].
    + refine (bool_decide_unpack _ _); vm_compute; reflexivity.
    + exact Hget.
Defined.

(** ** Refresh deadlines *)

(** With the jitter drawn from the symmetric window around zero, the next
    refresh is scheduled between five and fifteen minutes after the clock
    reading, so an entry is not refreshed again within five minutes. *)
Theorem setNextRefresh_window now jitter e :
  - (refreshJitter / 2) <= jitter < refreshJitter / 2 ->
  Unix now + 300 <= nextRefresh (setNextRefresh now jitter e) <= Unix now + 900
  /\ forall now', Unix now' <= Unix now + 300 ->
       shouldRefresh now' (setNextRefresh now jitter e) = false.
Proof.
  unfold setNextRefresh, shouldRefresh, Unix. cbn [nextRefresh].
  unfold refreshJitter, refreshInterval, minute. intros Hj.
  change (10 * (60 * 1000000000) / 2) with (300 * 1000000000) in Hj.
  assert (Hlo : now / 1000000000 + 300
                <= (now + 10 * (60 * 1000000000) + jitter) / 1000000000).
  { rewrite <- (Z.div_add now 300 1000000000) by lia.
    apply Z.div_le_mono; lia. }
  assert (Hhi : (now + 10 * (60 * 1000000000) + jitter) / 1000000000
                <= now / 1000000000 + 900).
  { rewrite <- (Z.div_add now 900 1000000000) by lia.
    apply Z.div_le_mono; lia. }
  split; [lia |]. intros now' Hnow'.
  destruct (Z.gtb_spec (now' / 1000000000)
              ((now + 10 * (60 * 1000000000) + jitter) / 1000000000)); [lia | done].
Qed.

Lemma setNextRefresh_window_witness :
  1300 <= nextRefresh (setNextRefresh 1000000000000 (-300000000000)
                         (newEntry scenarioLabels)) <= 1900
  /\ forall now', Unix now' <= 1300 ->
       shouldRefresh now' (setNextRefresh 1000000000000 (-300000000000)
                             (newEntry scenarioLabels)) = false.
Proof.
  apply (setNextRefresh_window 1000000000000 (-300000000000)
           (newEntry scenarioLabels)).
  vm_compute. split; [discriminate | reflexivity].
Defined.

Section SeriesCacheMore.

Variable maxLabelCount : nat.
Variable splitComplexMetricSuffix : string -> string * metricSuffix * bool.
Variable getMetricType : string -> string -> string.
Variable hashNew : N.
Variable hashAdd : N -> string -> N.
Variable hashAddByte : N -> Byte.byte -> N.

Local Abbreviation resolveMetadata' := (resolveMetadata splitComplexMetricSuffix).
Local Abbreviation convert' := (convert getMetricType).
Local Abbreviation hashSeries' := (hashSeries hashNew hashAdd hashAddByte).
Local Abbreviation populate' :=
  (populate maxLabelCount splitComplexMetricSuffix getMetricType
     hashNew hashAdd hashAddByte).
Local Abbreviation protoTemplate' := (protoTemplate getMetricType).
Local Abbreviation populatedEntry' :=
  (populatedEntry hashNew hashAdd hashAddByte).
Local Abbreviation get' :=
  (get maxLabelCount splitComplexMetricSuffix getMetricType
     hashNew hashAdd hashAddByte).

(** ** [populate] *)


(** The export record [populate] builds on an entry that had none: the
    resource is a [prometheus_target] with exactly the five resource
    labels, no resource label name is left among the metric labels, the
    kind is GAUGE or CUMULATIVE, the value type is DOUBLE, INT64 or
    DISTRIBUTION, and the entry's hash is the hash of the record. *)
Theorem populate_record c e target e' ts :
  proto e = None ->
  populate' c e target = (e', None) ->
  proto e' = Some ts ->
  res_Type (ts_Resource ts) = "prometheus_target"
  /\ dom (res_Labels (ts_Resource ts)) = list_to_set resourceKeys
  /\ (forall key, key ∈ resourceKeys -> met_Labels (ts_Metric ts) !! key = None)
  /\ (ts_MetricKind ts = GAUGE \/ ts_MetricKind ts = CUMULATIVE)
  /\ (ts_ValueType ts = DOUBLE \/ ts_ValueType ts = INT64
      \/ ts_ValueType ts = DISTRIBUTION)
  /\ hash e' = hashSeries' ts.
Proof.
  intros Hnone. unfold populate.
  destruct (extractResource c (lset e)) as [[[mres|] [ml|]] []] eqn:Hx;
    try (intros [= <-]; congruence).
  destruct (maxLabelCount <? _)%nat; [intros [= <-]; congruence |].
  destruct (resolveMetadata' _ _) as [[[md base] sfx]|];
    [| intros [= <-]; congruence].
  destruct (extractResource_resource c (lset e) mres ml Hx) as (Hty & Hdom & Hkeys).
  assert (Hlabels : forall key, key ∈ resourceKeys ->
            Map (if String.eqb (Type_ md) MetricTypeHistogram
                 then removeFirst "le" (removeFirst "__name__" ml)
                 else removeFirst "__name__" ml) !! key = None).
  { intros key Hkey. apply Map_lookup_None. intros Hin.
    assert (Hml : key ∈ names ml).
    { destruct (String.eqb (Type_ md) MetricTypeHistogram);
        repeat apply names_removeFirst_subseteq in Hin; exact Hin. }
    apply Has_elem_of in Hml. rewrite (Hkeys key Hkey) in Hml. discriminate. }
  unfold convert.
  repeat match goal with
         | |- context [if ?b then _ else _] => destruct b
         end;
    intros [= <-]; cbn [proto]; intros [= <-]; cbn [hash];
    by repeat split; auto.
Qed.

(** [populate] keeps the label set, the refresh deadline and the counter
    reset state of the entry. *)
Lemma populate_kept_fields c e target :
  let e' := fst (populate' c e target) in
  lset e' = lset e /\ nextRefresh e' = nextRefresh e
  /\ hasReset e' = hasReset e /\ resetValue e' = resetValue e
  /\ resetTimestamp e' = resetTimestamp e.
Proof.
  unfold populate.
  destruct (extractResource c (lset e)) as [[[mres|] [ml|]] []]; try done.
  destruct (maxLabelCount <? _)%nat; [done |].
  destruct (resolveMetadata' _ _) as [[[md base] sfx]|]; [| done].
  by destruct (convert' _ _ _ _ _).
Qed.

Lemma populate_no_metadata c e target :
  resolveMetadata' target (Get (lset e) "__name__") = None ->
  populate' c e target = (e, None).
Proof.
  intros Hmd. unfold populate.
  destruct (extractResource c (lset e)) as [[[mres|] [ml|]] []]; try done.
  destruct (maxLabelCount <? _)%nat; [done |]. by rewrite Hmd.
Qed.

(** When neither lookup of [populate] finds metadata. *)
Lemma resolveMetadata_None target metricName :
  resolveMetadata' target metricName = None
  <-> snd (getMetadata target metricName) = false
      /\ (snd (splitComplexMetricSuffix metricName) = false
          \/ snd (getMetadata target
                    (fst (fst (splitComplexMetricSuffix metricName)))) = false).
Proof.
  unfold resolveMetadata.
  destruct (getMetadata target metricName) as [md []]; simpl;
    [intuition discriminate |].
  destruct (splitComplexMetricSuffix metricName) as [[base sfx] []]; simpl;
    [| intuition discriminate].
  destruct (getMetadata target base) as [md' []]; simpl; intuition discriminate.
Qed.

(** ** [get] *)

(** [populate] never fails with the error of an invalid reference. *)
Lemma populate_error_kind c e target :
  snd (populate' c e target) <> Some ErrSeriesReferenceInvalid.
Proof.
  unfold populate.
  destruct (extractResource c (lset e)) as [[[mres|] [ml|]] []]; try done.
  destruct (maxLabelCount <? _)%nat; [done |].
  destruct (resolveMetadata' _ _) as [[[md base] sfx]|]; [| done].
  unfold convert.
  repeat match goal with
         | |- context [if ?b then _ else _] => destruct b
         end; done.
Qed.

(** [get] fails with "series reference invalid" exactly when the cache
    has no entry for the reference and the scrape subsystem no longer
    knows it; nothing is stored then. *)
Theorem get_invalid_reference c ref target nowCheck nowSet jitter :
  (snd (snd (get maxLabelCount splitComplexMetricSuffix getMetricType
               hashNew hashAdd hashAddByte c ref target nowCheck nowSet jitter))
   = Some ErrSeriesReferenceInvalid
   <-> entries c !! ref = None /\ getLabelsByRef c ref = None)
  /\ (entries c !! ref = None -> getLabelsByRef c ref = None ->
      get' c ref target nowCheck nowSet jitter
      = (c, (None, false, Some ErrSeriesReferenceInvalid))).
Proof.
  split.
  - unfold get, lookupOrCreate.
    destruct (entries c !! ref) as [e|].
    + split; [| by intros [? _]].
      destruct (shouldRefresh nowCheck e); [| done].
      pose proof (populate_error_kind c e target) as Hk.
      destruct (populate' c e target) as [e1 [err|]]; [| done].
      cbn in *. congruence.
    + destruct (getLabelsByRef c ref) as [ls|]; [| done].
      split; [| by intros [_ ?]].
      destruct (shouldRefresh nowCheck (newEntry ls)); [| done].
      pose proof (populate_error_kind
                    (with_entries c (<[ref := newEntry ls]> (entries c)))
                    (newEntry ls) target) as Hk.
      destruct (populate' _ (newEntry ls) target) as [e1 [err|]]; [| done].
      cbn in *. congruence.
  - intros He Hl. unfold get, lookupOrCreate. by rewrite He, Hl.
Qed.

(** A new series on which [populate] changes nothing is stored without
    an export record and reported as not valid, without an error. *)
Lemma get_new_dropped c ref target nowCheck nowSet jitter ls :
  entries c !! ref = None ->
  getLabelsByRef c ref = Some ls ->
  populate' (with_entries c (<[ref := newEntry ls]> (entries c)))
    (newEntry ls) target = (newEntry ls, None) ->
  exists c' e',
    get' c ref target nowCheck nowSet jitter = (c', (Some e', false, None))
    /\ proto e' = None /\ lset e' = ls
    /\ entries c' !! ref = Some e'.
Proof.
  intros He Hl Hp. unfold get, lookupOrCreate. rewrite He, Hl, Hp.
  destruct (shouldRefresh nowCheck (newEntry ls));
    (eexists _, _; split; [reflexivity |]; split; [done |]; split; [done |];
     apply lookup_insert_eq).
Qed.

(** A new series without the [job] or the [instance] label is dropped
    silently: [get] stores an entry without export record and returns
    [valid = false] and a nil error. *)
Theorem get_missing_identity c ref target nowCheck nowSet jitter ls :
  entries c !! ref = None ->
  getLabelsByRef c ref = Some ls ->
  Has ls keyJob = false \/ Has ls keyInstance = false ->
  exists c' e',
    get' c ref target nowCheck nowSet jitter = (c', (Some e', false, None))
    /\ proto e' = None /\ lset e' = ls
    /\ entries c' !! ref = Some e'.
Proof.
  intros He Hl Hid. apply get_new_dropped; [done | done |].
  apply populate_unknown_resource. cbn [lset newEntry].
  destruct (extractResource_missing_identity_aux ls Hid
              (with_entries c (<[ref := newEntry ls]> (entries c)))) as [-> _].
  reflexivity.
Qed.

(** A new series for which no metadata is found, under its full name or
    under its name without a well-known suffix, is dropped silently as
    well. *)
Theorem get_metadata_not_found c ref target nowCheck nowSet jitter ls :
  entries c !! ref = None ->
  getLabelsByRef c ref = Some ls ->
  resolveMetadata' target (Get ls "__name__") = None ->
  exists c' e',
    get' c ref target nowCheck nowSet jitter = (c', (Some e', false, None))
    /\ proto e' = None /\ lset e' = ls
    /\ entries c' !! ref = Some e'.
Proof.
  intros He Hl Hmd. apply get_new_dropped; [done | done |].
  by apply populate_no_metadata.
Qed.

(** [get] touches the entry of its reference only: every other entry, all
    intervals and the configuration of the cache are kept. *)
Theorem get_frame c ref target nowCheck nowSet jitter ref' :
  ref <> ref' ->
  let c' := fst (get maxLabelCount splitComplexMetricSuffix getMetricType
                  hashNew hashAdd hashAddByte
                  c ref target nowCheck nowSet jitter) in
  entries c' !! ref' = entries c !! ref'
  /\ intervals c' = intervals c
  /\ getExternalLabels c' = getExternalLabels c
  /\ metricsPrefix c' = metricsPrefix c.
Proof.
  intros Hne c'. subst c'. unfold get, lookupOrCreate.
  destruct (entries c !! ref) as [e|].
  - destruct (shouldRefresh nowCheck e); [| done].
    destruct (populate' c e target) as [e1 [err|]];
      cbn [fst entries with_entries]; by rewrite lookup_insert_ne.
  - destruct (getLabelsByRef c ref) as [ls|]; [| done].
    destruct (shouldRefresh nowCheck (newEntry ls)).
    + destruct (populate' _ (newEntry ls) target) as [e1 [err|]];
        cbn [fst entries with_entries]; by rewrite !lookup_insert_ne.
    + cbn [fst entries with_entries]. by rewrite lookup_insert_ne.
Qed.

(** A refresh never loses the counter baseline: whatever [get] does to a
    cached entry, its label set and its reset state are kept. *)
Theorem get_keeps_reset_state c ref e target nowCheck nowSet jitter :
  entries c !! ref = Some e ->
  exists e',
    entries (fst (get maxLabelCount splitComplexMetricSuffix getMetricType
                    hashNew hashAdd hashAddByte
                    c ref target nowCheck nowSet jitter)) !! ref = Some e'
    /\ lset e' = lset e
    /\ hasReset e' = hasReset e /\ resetValue e' = resetValue e
    /\ resetTimestamp e' = resetTimestamp e.
Proof.
  intros He. unfold get, lookupOrCreate. rewrite He.
  destruct (shouldRefresh nowCheck e); [| by exists e].
  pose proof (populate_kept_fields c e target) as (Hl & _ & Hr & Hv & Ht).
  destruct (populate' c e target) as [e1 [err|]]; cbn [fst] in *;
    eexists; (split; [apply lookup_insert_eq |]); done.
Qed.

(** After [invalidateAll], the next [get] of a cached series recomputes
    the entry instead of serving it from the cache (once the clock is past
    the first second of the epoch): it returns what [populate] makes of
    the entry, with a deadline scheduled by this call. *)
Theorem invalidateAll_refreshes c ref e target nowCheck nowSet jitter :
  entries c !! ref = Some e ->
  0 < Unix nowCheck ->
  let ci := invalidateAll c in
  entries ci !! ref = Some (invalidate e)
  /\ intervals ci = intervals c
  /\ snd (get' ci ref target nowCheck nowSet jitter)
     = match populate' ci (invalidate e) target with
       | (_, Some err) => (None, false, Some err)
       | (e1, None) =>
           (Some (setNextRefresh nowSet jitter e1), valid e1, None)
       end.
Proof.
  intros He Hnow ci.
  assert (Hei : entries ci !! ref = Some (invalidate e)).
  { subst ci. unfold invalidateAll. cbn [entries with_entries].
    by rewrite lookup_fmap, He. }
  split; [done |]. split; [done |].
  unfold get, lookupOrCreate. rewrite Hei.
  assert (Hr : shouldRefresh nowCheck (invalidate e) = true).
  { unfold shouldRefresh. cbn [nextRefresh invalidate]. lia. }
  rewrite Hr. by destruct (populate' ci (invalidate e) target) as [e1 [err|]].
Qed.

(** A series named after one of the internal scrape metrics, for which
    the target has no metadata, is exported as a GAUGE of DOUBLE values. *)
Theorem populate_internal_metric c e target mres ml :
  Get (lset e) "__name__" ∈ wellKnownInternal ->
  target (Get (lset e) "__name__") = None ->
  extractResource c (lset e) = (Some mres, Some ml, true) ->
  (length (removeFirst "__name__" ml) <= maxLabelCount)%nat ->
  describes (populate' c e target) GAUGE DOUBLE (removeFirst "__name__" ml).
Proof.
  intros Hname Htarget Hx Hlen.
  destruct (internalMetrics_known _ Hname) as [help Hknown].
  assert (Hmd : resolveMetadata' target (Get (lset e) "__name__")
                = Some ({| Metric := Get (lset e) "__name__";
                           Type_ := MetricTypeGauge; Help := help |},
                        EmptyString, metricSuffixNone)).
  { unfold resolveMetadata, getMetadata, targetMetadata.
    by rewrite Htarget, Hknown. }
  erewrite populate_resolved; [| exact Hx | exact Hlen | exact Hmd].
  rewrite convert_gauge by (by left).
  eexists _, _. by repeat split.
Qed.

End SeriesCacheMore.

(** ** The further properties on concrete series *)


Lemma populate_record_witness :
  res_Type (ts_Resource firstRecord) = "prometheus_target"
  /\ dom (res_Labels (ts_Resource firstRecord)) = list_to_set resourceKeys
  /\ (forall key, key ∈ resourceKeys ->
        met_Labels (ts_Metric firstRecord) !! key = None)
  /\ (ts_MetricKind firstRecord = GAUGE \/ ts_MetricKind firstRecord = CUMULATIVE)
  /\ (ts_ValueType firstRecord = DOUBLE \/ ts_ValueType firstRecord = INT64
      \/ ts_ValueType firstRecord = DISTRIBUTION)
  /\ hash (fst firstPopulate)
     = hashSeries 0%N sampleHashAdd sampleHashAddByte firstRecord.
Proof.
  apply (populate_record 10 sampleSplit sampleMetricType 0%N
           sampleHashAdd sampleHashAddByte
           cacheExternal (newEntry scenarioLabels) sampleTarget).
  - reflexivity.
  - vm_compute. reflexivity.
  - vm_compute. reflexivity.
Defined.

Lemma get_invalid_reference_witness :
  sampleGet 10 cacheExternal 2%N sampleTarget 1000000000000 1000000000000 0
  = (cacheExternal, (None, false, Some ErrSeriesReferenceInvalid)).
Proof.
  destruct (get_invalid_reference 10 sampleSplit sampleMetricType 0%N
              sampleHashAdd sampleHashAddByte
              cacheExternal 2%N sampleTarget 1000000000000 1000000000000 0)
    as [_ Hinvalid].
  apply Hinvalid; reflexivity.
Defined.

Lemma get_missing_identity_witness :
  exists c' e',
    sampleGet 10 cacheRule 1%N sampleTarget 1000000000000 1000000000000 0
    = (c', (Some e', false, None))
    /\ proto e' = None /\ lset e' = ruleLabels
    /\ entries c' !! 1%N = Some e'.
Proof.
  apply (get_missing_identity 10 sampleSplit sampleMetricType 0%N
           sampleHashAdd sampleHashAddByte
           cacheRule 1%N sampleTarget 1000000000000 1000000000000 0 ruleLabels).
  - reflexivity.
  - reflexivity.
  - right. reflexivity.
Defined.

Lemma get_metadata_not_found_witness :
  exists c' e',
    sampleGet 10 cacheExternal 1%N silentTarget 1000000000000 1000000000000 0
    = (c', (Some e', false, None))
    /\ proto e' = None /\ lset e' = scenarioLabels
    /\ entries c' !! 1%N = Some e'.
Proof.
  apply (get_metadata_not_found 10 sampleSplit sampleMetricType 0%N
           sampleHashAdd sampleHashAddByte
           cacheExternal 1%N silentTarget 1000000000000 1000000000000 0
           scenarioLabels).
  - reflexivity.
  - reflexivity.
  - vm_compute. reflexivity.
Defined.

Lemma get_frame_witness :
  let c' := fst (sampleGet 10 firstCache 2%N sampleTarget
                   1000000000000 1000000000000 0) in
  entries c' !! 1%N = entries firstCache !! 1%N
  /\ intervals c' = intervals firstCache
  /\ getExternalLabels c' = getExternalLabels firstCache
  /\ metricsPrefix c' = metricsPrefix firstCache.
Proof.
  apply (get_frame 10 sampleSplit sampleMetricType 0%N
           sampleHashAdd sampleHashAddByte
           firstCache 2%N sampleTarget 1000000000000 1000000000000 0 1%N).
  discriminate.
Defined.

Lemma get_keeps_reset_state_witness :
  exists e',
    entries (fst (sampleGet 10 cacheSeen 1%N sampleTarget
                    1000000000000 1000000000000 0)) !! 1%N = Some e'
    /\ lset e' = scenarioLabels
    /\ hasReset e' = true /\ resetValue e' = 5%float
    /\ resetTimestamp e' = 100.
Proof.
  apply (get_keeps_reset_state 10 sampleSplit sampleMetricType 0%N
           sampleHashAdd sampleHashAddByte
           cacheSeen 1%N (setReset true 5%float 100 (newEntry scenarioLabels))).
  reflexivity.
Defined.

Lemma invalidateAll_refreshes_witness :
  let ci := invalidateAll firstCache in
  entries ci !! 1%N = Some (invalidate firstEntry)
  /\ intervals ci = intervals firstCache
  /\ snd (sampleGet 10 ci 1%N sampleTarget 1200000000000 1200000000000 0)
     = match samplePopulate 10 ci (invalidate firstEntry) sampleTarget with
       | (_, Some err) => (None, false, Some err)
       | (e1, None) =>
           (Some (setNextRefresh 1200000000000 0 e1), valid e1, None)
       end.
Proof.
  apply (invalidateAll_refreshes 10 sampleSplit sampleMetricType 0%N
           sampleHashAdd sampleHashAddByte
           firstCache 1%N firstEntry sampleTarget 1200000000000 1200000000000 0).
  - vm_compute. reflexivity.
  - vm_compute. reflexivity.
Defined.

Lemma populate_internal_metric_witness :
  describes (samplePopulate 10 cacheExternal (newEntry upLabels) silentTarget)
    GAUGE DOUBLE (removeFirst "__name__" upMetricLabels).
Proof.
  apply (populate_internal_metric 10 sampleSplit sampleMetricType 0%N
           sampleHashAdd sampleHashAddByte
           cacheExternal (newEntry upLabels) silentTarget
           (resourceOf (mergedLabels cacheExternal upLabels)) upMetricLabels).
  - apply list_elem_of_here.
  - reflexivity.
  - apply extractResource_ok; reflexivity.
  - vm_compute. lia.
Defined.

(** * The operator options *)

Lemma orDefault_nonempty field value :
  value <> EmptyString -> Operator.orDefault field value <> EmptyString.
Proof.
  intros Hv. unfold Operator.orDefault.
  by destruct (String.eqb_spec field EmptyString).
Qed.

Lemma orDefault_set field value :
  field <> EmptyString -> Operator.orDefault field value = field.
Proof.
  intros Hf. unfold Operator.orDefault.
  by destruct (String.eqb_spec field EmptyString).
Qed.

Lemma defaultNames_fixed o :
  Operator.OperatorNamespace o <> EmptyString ->
  Operator.PublicNamespace o <> EmptyString ->
  Operator.CollectorPort o <> 0 ->
  Operator.ImageCollector o <> EmptyString ->
  Operator.ImageConfigReloader o <> EmptyString ->
  Operator.ImageRuleEvaluator o <> EmptyString ->
  Operator.defaultNames o = o.
Proof.
  intros H1 H2 H3 H4 H5 H6. unfold Operator.defaultNames.
  rewrite !orDefault_set by done.
  apply Z.eqb_neq in H3. rewrite H3. by destruct o.
Qed.

Lemma defaultNames_filled o :
  let o' := Operator.defaultNames o in
  Operator.OperatorNamespace o' <> EmptyString
  /\ Operator.PublicNamespace o' <> EmptyString
  /\ Operator.CollectorPort o' <> 0
  /\ Operator.ImageCollector o' <> EmptyString
  /\ Operator.ImageConfigReloader o' <> EmptyString
  /\ Operator.ImageRuleEvaluator o' <> EmptyString.
Proof.
  unfold Operator.defaultNames. simpl.
  repeat split; try (by apply orDefault_nonempty).
  by destruct (Z.eqb_spec (Operator.CollectorPort o) 0).
Qed.

(** The result of the whole call, when both required fields are set. *)
Lemma defaultAndValidate_checked o :
  Operator.ProjectID o <> EmptyString ->
  Operator.Cluster o <> EmptyString ->
  Operator.defaultAndValidate o
  = (Operator.defaultResources (Operator.defaultNames o),
     Operator.imageNotices (Operator.defaultNames o),
     if bool_decide (Operator.Mode o ∈ Operator.modes)
     then None else Some Operator.ErrMode).
Proof.
  intros Hp Hc. unfold Operator.defaultAndValidate.
  change (Operator.ProjectID (Operator.defaultNames o)) with (Operator.ProjectID o).
  change (Operator.Cluster (Operator.defaultNames o)) with (Operator.Cluster o).
  apply String.eqb_neq in Hp, Hc. rewrite Hp, Hc.
  change (Operator.Mode (Operator.defaultResources (Operator.defaultNames o)))
    with (Operator.Mode o).
  assert (Hm : existsb (String.eqb (Operator.Mode o)) Operator.modes
               = bool_decide (Operator.Mode o ∈ Operator.modes)).
  { apply eq_true_iff_eq. rewrite bool_decide_eq_true.
    exact (elemb_elem_of (Operator.Mode o) Operator.modes). }
  rewrite Hm. by case_bool_decide.
Qed.

(** [defaultAndValidate] returns a nil error exactly when the project, the
    cluster and one of the five known modes are set; the project is
    checked first, the cluster second and the mode last. *)
Theorem defaultAndValidate_error o :
  (snd (Operator.defaultAndValidate o) = None
   <-> Operator.ProjectID o <> EmptyString
       /\ Operator.Cluster o <> EmptyString
       /\ Operator.Mode o ∈ Operator.modes)
  /\ (Operator.ProjectID o = EmptyString ->
      snd (Operator.defaultAndValidate o) = Some Operator.ErrProjectIDUnset)
  /\ (Operator.ProjectID o <> EmptyString -> Operator.Cluster o = EmptyString ->
      snd (Operator.defaultAndValidate o) = Some Operator.ErrClusterUnset).
Proof.
  destruct (decide (Operator.ProjectID o = EmptyString)) as [Hp|Hp].
  - assert (Hr : snd (Operator.defaultAndValidate o)
                 = Some Operator.ErrProjectIDUnset).
    { unfold Operator.defaultAndValidate.
      change (Operator.ProjectID (Operator.defaultNames o))
        with (Operator.ProjectID o).
      by rewrite Hp. }
    rewrite Hr. split; [| done]. split; [discriminate | tauto].
  - destruct (decide (Operator.Cluster o = EmptyString)) as [Hc|Hc].
    + assert (Hr : snd (Operator.defaultAndValidate o)
                   = Some Operator.ErrClusterUnset).
      { unfold Operator.defaultAndValidate.
        change (Operator.ProjectID (Operator.defaultNames o))
          with (Operator.ProjectID o).
        change (Operator.Cluster (Operator.defaultNames o))
          with (Operator.Cluster o).
        apply String.eqb_neq in Hp. by rewrite Hp, Hc. }
      rewrite Hr. split; [| done]. split; [discriminate | tauto].
    + rewrite (defaultAndValidate_checked o Hp Hc). cbn [snd].
      split; [| done]. case_bool_decide; split; try done; tauto.
Qed.

Lemma resource_default_idem x d :
  0 < d ->
  (if (if x <=? 0 then d else x) <=? 0 then d else (if x <=? 0 then d else x))
  = (if x <=? 0 then d else x).
Proof.
  intros Hd. destruct (Z.leb_spec x 0) as [Hx|Hx].
  - destruct (Z.leb_spec d 0); [lia | done].
  - destruct (Z.leb_spec x 0); [lia | done].
Qed.

Lemma limit_default_idem l m k :
  (if (if l <=? m then k else l) <=? m then k else (if l <=? m then k else l))
  = (if l <=? m then k else l).
Proof.
  destruct (Z.leb_spec l m) as [Hl|Hl].
  - by destruct (k <=? m).
  - destruct (Z.leb_spec l m); [lia | done].
Qed.

Lemma defaultResources_idem o :
  Operator.defaultResources (Operator.defaultResources o)
  = Operator.defaultResources o.
Proof.
  unfold Operator.defaultResources.
  cbn [Operator.CollectorCPUResource Operator.CollectorMemoryResource
       Operator.CollectorMemoryLimit Operator.EvaluatorCPUResource
       Operator.EvaluatorMemoryResource Operator.EvaluatorMemoryLimit
       Operator.ProjectID Operator.Location Operator.Cluster
       Operator.DisableExport Operator.OperatorNamespace
       Operator.PublicNamespace Operator.CollectorPort Operator.ImageCollector
       Operator.ImageConfigReloader Operator.ImageRuleEvaluator
       Operator.HostNetwork Operator.PriorityClass Operator.TLSCert
       Operator.TLSKey Operator.CACert Operator.CloudMonitoringEndpoint
       Operator.ListenAddr Operator.CollectorCPULimit
       Operator.EvaluatorCPULimit Operator.Mode].
  rewrite !resource_default_idem by lia.
  by rewrite !limit_default_idem.
Qed.

Lemma defaultResources_positive o :
  let o' := Operator.defaultResources o in
  0 < Operator.CollectorCPUResource o'
  /\ 0 < Operator.CollectorMemoryResource o'
  /\ 0 < Operator.EvaluatorCPUResource o'
  /\ 0 < Operator.EvaluatorMemoryResource o'.
Proof.
  unfold Operator.defaultResources. simpl.
  repeat split;
    match goal with
    | |- 0 < (if ?x <=? 0 then _ else _) => destruct (Z.leb_spec x 0); lia
    end.
Qed.

(** How the memory limits come out: kept when above the (defaulted)
    memory resource, fifteen times the resource otherwise. *)
Lemma defaultResources_limits o :
  let o' := Operator.defaultResources o in
  Operator.CollectorMemoryLimit o'
  = (if Operator.CollectorMemoryLimit o <=? Operator.CollectorMemoryResource o'
     then Operator.mul64 (Operator.CollectorMemoryResource o') 15
     else Operator.CollectorMemoryLimit o)
  /\ Operator.EvaluatorMemoryLimit o'
     = (if Operator.EvaluatorMemoryLimit o <=? Operator.EvaluatorMemoryResource o'
        then Operator.mul64 (Operator.EvaluatorMemoryResource o') 15
        else Operator.EvaluatorMemoryLimit o).
Proof. done. Qed.

Lemma mul64_exact a b :
  Int64.in_range (a * b) -> Operator.mul64 a b = a * b.
Proof. apply wrap_in_range. Qed.

(** The options a successful call leaves are these. *)
Lemma defaultAndValidate_ok_inv o o' logged :
  Operator.defaultAndValidate o = (o', logged, None) ->
  Operator.ProjectID o <> EmptyString
  /\ Operator.Cluster o <> EmptyString
  /\ Operator.Mode o ∈ Operator.modes
  /\ o' = Operator.defaultResources (Operator.defaultNames o)
  /\ logged = Operator.imageNotices (Operator.defaultNames o).
Proof.
  intros Hr.
  destruct (decide (Operator.ProjectID o = EmptyString)) as [Hp|Hp].
  { exfalso. revert Hr. unfold Operator.defaultAndValidate.
    change (Operator.ProjectID (Operator.defaultNames o))
      with (Operator.ProjectID o).
    by rewrite Hp. }
  destruct (decide (Operator.Cluster o = EmptyString)) as [Hc|Hc].
  { exfalso. revert Hr. unfold Operator.defaultAndValidate.
    change (Operator.ProjectID (Operator.defaultNames o))
      with (Operator.ProjectID o).
    change (Operator.Cluster (Operator.defaultNames o))
      with (Operator.Cluster o).
    apply String.eqb_neq in Hp. by rewrite Hp, Hc. }
  rewrite (defaultAndValidate_checked o Hp Hc) in Hr.
  case_bool_decide; [| discriminate]. by injection Hr as <- <-.
Qed.

(** After a successful call nothing is left unset: the namespaces, the
    port and the images are filled in, the project, the cluster and a
    known mode are present, the CPU and memory resources are positive, and
    each memory limit exceeds its memory resource as long as fifteen times
    the resource fits an [int64]. *)
Theorem defaultAndValidate_complete o o' logged :
  Operator.defaultAndValidate o = (o', logged, None) ->
  Operator.OperatorNamespace o' <> EmptyString
  /\ Operator.PublicNamespace o' <> EmptyString
  /\ Operator.CollectorPort o' <> 0
  /\ Operator.ImageCollector o' <> EmptyString
  /\ Operator.ImageConfigReloader o' <> EmptyString
  /\ Operator.ImageRuleEvaluator o' <> EmptyString
  /\ Operator.ProjectID o' <> EmptyString
  /\ Operator.Cluster o' <> EmptyString
  /\ Operator.Mode o' ∈ Operator.modes
  /\ 0 < Operator.CollectorCPUResource o'
  /\ 0 < Operator.CollectorMemoryResource o'
  /\ 0 < Operator.EvaluatorCPUResource o'
  /\ 0 < Operator.EvaluatorMemoryResource o'
  /\ (Operator.CollectorMemoryResource o' * 15 <= Int64.max_int ->
      Operator.CollectorMemoryResource o' < Operator.CollectorMemoryLimit o')
  /\ (Operator.EvaluatorMemoryResource o' * 15 <= Int64.max_int ->
      Operator.EvaluatorMemoryResource o' < Operator.EvaluatorMemoryLimit o').
Proof.
  intros Hr. apply defaultAndValidate_ok_inv in Hr as (Hp & Hc & Hm & -> & _).
  pose proof (defaultNames_filled o) as (H1 & H2 & H3 & H4 & H5 & H6).
  pose proof (defaultResources_positive (Operator.defaultNames o))
    as (Hcc & Hcm & Hec & Hem).
  pose proof (defaultResources_limits (Operator.defaultNames o)) as [Hcl Hel].
  cbv zeta in *.
  repeat (split; [done |]). split.
  - intros Hfit. rewrite Hcl.
    destruct (Z.leb_spec (Operator.CollectorMemoryLimit (Operator.defaultNames o))
                (Operator.CollectorMemoryResource
                   (Operator.defaultResources (Operator.defaultNames o))));
      [| lia].
    rewrite mul64_exact; [lia |].
    unfold Int64.in_range, Int64.min_int, Int64.max_int in *. lia.
  - intros Hfit. rewrite Hel.
    destruct (Z.leb_spec (Operator.EvaluatorMemoryLimit (Operator.defaultNames o))
                (Operator.EvaluatorMemoryResource
                   (Operator.defaultResources (Operator.defaultNames o))));
      [| lia].
    rewrite mul64_exact; [lia |].
    unfold Int64.in_range, Int64.min_int, Int64.max_int in *. lia.
Qed.

(** Running [defaultAndValidate] on options it accepted changes nothing:
    the same options, the same notices and again no error. *)
Theorem defaultAndValidate_idempotent o o' logged :
  Operator.defaultAndValidate o = (o', logged, None) ->
  Operator.defaultAndValidate o' = (o', logged, None).
Proof.
  intros Hr. apply defaultAndValidate_ok_inv in Hr as (Hp & Hc & Hm & -> & ->).
  pose proof (defaultNames_filled o) as (H1 & H2 & H3 & H4 & H5 & H6).
  cbv zeta in *.
  assert (Hfix : Operator.defaultNames
                   (Operator.defaultResources (Operator.defaultNames o))
                 = Operator.defaultResources (Operator.defaultNames o))
    by (by apply defaultNames_fixed).
  rewrite defaultAndValidate_checked by done.
  rewrite Hfix, defaultResources_idem.
  change (Operator.Mode (Operator.defaultResources (Operator.defaultNames o)))
    with (Operator.Mode o).
  by rewrite (bool_decide_eq_true_2 _ Hm).
Qed.

(** What the caller set is never overwritten: every field the call does
    not default is returned as given, a namespace, port or image that was
    set and a resource that was positive are kept, a memory limit above
    the memory resource is kept, and a memory limit that is not becomes
    fifteen times the resource, also where that is less than 3000. *)
Theorem defaultAndValidate_keeps o o' logged :
  Operator.defaultAndValidate o = (o', logged, None) ->
  (Operator.ProjectID o' = Operator.ProjectID o
   /\ Operator.Location o' = Operator.Location o
   /\ Operator.Cluster o' = Operator.Cluster o
   /\ Operator.DisableExport o' = Operator.DisableExport o
   /\ Operator.HostNetwork o' = Operator.HostNetwork o
   /\ Operator.PriorityClass o' = Operator.PriorityClass o
   /\ Operator.TLSCert o' = Operator.TLSCert o
   /\ Operator.TLSKey o' = Operator.TLSKey o
   /\ Operator.CACert o' = Operator.CACert o
   /\ Operator.CloudMonitoringEndpoint o' = Operator.CloudMonitoringEndpoint o
   /\ Operator.ListenAddr o' = Operator.ListenAddr o
   /\ Operator.CollectorCPULimit o' = Operator.CollectorCPULimit o
   /\ Operator.EvaluatorCPULimit o' = Operator.EvaluatorCPULimit o
   /\ Operator.Mode o' = Operator.Mode o)
  /\ (Operator.OperatorNamespace o <> EmptyString ->
      Operator.OperatorNamespace o' = Operator.OperatorNamespace o)
  /\ (Operator.PublicNamespace o <> EmptyString ->
      Operator.PublicNamespace o' = Operator.PublicNamespace o)
  /\ (Operator.CollectorPort o <> 0 ->
      Operator.CollectorPort o' = Operator.CollectorPort o)
  /\ (Operator.ImageCollector o <> EmptyString ->
      Operator.ImageCollector o' = Operator.ImageCollector o)
  /\ (Operator.ImageConfigReloader o <> EmptyString ->
      Operator.ImageConfigReloader o' = Operator.ImageConfigReloader o)
  /\ (Operator.ImageRuleEvaluator o <> EmptyString ->
      Operator.ImageRuleEvaluator o' = Operator.ImageRuleEvaluator o)
  /\ (0 < Operator.CollectorCPUResource o ->
      Operator.CollectorCPUResource o' = Operator.CollectorCPUResource o)
  /\ (0 < Operator.CollectorMemoryResource o ->
      Operator.CollectorMemoryResource o' = Operator.CollectorMemoryResource o)
  /\ (0 < Operator.EvaluatorCPUResource o ->
      Operator.EvaluatorCPUResource o' = Operator.EvaluatorCPUResource o)
  /\ (0 < Operator.EvaluatorMemoryResource o ->
      Operator.EvaluatorMemoryResource o' = Operator.EvaluatorMemoryResource o)
  /\ (Operator.CollectorMemoryResource o' < Operator.CollectorMemoryLimit o ->
      Operator.CollectorMemoryLimit o' = Operator.CollectorMemoryLimit o)
  /\ (Operator.CollectorMemoryLimit o <= Operator.CollectorMemoryResource o' ->
      Operator.CollectorMemoryLimit o'
      = Operator.mul64 (Operator.CollectorMemoryResource o') 15)
  /\ (Operator.EvaluatorMemoryResource o' < Operator.EvaluatorMemoryLimit o ->
      Operator.EvaluatorMemoryLimit o' = Operator.EvaluatorMemoryLimit o)
  /\ (Operator.EvaluatorMemoryLimit o <= Operator.EvaluatorMemoryResource o' ->
      Operator.EvaluatorMemoryLimit o'
      = Operator.mul64 (Operator.EvaluatorMemoryResource o') 15).
Proof.
  intros Hr. apply defaultAndValidate_ok_inv in Hr as (Hp & Hc & Hm & -> & _).
  pose proof (defaultResources_limits (Operator.defaultNames o)) as [Hcl Hel].
  cbv zeta in *.
  split; [by repeat split |].
  split; [intros H; by apply orDefault_set |].
  split; [intros H; by apply orDefault_set |].
  split.
  { intros H. cbn. by destruct (Z.eqb_spec (Operator.CollectorPort o) 0). }
  split; [intros H; by apply orDefault_set |].
  split; [intros H; by apply orDefault_set |].
  split; [intros H; by apply orDefault_set |].
  split.
  { intros H. cbn. destruct (Z.leb_spec (Operator.CollectorCPUResource o) 0);
      [lia | done]. }
  split.
  { intros H. cbn. destruct (Z.leb_spec (Operator.CollectorMemoryResource o) 0);
      [lia | done]. }
  split.
  { intros H. cbn. destruct (Z.leb_spec (Operator.EvaluatorCPUResource o) 0);
      [lia | done]. }
  split.
  { intros H. cbn. destruct (Z.leb_spec (Operator.EvaluatorMemoryResource o) 0);
      [lia | done]. }
  split.
  { intros H. rewrite Hcl.
    change (Operator.CollectorMemoryLimit (Operator.defaultNames o))
      with (Operator.CollectorMemoryLimit o).
    destruct (Z.leb_spec (Operator.CollectorMemoryLimit o)
                (Operator.CollectorMemoryResource
                   (Operator.defaultResources (Operator.defaultNames o))));
      [lia | done]. }
  split.
  { intros H. rewrite Hcl.
    change (Operator.CollectorMemoryLimit (Operator.defaultNames o))
      with (Operator.CollectorMemoryLimit o).
    destruct (Z.leb_spec (Operator.CollectorMemoryLimit o)
                (Operator.CollectorMemoryResource
                   (Operator.defaultResources (Operator.defaultNames o))));
      [done | lia]. }
  split.
  { intros H. rewrite Hel.
    change (Operator.EvaluatorMemoryLimit (Operator.defaultNames o))
      with (Operator.EvaluatorMemoryLimit o).
    destruct (Z.leb_spec (Operator.EvaluatorMemoryLimit o)
                (Operator.EvaluatorMemoryResource
                   (Operator.defaultResources (Operator.defaultNames o))));
      [lia | done]. }
  intros H. rewrite Hel.
  change (Operator.EvaluatorMemoryLimit (Operator.defaultNames o))
    with (Operator.EvaluatorMemoryLimit o).
  destruct (Z.leb_spec (Operator.EvaluatorMemoryLimit o)
              (Operator.EvaluatorMemoryResource
                 (Operator.defaultResources (Operator.defaultNames o))));
    [done | lia].
Qed.

(** A notice about an image is logged exactly when the caller set that
    image to something other than the canonical one. *)
Theorem defaultAndValidate_notices o o' logged :
  Operator.defaultAndValidate o = (o', logged, None) ->
  (Operator.NotCanonicalCollector ∈ logged
   <-> Operator.ImageCollector o <> EmptyString
       /\ Operator.ImageCollector o <> Operator.CanonicalImageCollector)
  /\ (Operator.NotCanonicalConfigReloader ∈ logged
      <-> Operator.ImageConfigReloader o <> EmptyString
          /\ Operator.ImageConfigReloader o
             <> Operator.CanonicalImageConfigReloader)
  /\ (Operator.NotCanonicalRuleEvaluator ∈ logged
      <-> Operator.ImageRuleEvaluator o <> EmptyString
          /\ Operator.ImageRuleEvaluator o
             <> Operator.CanonicalImageRuleEvaluator).
Proof.
  intros Hr. apply defaultAndValidate_ok_inv in Hr as (_ & _ & _ & _ & ->).
  unfold Operator.imageNotices, Operator.defaultNames, Operator.orDefault.
  cbn [Operator.ImageCollector Operator.ImageConfigReloader
       Operator.ImageRuleEvaluator].
  destruct (String.eqb_spec (Operator.ImageCollector o) EmptyString) as [H1|H1];
    destruct (String.eqb_spec (Operator.ImageConfigReloader o) EmptyString)
      as [H2|H2];
    destruct (String.eqb_spec (Operator.ImageRuleEvaluator o) EmptyString)
      as [H3|H3];
    repeat match goal with
           | |- context [String.eqb ?a ?b] => destruct (String.eqb_spec a b)
           end;
    rewrite ?app_nil_l, ?app_nil_r, ?elem_of_app, ?elem_of_cons, ?elem_of_nil;
    repeat split; intros; try tauto; try congruence;
    intuition (try discriminate; try congruence).
Qed.

Lemma defaultAndValidate_complete_witness :
  Operator.OperatorNamespace sampleOptionsChecked = "gmp-system"
  /\ Operator.CollectorPort sampleOptionsChecked = 19090
  /\ Operator.CollectorMemoryResource sampleOptionsChecked
     < Operator.CollectorMemoryLimit sampleOptionsChecked.
Proof.
  destruct (defaultAndValidate_complete sampleOptions sampleOptionsChecked
              sampleNotices ltac:(reflexivity))
    as (_ & _ & _ & _ & _ & _ & _ & _ & _ & _ & _ & _ & _ & Hlimit & _).
  split; [reflexivity |]. split; [reflexivity |].
  apply Hlimit. vm_compute. discriminate.
Defined.

Lemma defaultAndValidate_idempotent_witness :
  Operator.defaultAndValidate sampleOptionsChecked
  = (sampleOptionsChecked, sampleNotices, None).
Proof.
  apply (defaultAndValidate_idempotent sampleOptions). reflexivity.
Defined.

Lemma defaultAndValidate_keeps_witness :
  Operator.ImageCollector sampleOptionsChecked = "example.com/prometheus:test"
  /\ Operator.CollectorMemoryResource sampleOptionsChecked = 100
  /\ Operator.CollectorMemoryLimit sampleOptionsChecked = 1500
  /\ Operator.EvaluatorMemoryLimit sampleOptionsChecked = 4000.
Proof.
  destruct (defaultAndValidate_keeps sampleOptions sampleOptionsChecked
              sampleNotices ltac:(reflexivity))
    as (_ & _ & _ & _ & Himage & _ & _ & _ & Hmemory & _ & _ & _ & Hfifteen
        & Hkept & _).
  split; [apply Himage; discriminate |].
  split; [apply Hmemory; reflexivity |].
  split; [| apply Hkept; reflexivity].
  rewrite Hfifteen; [reflexivity | vm_compute; discriminate].
Defined.

Lemma defaultAndValidate_notices_witness :
  Operator.NotCanonicalCollector ∈ sampleNotices
  /\ Operator.NotCanonicalConfigReloader ∉ sampleNotices.
Proof.
  destruct (defaultAndValidate_notices sampleOptions sampleOptionsChecked
              sampleNotices ltac:(reflexivity)) as (Hcollector & Hreloader & _).
  split.
  - apply Hcollector. split; discriminate.
  - intros Hin. apply Hreloader in Hin as [Hset _]. by apply Hset.
Defined.

Lemma defaultAndValidate_error_witness :
  snd (Operator.defaultAndValidate sampleOptions) = None.
Proof.
  destruct (defaultAndValidate_error sampleOptions) as [Hnil _].
  apply Hnil. split; [discriminate |]. split; [discriminate |].
  apply list_elem_of_further, list_elem_of_here.
Defined.

(** ** Secret and config map selectors *)

(** The path of a selector is empty exactly when there is nothing to
    select; a config map is named before a secret; and the path of a
    config map is never the path of a secret, whatever the namespaces,
    names and keys are. *)
Theorem pathForSelector_kinds ns scm :
  (Operator.pathForSelector ns scm = EmptyString
   <-> scm = None
       \/ exists s, scm = Some s /\ Operator.scmSecret s = None
                    /\ Operator.scmConfigMap s = None)
  /\ (forall s cm,
        scm = Some s -> Operator.scmConfigMap s = Some cm ->
        Operator.pathForSelector ns scm
        = Operator.sprintf4 "configmap" ns (Operator.selName cm) (Operator.selKey cm))
  /\ (forall s cm ns' s' secret,
        scm = Some s -> Operator.scmConfigMap s = Some cm ->
        Operator.scmConfigMap s' = None -> Operator.scmSecret s' = Some secret ->
        Operator.pathForSelector ns scm <> Operator.pathForSelector ns' (Some s')).
Proof.
  split; [| split].
  - destruct scm as [[[secret|] [cm|]]|]; cbn.
    + split; [discriminate |].
      intros [H | (s & [= <-] & _ & H)]; discriminate.
    + split; [discriminate |].
      intros [H | (s & [= <-] & H & _)]; discriminate.
    + split; [discriminate |].
      intros [H | (s & [= <-] & _ & H)]; discriminate.
    + split; [| done]. intros _. right. by eexists.
    + split; [| done]. intros _. by left.
  - intros s cm -> Hcm. cbn. by rewrite Hcm.
  - intros s cm ns' s' secret -> Hcm Hcm' Hs'. cbn. rewrite Hcm, Hcm', Hs'.
    discriminate.
Qed.

Lemma pathForSelector_kinds_witness :
  Operator.pathForSelector "gmp-public" (Some bothSelectors)
  = "configmap_gmp-public_certs_ca.crt".
Proof.
  destruct (pathForSelector_kinds "gmp-public" (Some bothSelectors))
    as (_ & Hconfigmap & _).
  rewrite (Hconfigmap bothSelectors (Operator.mkKeySelector "certs" "ca.crt"));
    reflexivity.
Defined.

(** The bytes of a selector are read from the secret when a secret is
    named, also when a config map is named as well (the path of the same
    selector names the config map); without either there are no bytes and
    no error; and an error never comes with bytes. *)
Theorem getSecretOrConfigMapBytes_source kClient ns scm :
  (forall secret, Operator.scmSecret scm = Some secret ->
     Operator.getSecretOrConfigMapBytes kClient ns scm
     = Operator.getSecretKeyBytes kClient ns secret)
  /\ (forall secret cm,
        Operator.scmSecret scm = Some secret ->
        Operator.scmConfigMap scm = Some cm ->
        Operator.pathForSelector ns (Some scm)
        = Operator.sprintf4 "configmap" ns (Operator.selName cm) (Operator.selKey cm))
  /\ (Operator.scmSecret scm = None -> Operator.scmConfigMap scm = None ->
      Operator.getSecretOrConfigMapBytes kClient ns scm = ([], None))
  /\ (snd (Operator.getSecretOrConfigMapBytes kClient ns scm) <> None ->
      fst (Operator.getSecretOrConfigMapBytes kClient ns scm) = []).
Proof.
  unfold Operator.getSecretOrConfigMapBytes, Operator.getSecretKeyBytes,
    Operator.getConfigMapKeyBytes.
  split; [| split; [| split]].
  - by intros secret ->.
  - intros secret cm _ Hcm. cbn. by rewrite Hcm.
  - by intros -> ->.
  - destruct (Operator.scmSecret scm) as [secret|].
    + destruct (Operator.readSecret kClient ns (Operator.selName secret))
        as [sec|]; [| done].
      by destruct (Operator.secretData sec !! Operator.selKey secret).
    + destruct (Operator.scmConfigMap scm) as [cm|]; [| done].
      destruct (Operator.readConfigMap kClient ns (Operator.selName cm))
        as [c|]; [| done].
      destruct (Operator.cmData c !! Operator.selKey cm); [done |].
      by destruct (Operator.cmBinaryData c !! Operator.selKey cm).
Qed.

Lemma getSecretOrConfigMapBytes_source_witness :
  Operator.getSecretOrConfigMapBytes sampleReader "gmp-public" bothSelectors
  = ([Byte.x01; Byte.x02], None)
  /\ Operator.pathForSelector "gmp-public" (Some bothSelectors)
     = "configmap_gmp-public_certs_ca.crt".
Proof.
  destruct (getSecretOrConfigMapBytes_source sampleReader "gmp-public" bothSelectors)
    as (Hsecret & Hpath & _).
  split.
  - rewrite (Hsecret (Operator.mkKeySelector "tls" "ca.crt")); reflexivity.
  - rewrite (Hpath (Operator.mkKeySelector "tls" "ca.crt")
               (Operator.mkKeySelector "certs" "ca.crt")); reflexivity.
Defined.

(** A key of a config map is found exactly when the config map can be
    read and holds the key under [data] or [binaryData]; [data] is read
    first. *)
Theorem getConfigMapKeyBytes_found kClient ns sel :
  (snd (Operator.getConfigMapKeyBytes kClient ns sel) = None
   <-> exists cm,
       Operator.readConfigMap kClient ns (Operator.selName sel) = Some cm
       /\ (is_Some (Operator.cmData cm !! Operator.selKey sel)
           \/ is_Some (Operator.cmBinaryData cm !! Operator.selKey sel)))
  /\ (forall cm text,
        Operator.readConfigMap kClient ns (Operator.selName sel) = Some cm ->
        Operator.cmData cm !! Operator.selKey sel = Some text ->
        Operator.getConfigMapKeyBytes kClient ns sel
        = (String.list_byte_of_string text, None)).
Proof.
  unfold Operator.getConfigMapKeyBytes. split.
  - destruct (Operator.readConfigMap kClient ns (Operator.selName sel)) as [cm|].
    + destruct (Operator.cmData cm !! Operator.selKey sel) as [text|] eqn:Hd.
      * split; [| done]. intros _. exists cm. split; [done |]. left.
        rewrite Hd. by eexists.
      * destruct (Operator.cmBinaryData cm !! Operator.selKey sel) as [b|] eqn:Hb.
        -- split; [| done]. intros _. exists cm. split; [done |]. right.
           rewrite Hb. by eexists.
        -- split; [discriminate |]. intros (cm' & [= <-] & [H | H]).
           ++ rewrite Hd in H. by destruct H.
           ++ rewrite Hb in H. by destruct H.
    + split; [discriminate |]. by intros (cm & H & _).
  - by intros cm text -> ->.
Qed.

Lemma getConfigMapKeyBytes_found_witness :
  Operator.getConfigMapKeyBytes sampleReader "gmp-public"
    (Operator.mkKeySelector "certs" "ca.crt")
  = (String.list_byte_of_string "pem", None).
Proof.
  destruct (getConfigMapKeyBytes_found sampleReader "gmp-public"
              (Operator.mkKeySelector "certs" "ca.crt")) as [_ Hdata].
  eapply Hdata; reflexivity.
Defined.

(** * The rule evaluator's series sets *)

(** A set whose index stands just before position [k] hands out the
    series from [k] on. *)
Lemma drain_from (m : list RuleEvaluator.Series) err w fuel k :
  (k <= length m)%nat ->
  Z.of_nat (length m) <= Int64.max_int ->
  (length m - k < fuel)%nat ->
  drain fuel {| RuleEvaluator.ssM := m; RuleEvaluator.ssIdx := Z.of_nat k - 1;
                RuleEvaluator.ssErr := err; RuleEvaluator.ssWarnings := w |}
  = Some <$> drop k m.
Proof.
  intros Hk Hmax. revert k Hk. induction fuel as [|fuel IH]; intros k Hk Hfuel;
    [lia |].
  cbn [drain RuleEvaluator.Next RuleEvaluator.ssIdx RuleEvaluator.ssM
       RuleEvaluator.ssErr RuleEvaluator.ssWarnings].
  assert (Hwrap : Int64.wrap (Z.of_nat k - 1 + 1) = Z.of_nat k).
  { rewrite wrap_in_range; [lia |].
    unfold Int64.in_range, Int64.min_int, Int64.max_int in *. lia. }
  rewrite Hwrap.
  destruct (Z.ltb_spec (Z.of_nat k) (Z.of_nat (length m))) as [Hlt|Hge].
  - assert (Hlt' : (k < length m)%nat) by lia.
    destruct (lookup_lt_is_Some_2 m k Hlt') as [x Hx].
    rewrite (drop_S m x k Hx), fmap_cons. f_equal.
    + unfold RuleEvaluator.At. cbn [RuleEvaluator.ssIdx RuleEvaluator.ssM].
      destruct (Z.ltb_spec (Z.of_nat k) 0); [lia |].
      by rewrite Nat2Z.id.
    + replace (Z.of_nat k) with (Z.of_nat (S k) - 1) by lia.
      apply IH; lia.
  - by rewrite drop_ge by lia.
Qed.

(** Reading a fresh series set with [Next] and [At] hands out exactly the
    series it was built from, in order, and then stops; the error it was
    built with is what [Err] reports. *)
Theorem listSeriesSet_drain (m : list RuleEvaluator.Series) err w fuel :
  Z.of_nat (length m) <= Int64.max_int ->
  (length m < fuel)%nat ->
  drain fuel (RuleEvaluator.newListSeriesSet m err w) = Some <$> m
  /\ RuleEvaluator.Err (RuleEvaluator.newListSeriesSet m err w) = err
  /\ length (RuleEvaluator.Warnings (RuleEvaluator.newListSeriesSet m err w))
     = length w.
Proof.
  intros Hmax Hfuel. split; [| split].
  - unfold RuleEvaluator.newListSeriesSet.
    change (-1) with (Z.of_nat 0 - 1).
    rewrite drain_from; [done | lia | done | lia].
  - reflexivity.
  - unfold RuleEvaluator.newListSeriesSet, RuleEvaluator.Warnings,
      RuleEvaluator.convertV1WarningsToStorageWarnings.
    cbn. by rewrite length_fmap.
Qed.

Lemma listSeriesSet_drain_witness :
  drain 3 (RuleEvaluator.newListSeriesSet [sampleSeries; sampleSeries] None [])
  = [Some sampleSeries; Some sampleSeries].
Proof.
  destruct (listSeriesSet_drain [sampleSeries; sampleSeries] None [] 3)
    as [Hdrain _].
  - vm_compute. discriminate.
  - simpl. lia.
  - exact Hdrain.
Defined.

(** [Select] answers without issuing a query when sorting or hints are
    asked for (with an error) and when the range is empty or reversed
    (without one): the result has no series and does not depend on the
    query function. *)
Theorem Select_without_query db db' sort hints matchers :
  RuleEvaluator.qMint db' = RuleEvaluator.qMint db ->
  RuleEvaluator.qMaxt db' = RuleEvaluator.qMaxt db ->
  sort = true \/ hints <> None
  \/ Int64.sub (RuleEvaluator.qMaxt db) (RuleEvaluator.qMint db) <= 0 ->
  RuleEvaluator.Select db' sort hints matchers
  = RuleEvaluator.Select db sort hints matchers
  /\ RuleEvaluator.ssM (RuleEvaluator.Select db sort hints matchers) = []
  /\ (RuleEvaluator.Err (RuleEvaluator.Select db sort hints matchers) = None
      <-> sort = false /\ hints = None).
Proof.
  intros Hmin Hmax Hcase. unfold RuleEvaluator.Select. rewrite Hmin, Hmax.
  destruct sort; [cbn; split; [done |]; split; [done |]; split;
                  [discriminate | intros [? _]; discriminate] |].
  destruct hints as [h|]; [cbn; split; [done |]; split; [done |]; split;
                           [discriminate | intros [_ ?]; discriminate] |].
  cbn [orb].
  destruct Hcase as [H | [H | H]]; [discriminate | done |].
  destruct (Z.leb_spec (Int64.sub (RuleEvaluator.qMaxt db) (RuleEvaluator.qMint db)) 0);
    [| lia].
  done.
Qed.

Lemma Select_without_query_witness :
  RuleEvaluator.Select (RuleEvaluator.mkQueryAccess 20 10 failingQuery)
    false None sampleMatchers
  = RuleEvaluator.Select (RuleEvaluator.mkQueryAccess 20 10 sampleQuery)
      false None sampleMatchers.
Proof.
  destruct (Select_without_query
              (RuleEvaluator.mkQueryAccess 20 10 sampleQuery)
              (RuleEvaluator.mkQueryAccess 20 10 failingQuery)
              false None sampleMatchers) as [Hsame _].
  - reflexivity.
  - reflexivity.
  - right. right. vm_compute. discriminate.
  - exact Hsame.
Defined.

Lemma quot_1000_range a :
  Int64.in_range a ->
  - 2 ^ 62 <= Z.quot a 1000 <= 2 ^ 62.
Proof.
  unfold Int64.in_range, Int64.min_int, Int64.max_int. intros Ha.
  Z.quot_rem_to_equations. lia.
Qed.

(** A querier for a range whose bounds, cut to whole seconds, do not leave
    at least one second between them selects nothing and reports no
    error, whatever the query function would answer. *)
Theorem Querier_short_range query mint maxt matchers :
  Int64.in_range mint -> Int64.in_range maxt ->
  Z.quot maxt 1000 <= Z.quot mint 1000 ->
  RuleEvaluator.Select (RuleEvaluator.Querier query mint maxt) false None matchers
  = RuleEvaluator.newListSeriesSet [] None [].
Proof.
  intros Hmin Hmax Hq. unfold RuleEvaluator.Select, RuleEvaluator.Querier.
  cbn [orb RuleEvaluator.qMint RuleEvaluator.qMaxt].
  pose proof (quot_1000_range mint Hmin). pose proof (quot_1000_range maxt Hmax).
  unfold Int64.sub. rewrite wrap_in_range.
  - destruct (Z.leb_spec (Z.quot maxt 1000 - Z.quot mint 1000) 0); [done | lia].
  - unfold Int64.in_range, Int64.min_int, Int64.max_int. lia.
Qed.

Lemma Querier_short_range_witness :
  RuleEvaluator.Select (RuleEvaluator.Querier sampleQuery 1500 1999)
    false None sampleMatchers
  = RuleEvaluator.newListSeriesSet [] None [].
Proof.
  apply (Querier_short_range sampleQuery 1500 1999 sampleMatchers).
  - vm_compute. split; discriminate.
  - vm_compute. split; discriminate.
  - vm_compute. discriminate.
Defined.

(** When the query answers with a matrix, [Select] hands out one series
    per series of the answer, with the same points, and of its labels
    exactly those that a matcher names; the warnings are passed on. *)
Theorem Select_matrix db matchers m w :
  0 < Int64.sub (RuleEvaluator.qMaxt db) (RuleEvaluator.qMint db) ->
  RuleEvaluator.qQuery db
    (fst (RuleEvaluator.convertMatchersToPromQL matchers
            (Int64.sub (RuleEvaluator.qMaxt db) (RuleEvaluator.qMint db))))
    (RuleEvaluator.qMaxt db)
  = (RuleEvaluator.VMatrix m, w, None) ->
  let ss := RuleEvaluator.Select db false None matchers in
  RuleEvaluator.Err ss = None
  /\ RuleEvaluator.Warnings ss = RuleEvaluator.ErrText <$> w
  /\ length (RuleEvaluator.ssM ss) = length m
  /\ forall i s, m !! i = Some s ->
       exists s',
         RuleEvaluator.ssM ss !! i = Some s'
         /\ RuleEvaluator.sFloats s' = RuleEvaluator.sFloats s
         /\ forall l, l ∈ RuleEvaluator.sMetric s'
                      <-> l ∈ RuleEvaluator.sMetric s
                          /\ Name l ∈ RuleEvaluator.mName <$> matchers.
Proof.
  intros Hd Hq ss. subst ss. unfold RuleEvaluator.Select. cbn [orb].
  destruct (Z.leb_spec (Int64.sub (RuleEvaluator.qMaxt db) (RuleEvaluator.qMint db)) 0);
    [lia |].
  unfold RuleEvaluator.convertMatchersToPromQL in *. cbn [fst] in Hq.
  rewrite Hq. cbn.
  split; [done |]. split; [done |]. split; [by rewrite length_fmap |].
  intros i s Hi. eexists. split.
  - rewrite list_lookup_fmap, Hi. reflexivity.
  - split; [done |]. intros l. cbn. unfold RuleEvaluator.MatchLabels.
    rewrite list_elem_of_filter. tauto.
Qed.

Lemma Select_matrix_witness :
  let ss := RuleEvaluator.Select (RuleEvaluator.mkQueryAccess 10 70 sampleQuery)
              false None sampleMatchers in
  RuleEvaluator.Err ss = None
  /\ RuleEvaluator.Warnings ss = [RuleEvaluator.ErrText "partial data"]
  /\ length (RuleEvaluator.ssM ss) = 1%nat.
Proof.
  destruct (Select_matrix (RuleEvaluator.mkQueryAccess 10 70 sampleQuery)
              sampleMatchers [sampleSeries] ["partial data"])
    as (Herr & Hw & Hlen & _).
  - vm_compute. reflexivity.
  - reflexivity.
  - split; [exact Herr |]. split; [exact Hw | exact Hlen].
Defined.

(** A failed query, or an answer that is not a matrix, gives a series set
    that hands out nothing and reports an error: the error of the query
    (with its warnings), or the type mismatch. *)
Theorem Select_failure db matchers v w err fuel :
  0 < Int64.sub (RuleEvaluator.qMaxt db) (RuleEvaluator.qMint db) ->
  RuleEvaluator.qQuery db
    (fst (RuleEvaluator.convertMatchersToPromQL matchers
            (Int64.sub (RuleEvaluator.qMaxt db) (RuleEvaluator.qMint db))))
    (RuleEvaluator.qMaxt db)
  = (v, w, err) ->
  let ss := RuleEvaluator.Select db false None matchers in
  (forall e, err = Some e ->
     RuleEvaluator.Err ss = Some e /\ drain fuel ss = []
     /\ RuleEvaluator.Warnings ss = RuleEvaluator.ErrText <$> w)
  /\ (err = None -> (forall m, v <> RuleEvaluator.VMatrix m) ->
      RuleEvaluator.Err ss
      = Some (RuleEvaluator.ErrNotMatrix (RuleEvaluator.valueType v))
      /\ drain fuel ss = [] /\ RuleEvaluator.Warnings ss = []).
Proof.
  intros Hd Hq ss. subst ss. unfold RuleEvaluator.Select. cbn [orb].
  destruct (Z.leb_spec (Int64.sub (RuleEvaluator.qMaxt db) (RuleEvaluator.qMint db)) 0);
    [lia |].
  unfold RuleEvaluator.convertMatchersToPromQL in *. cbn [fst] in Hq.
  rewrite Hq. split.
  - intros e ->. split; [done |]. split; [by destruct fuel | done].
  - intros -> Hv. destruct v as [m| | |]; [by destruct (Hv m) | | |];
      (split; [done |]; split; [by destruct fuel | done]).
Qed.

Lemma Select_failure_witness :
  RuleEvaluator.Err
    (RuleEvaluator.Select (RuleEvaluator.mkQueryAccess 10 70 failingQuery)
       false None sampleMatchers)
  = Some (RuleEvaluator.ErrText "unavailable").
Proof.
  destruct (Select_failure (RuleEvaluator.mkQueryAccess 10 70 failingQuery)
              sampleMatchers (RuleEvaluator.VMatrix []) []
              (Some (RuleEvaluator.ErrText "unavailable")) 1%nat)
    as [Hquery _].
  - vm_compute. reflexivity.
  - reflexivity.
  - destruct (Hquery _ eq_refl) as [Herr _]. exact Herr.
Defined.
